(** * bokeh.dataclass: a shallow embedding of the record generator

    The development follows [src/bokeh/dataclass.py]: Python values are an
    inductive type, Python dicts are insertion-ordered association lists,
    raised exceptions are the [Raise] branch of [result]. *)

From Stdlib Require Import List String Ascii ZArith Bool Lia DecimalString.
Import ListNotations.
Open Scope string_scope.
Open Scope list_scope.

(** ** Exceptions and the error monad *)

Inductive exn : Type :=
| TypeError
| AttributeError
| AssertionError
| KeyError
| NameError.

Inductive result (A : Type) : Type :=
| Ok (a : A)
| Raise (e : exn).
Arguments Ok {A} a.
Arguments Raise {A} e.

Definition bind {A B : Type} (m : result A) (f : A -> result B) : result B :=
  match m with
  | Ok a => f a
  | Raise e => Raise e
  end.

Notation "x <- m ;; k" := (bind m (fun x => k))
  (at level 61, m at next level, right associativity).

Fixpoint mapM {A B : Type} (f : A -> result B) (l : list A) : result (list B) :=
  match l with
  | [] => Ok []
  | a :: l' => b <- f a ;; bs <- mapM f l' ;; Ok (b :: bs)
  end.

(** ** Python dicts: insertion-ordered association lists *)

Section Dict.
Context {V : Type}.

Fixpoint get (k : string) (d : list (string * V)) : option V :=
  match d with
  | [] => None
  | (k', v) :: d' => if String.eqb k k' then Some v else get k d'
  end.

Definition has (k : string) (d : list (string * V)) : bool :=
  match get k d with Some _ => true | None => false end.

(** [d[k] = v]: an existing key keeps its position, a new key goes last. *)
Fixpoint set (k : string) (v : V) (d : list (string * V)) : list (string * V) :=
  match d with
  | [] => [(k, v)]
  | (k', v') :: d' =>
      if String.eqb k k' then (k, v) :: d' else (k', v') :: set k v d'
  end.

(** [d.update(e)] *)
Definition update (d e : list (string * V)) : list (string * V) :=
  fold_left (fun acc kv => set (fst kv) (snd kv) acc) e d.

Fixpoint del (k : string) (d : list (string * V)) : list (string * V) :=
  match d with
  | [] => []
  | (k', v') :: d' => if String.eqb k k' then d' else (k', v') :: del k d'
  end.

Definition keys (d : list (string * V)) : list string := map fst d.
End Dict.

(** ** Annotations and the internal-field marker *)

(** An annotation is a type object, [Internal[...]] (whose [__origin__] is
    [Internal]), or a string (a forward reference). *)
Inductive annotation : Type :=
| AType (name : string)
| AInternal (inner : annotation)
| AStr (s : string).

Fixpoint prefixb (p s : string) : bool :=
  match p, s with
  | EmptyString, _ => true
  | String a p', String b s' => Ascii.eqb a b && prefixb p' s'
  | String _ _, EmptyString => false
  end.

(** [p in s] on strings *)
Fixpoint substringb (p s : string) : bool :=
  prefixb p s ||
  match s with
  | EmptyString => false
  | String _ s' => substringb p s'
  end.

(** [str.startswith] *)
Definition startswith (s p : string) : bool := prefixb p s.

Module Internal.
Definition __name__ : string := "Internal".

Definition is_internal (a : annotation) : bool :=
  match a with
  | AInternal _ => true
  | AStr s => substringb __name__ s
  | AType _ => false
  end.
End Internal.

Definition _filter_annotations (annotations : list (string * annotation))
    (internals : bool) : list (string * annotation) :=
  if internals then annotations
  else filter (fun fa => negb (startswith (fst fa) "_")
                         && negb (Internal.is_internal (snd fa)))
              annotations.

(** ** Record types and values *)

(** The decorator options are a dict from option name to flag. *)
Definition options : Type := list (string * bool).

Definition _DEFAULT_OPTIONS : options :=
  [("init", true); ("repr", true); ("eq", true); ("iter", false);
   ("frozen", false); ("kwargs", false); ("slots", false);
   ("hide_internals", true)].

(** [options[name]]; every key of [_DEFAULT_OPTIONS] is always present. *)
Definition option_of (o : options) (name : string) : bool :=
  match get name o with
  | Some b => b
  | None => false
  end.

(** The function [_generate_new] builds, described by the pieces its text
    is joined from: the parameter list ([arguments], ["*args"],
    [default_arguments] with the default each one is bound to, ["**kwargs"])
    and the assignments (the fields in annotation order, those whose
    reference is a conditional copy, and whether [object.__setattr__] is
    used). *)
Record gen_new (V : Type) : Type := mkNew {
  arguments : list string;
  star_args : bool;
  default_arguments : list (string * V);
  star_kwargs : bool;
  assigned : list string;
  copied : list string;
  new_frozen : bool
}.
Arguments mkNew {V}.
Arguments arguments {V}.
Arguments star_args {V}.
Arguments default_arguments {V}.
Arguments star_kwargs {V}.
Arguments assigned {V}.
Arguments copied {V}.
Arguments new_frozen {V}.

(** What an instance sees of its class: the identity of the class object
    ([cid], compared by [is]), [__name__], [__annotations__],
    [__dataclass__], the [__new__] of its namespace (absent when the [init]
    option is off), whether [__setattr__] and [__delattr__] are the raising
    function, and whether the class body defines [__init__]. *)
Record dtype_of (V : Type) : Type := mkType {
  cid : nat;
  tname : string;
  annots : list (string * annotation);
  opts : options;
  new : option (gen_new V);
  frozen_attr : bool;
  user_init : bool
}.
Arguments mkType {V}.
Arguments cid {V}.
Arguments tname {V}.
Arguments annots {V}.
Arguments opts {V}.
Arguments new {V}.
Arguments frozen_attr {V}.
Arguments user_init {V}.

Set Warnings "-register-all".

Inductive value : Type :=
| VInt (z : Z)
| VStr (s : string)
| VList (es : list value)
| VTuple (es : list value)
| VNamed (tn : string) (fs : list (string * value))   (* a namedtuple *)
| VDict (kvs : list (value * value))
| VObj (tag : string)                                 (* a function or other opaque object *)
| VData (ty : dtype_of value) (attrs : list (string * value)). (* a data class instance *)

Definition dtype : Type := dtype_of value.

(** [type(x) is type(y)] *)
Definition type_is (t u : dtype) : bool := Nat.eqb (cid t) (cid u).

(** [is_dataclass_instance]: the object carries [__metaclass__] and is not
    the metaclass itself. *)
Definition is_dataclass_instance (obj : value) : bool :=
  match obj with
  | VData _ _ => true
  | _ => false
  end.

(** [getattr(x, f)] for an attribute the instance holds itself.  For a
    name the instance does not hold, Python goes on to the class, where
    the default of a field may be found; the model ends with
    [AttributeError] there, which is what the code does when the class has
    no attribute of that name either. *)
Definition getattr (attrs : list (string * value)) (f : string) : result value :=
  match get f attrs with
  | Some v => Ok v
  | None => Raise AttributeError
  end.

Definition fields (dataclass : value) (internals : bool)
    : result (list (string * value)) :=
  match dataclass with
  | VData ty attrs =>
      mapM (fun fa => v <- getattr attrs (fst fa) ;; Ok (fst fa, v))
           (_filter_annotations (annots ty) internals)
  | _ => Raise AssertionError
  end.

(** ** Structural conversion *)

Section Recurse.
(** [iter_proc] receives the (key, value) pairs of a dict. *)
Variable iter_proc : list (value * value) -> result value.

Fixpoint _recurse_structure (var : value) : result value :=
  match var with
  | VData ty attrs =>
      (* [fields(var, internals=True)] is evaluated first, then its items
         are converted one by one *)
      _ <- mapM (fun fa => getattr attrs (fst fa)) (annots ty) ;;
      kvs <- mapM (fun fa =>
               (fix look (l : list (string * value)) : result (value * value) :=
                  match l with
                  | [] => Raise AttributeError
                  | (k, v) :: l' =>
                      if String.eqb (fst fa) k
                      then v' <- _recurse_structure v ;; Ok (VStr (fst fa), v')
                      else look l'
                  end) attrs) (annots ty) ;;
      iter_proc kvs
  | VNamed _ fs =>
      kvs <- (fix items (l : list (string * value)) : result (list (value * value)) :=
                match l with
                | [] => Ok []
                | (k, v) :: l' =>
                    v' <- _recurse_structure v ;; r <- items l' ;;
                    Ok ((VStr k, v') :: r)
                end) fs ;;
      iter_proc kvs
  | VDict d =>
      kvs <- (fix items (l : list (value * value)) : result (list (value * value)) :=
                match l with
                | [] => Ok []
                | (k, v) :: l' =>
                    k' <- _recurse_structure k ;; v' <- _recurse_structure v ;;
                    r <- items l' ;; Ok ((k', v') :: r)
                end) d ;;
      iter_proc kvs
  | VList es =>
      r <- (fix elems (l : list value) : result (list value) :=
              match l with
              | [] => Ok []
              | e :: l' => e' <- _recurse_structure e ;; r <- elems l' ;; Ok (e' :: r)
              end) es ;;
      Ok (VList r)
  | VTuple es =>
      r <- (fix elems (l : list value) : result (list value) :=
              match l with
              | [] => Ok []
              | e :: l' => e' <- _recurse_structure e ;; r <- elems l' ;; Ok (e' :: r)
              end) es ;;
      Ok (VTuple r)
  | VInt _ | VStr _ | VObj _ => Ok var
  end.
End Recurse.

(** [lambda k_v: tuple(v for k, v in k_v)] *)
Definition tuple_proc (k_v : list (value * value)) : result value :=
  Ok (VTuple (map snd k_v)).

Definition as_tuple (dataclass : value) : result value :=
  if is_dataclass_instance dataclass
  then _recurse_structure tuple_proc dataclass
  else Raise AssertionError.

(** ** Equality of values *)

Section Forall2b.
Context {A B : Type} (f : A -> B -> bool).
Fixpoint forall2b (l : list A) (m : list B) : bool :=
  match l, m with
  | [], [] => true
  | a :: l', b :: m' => f a b && forall2b l' m'
  | _, _ => false
  end.
End Forall2b.

(** Python [==] on values.  A namedtuple is a tuple; a dict compares as a
    mapping (same size, every item found in the other); what two data class
    instances do is left to [inst_eq]. *)
Section PyEq.
Variable inst_eq : dtype -> list (string * value) ->
                   dtype -> list (string * value) -> bool.

Fixpoint py_eq_with (a b : value) {struct a} : bool :=
  match a, b with
  | VInt x, VInt y => Z.eqb x y
  | VStr x, VStr y => String.eqb x y
  | VObj x, VObj y => String.eqb x y
  | VList xs, VList ys | VTuple xs, VTuple ys =>
      (fix go (l m : list value) : bool :=
         match l, m with
         | [], [] => true
         | x :: l', y :: m' => py_eq_with x y && go l' m'
         | _, _ => false
         end) xs ys
  | VTuple xs, VNamed _ fs =>
      (fix go (l m : list value) : bool :=
         match l, m with
         | [], [] => true
         | x :: l', y :: m' => py_eq_with x y && go l' m'
         | _, _ => false
         end) xs (map snd fs)
  | VNamed _ fs, VTuple ys =>
      (fix go (l : list (string * value)) (m : list value) : bool :=
         match l, m with
         | [], [] => true
         | (_, x) :: l', y :: m' => py_eq_with x y && go l' m'
         | _, _ => false
         end) fs ys
  | VNamed _ fs, VNamed _ gs =>
      (fix go (l : list (string * value)) (m : list value) : bool :=
         match l, m with
         | [], [] => true
         | (_, x) :: l', y :: m' => py_eq_with x y && go l' m'
         | _, _ => false
         end) fs (map snd gs)
  | VDict d, VDict e =>
      Nat.eqb (List.length d) (List.length e) &&
      (fix every (l : list (value * value)) : bool :=
         match l with
         | [] => true
         | (k, v) :: l' =>
             existsb (fun kv => py_eq_with k (fst kv) && py_eq_with v (snd kv)) e
             && every l'
         end) d
  | VData t attrs, VData u battrs => inst_eq t attrs u battrs
  | _, _ => false
  end.
End PyEq.

(** [==] between two results of [as_tuple]: they hold no instance. *)
Definition tuple_eq : value -> value -> bool :=
  py_eq_with (fun _ _ _ _ => false).

(** ** Generated methods *)

(** [type(a) is type(b)]; a namedtuple class is identified by its name. *)
Definition same_type (a b : value) : bool :=
  match a, b with
  | VInt _, VInt _ | VStr _, VStr _ | VList _, VList _ | VObj _, VObj _
  | VTuple _, VTuple _ | VDict _, VDict _ => true
  | VNamed n _, VNamed m _ => String.eqb n m
  | VData t _, VData u _ => type_is t u
  | _, _ => false
  end.

Definition __eq__ (self other : value) : result bool :=
  if same_type self other
  then a <- as_tuple self ;; b <- as_tuple other ;; Ok (tuple_eq a b)
  else Ok false.

(** [iter(as_tuple(self))]: the values the iterator yields. *)
Definition __iter__ (self : value) : result (list value) :=
  t <- as_tuple self ;;
  match t with
  | VTuple es => Ok es
  | _ => Raise TypeError
  end.

Definition join (sep : string) (l : list string) : string :=
  match l with
  | [] => ""
  | x :: l' => fold_left (fun acc y => (acc ++ sep ++ y)%string) l' x
  end.

Section Repr.
(** The builtin [repr] of a field value, used by [{v!r}]. *)
Variable repr : value -> string.

Definition __repr__ (self : value) : result string :=
  match self with
  | VData ty _ =>
      let show_internals := negb (option_of (opts ty) "hide_internals") in
      fs <- fields self show_internals ;;
      let args := join ", " (map (fun fv => (fst fv ++ "=" ++ repr (snd fv))%string) fs) in
      Ok (tname ty ++ "(" ++ args ++ ")")%string
  | _ => Raise AttributeError
  end.
End Repr.

(** ** [as_dict] *)

(** Keys a dict accepts after conversion.  The conversion leaves ints,
    strings and the objects it does not enter as they were, and they were
    keys of a dict before; a tuple is a key when its elements are; the
    lists and dicts the conversion produces are not. *)
Fixpoint hashable (v : value) : bool :=
  match v with
  | VInt _ | VStr _ | VObj _ => true
  | VTuple es => forallb hashable es
  | VNamed _ fs => forallb (fun kv => hashable (snd kv)) fs
  | _ => false
  end.

Fixpoint dict_set (k v : value) (d : list (value * value)) : list (value * value) :=
  match d with
  | [] => [(k, v)]
  | (k', v') :: d' =>
      if tuple_eq k k' then (k', v) :: d' else (k', v') :: dict_set k v d'
  end.

(** [dict(pairs)].  The pairs arrive converted: Python's [dict] draws them
    from a generator one at a time, so when the key of one pair is refused
    and the conversion of a later pair fails, the code raises for the key
    and the model for the later pair; both raise. *)
Definition dict_factory (k_v : list (value * value)) : result value :=
  d <- fold_left (fun acc kv =>
                    d <- acc ;;
                    if hashable (fst kv) then Ok (dict_set (fst kv) (snd kv) d)
                    else Raise TypeError)
                 k_v (Ok []) ;;
  Ok (VDict d).

Definition as_dict (dataclass : value) : result value :=
  if is_dataclass_instance dataclass
  then _recurse_structure dict_factory dataclass
  else Raise AssertionError.

(** ** Class namespaces *)

(** What a class namespace binds a name to: an ordinary object (a default,
    a method, a descriptor), or one of the dicts and sets the metaclass
    stores under [__annotations__], [__defaults__], [__dataclass__] and
    [__slots__], or a generated [__new__]. *)
Inductive entry : Type :=
| EVal (v : value)
| EAnnotations (a : list (string * annotation))
| EDefaults (d : list (string * entry))
| EOptions (o : options)
| ESlots (s : list string)
| ENew (g : gen_new value).

Definition namespace : Type := list (string * entry).

Definition entry_value (e : entry) : value :=
  match e with
  | EVal v => v
  | _ => VObj "namespace entry"
  end.

(** [hasattr(v, "copy")]: lists and dicts have a [copy] method, ints,
    strings, tuples and named tuples have none.  An instance or an opaque
    object stands here for one without the attribute (a function, [None]);
    a set or an array as a default is outside the model. *)
Definition has_copy (v : value) : bool :=
  match v with
  | VList _ | VDict _ => true
  | _ => false
  end.

Definition mem (k : string) (l : list string) : bool :=
  existsb (String.eqb k) l.

Definition _generate_new (annotations : list (string * annotation))
    (defaults : namespace) (gen_kwargs frozen : bool) : gen_new value :=
  let user_init := has "__init__" defaults in
  let arguments := filter (fun a => negb (has a defaults)) (keys annotations) in
  let default_arguments :=
    flat_map (fun a => match get a defaults with
                       | Some e => [(a, entry_value e)]
                       | None => []
                       end) (keys annotations) in
  let references :=
    filter (fun n => match get n defaults with
                     | Some e => has_copy (entry_value e)
                     | None => false
                     end) (keys annotations) in
  mkNew arguments user_init default_arguments (gen_kwargs || user_init)
        (keys annotations) references frozen.

(** The parameter list of the generated function, as its text names them. *)
Definition parameters (g : gen_new value) : list string :=
  arguments g
  ++ (if star_args g then ["*args"] else [])
  ++ map (fun av => (fst av ++ "=" ++ fst av)%string) (default_arguments g)
  ++ (if star_kwargs g then ["**kwargs"] else []).

(** ** The metaclass *)

Definition ns_annotations (b : namespace) : list (string * annotation) :=
  match get "__annotations__" b with
  | Some (EAnnotations a) => a
  | _ => []
  end.

(** [b.get("__defaults__", namespace)] *)
Definition ns_defaults (b ns : namespace) : namespace :=
  match get "__defaults__" b with
  | Some (EDefaults d) => d
  | Some _ => []
  | None => ns
  end.

Definition ns_slots (b : namespace) : list string :=
  match get "__slots__" b with
  | Some (ESlots s) => s
  | _ => []
  end.

Definition ns_options (b : namespace) : options :=
  match get "__dataclass__" b with
  | Some (EOptions o) => o
  | _ => []
  end.

(** Lines 116-127 of [DataClassMeta.__new__]: annotations, defaults, slots
    and options collected from the data class bases and the namespace. *)
Record collected : Type := mkCollected {
  all_annotations : list (string * annotation);
  all_defaults : namespace;
  all_slots : list string;
  all_options : options
}.

Definition collect (bases : list namespace) (ns : namespace)
    (kwargs : options) : collected :=
  let dataclass_bases := filter (has "__dataclass__") bases in
  let c := fold_left
    (fun c b => mkCollected
       (update (all_annotations c) (ns_annotations b))
       (update (all_defaults c) (ns_defaults b ns))
       (all_slots c ++ ns_slots b)
       (update (all_options c) (ns_options b)))
    (dataclass_bases ++ [ns])
    (mkCollected [] [] [] _DEFAULT_OPTIONS) in
  mkCollected (all_annotations c) (all_defaults c) (all_slots c)
              (update (all_options c) kwargs).

(** [del d[k]] *)
Definition del_item {V : Type} (k : string) (d : list (string * V))
    : result (list (string * V)) :=
  if has k d then Ok (del k d) else Raise KeyError.

Fixpoint del_items {V : Type} (ks : list string) (d : list (string * V))
    : result (list (string * V)) :=
  match ks with
  | [] => Ok d
  | k :: ks' => d' <- del_item k d ;; del_items ks' d'
  end.

(** [d.setdefault(k, v)] *)
Definition setdefault {V : Type} (k : string) (v : V) (d : list (string * V))
    : list (string * V) :=
  if has k d then d else set k v d.

(** A class object: its identity, its name and [vars(cls)]. *)
Record class : Type := mkClass {
  class_id : nat;
  __name__ : string;
  vars : namespace
}.

(** The functions of the module that the metaclass installs. *)
Definition fn__repr__ : entry := EVal (VObj "dataclass.__repr__").
Definition fn__eq__ : entry := EVal (VObj "dataclass.__eq__").
Definition fn__iter__ : entry := EVal (VObj "dataclass.__iter__").
Definition fn__setattr__ : entry := EVal (VObj "dataclass.__setattr__").

(** [_generate_new] runs [exec] with [defaults] as its locals and pops the
    function from them: the dict stored under [__defaults__], being the same
    object, loses whatever it bound to [__new__]. *)
Definition pop__new__ (ns : namespace) : namespace :=
  match get "__defaults__" ns with
  | Some (EDefaults d) => set "__defaults__" (EDefaults (del "__new__" d)) ns
  | _ => ns
  end.

Module DataClassMeta.

(** [type.__new__(cls, name, bases, namespace)] receives the fresh
    identity [id] of the class object it creates. *)
Definition __new__ (id : nat) (name : string) (bases : list namespace)
    (ns : namespace) (kwargs : options) : result class :=
  let c := collect bases ns kwargs in
  let annotations := all_annotations c in
  let defaults := all_defaults c in
  let options := all_options c in
  let ns := update ns defaults in
  let ns := set "__defaults__" (EDefaults defaults) ns in
  let ns := set "__annotations__" (EAnnotations annotations) ns in
  let ns := set "__dataclass__" (EOptions options) ns in
  ns <- del_item "__dict__" ns ;;
  ns <- del_item "__weakref__" ns ;;
  if has "__post_init__" ns then Raise TypeError else
  ns <- (if option_of options "slots" then
           ns <- del_items (filter (fun d => has d defaults) (keys annotations)) ns ;;
           Ok (set "__slots__"
                   (ESlots (filter (fun a => negb (mem a (all_slots c)))
                                   (keys annotations))) ns)
         else if has "__slots__" ns then
           ns <- del_items (filter (fun d => negb (has d defaults) && has d ns)
                                   (keys annotations)) ns ;;
           del_item "__slots__" ns
         else Ok ns) ;;
  let ns := if option_of options "init"
            then setdefault "__new__"
                   (ENew (_generate_new annotations defaults
                            (option_of options "kwargs")
                            (option_of options "frozen")))
                   (pop__new__ ns)
            else ns in
  let ns := if option_of options "repr" then setdefault "__repr__" fn__repr__ ns else ns in
  let ns := if option_of options "eq" then setdefault "__eq__" fn__eq__ ns else ns in
  let ns := if option_of options "iter" then setdefault "__iter__" fn__iter__ ns else ns in
  let ns := if option_of options "frozen"
            then set "__delattr__" fn__setattr__ (set "__setattr__" fn__setattr__ ns)
            else ns in
  Ok (mkClass id name ns).

End DataClassMeta.

(** [dataclass(cls, **options)] with the default metaclass:
    [apply_metaclass] rebuilds the class from [vars(to_class)]. *)
Definition dataclass (id : nat) (to_class : class) (bases : list namespace)
    (options : options) : result class :=
  let ns := set "__metaclass__" (EVal (VObj "DataClassMeta")) (vars to_class) in
  DataClassMeta.__new__ id (__name__ to_class) bases ns options.

(** The class as its instances see it. *)
Definition is_fn__setattr__ (e : option entry) : bool :=
  match e with
  | Some (EVal (VObj tag)) => String.eqb tag "dataclass.__setattr__"
  | _ => false
  end.

(** The attributes are read in the class's own namespace, which is where
    the metaclass puts them; what a class only inherits along its bases
    (the [__setattr__] of a frozen base under a subclass that turns
    [frozen] off again) is not looked up. *)
Definition type_of (c : class) : dtype :=
  mkType (class_id c) (__name__ c)
         (ns_annotations (vars c)) (ns_options (vars c))
         (match get "__new__" (vars c) with
          | Some (ENew g) => Some g
          | _ => None
          end)
         (is_fn__setattr__ (get "__setattr__" (vars c)))
         (has "__init__" (vars c)).

(** ** Construction *)

(** Parameters that accept a positional argument: with ["*args"] in the
    list the defaulted ones are keyword-only. *)
Definition positional (g : gen_new value) : list string :=
  arguments g ++ (if star_args g then [] else keys (default_arguments g)).

Definition named (g : gen_new value) : list string :=
  arguments g ++ keys (default_arguments g).

(** Binding of the call's arguments to the parameters of the generated
    function; every failure of a call to bind is a [TypeError].  The first
    parameter, [cls], is bound by [__call__] itself: a keyword of that
    name is a second value for it. *)
Fixpoint bind_keywords (g : gen_new value) (kwargs bound : list (string * value))
    : result (list (string * value)) :=
  match kwargs with
  | [] => Ok bound
  | (k, v) :: kwargs' =>
      if String.eqb k "cls" then Raise TypeError
      else if mem k (named g) then
        if has k bound then Raise TypeError
        else bind_keywords g kwargs' (bound ++ [(k, v)])
      else if star_kwargs g then bind_keywords g kwargs' bound
      else Raise TypeError
  end.

Definition bind_arguments (g : gen_new value) (args : list value)
    (kwargs : list (string * value)) : result (list (string * value)) :=
  if (List.length (positional g) <? List.length args)%nat && negb (star_args g)
  then Raise TypeError
  else
    bound <- bind_keywords g kwargs (combine (positional g) args) ;;
    if forallb (fun a => has a bound) (arguments g) then Ok bound
    else Raise TypeError.

(** The value of the local variable [n] in the body. *)
Definition local (g : gen_new value) (bound : list (string * value)) (n : string)
    : result value :=
  match get n bound with
  | Some v => Ok v
  | None =>
      match get n (default_arguments g) with
      | Some v => Ok v
      | None => Raise NameError
      end
  end.

(** The assignments of the body.  [self.n = r] goes through the class's
    [__setattr__], [object.__setattr__(self, n, r)] does not.  The
    reference [r] is [n.copy()] or [n]: the same value either way (object
    identity is the subject of [Aliasing] below). *)
Fixpoint assign (ty : dtype) (g : gen_new value) (bound : list (string * value))
    (ns : list string) (attrs : list (string * value))
    : result (list (string * value)) :=
  match ns with
  | [] => Ok attrs
  | n :: ns' =>
      r <- local g bound n ;;
      if negb (new_frozen g) && frozen_attr ty then Raise AttributeError
      else assign ty g bound ns' (set n r attrs)
  end.

(** The generated text names [cls], [self] and [object] itself, and
    [args] and [kwargs] when it has the starred parameters: a field with
    one of these names is captured by the text (a field [self] receives
    the instance, [cls], [args] or [kwargs] make the text ill-formed,
    [object] breaks [object.__new__]).  A field whose name begins with two
    underscores is a special attribute ([__class__], [__dict__],
    [__defaults__], which the text reads on [self]).  [assign] reads the
    fields as the text does for every other name; the statements below
    that construct instances are about classes whose field names are
    [plain_names]. *)
Definition captured : list string :=
  ["cls"; "self"; "object"; "args"; "kwargs"].

Definition plain_names (ns : list string) : bool :=
  forallb (fun n => negb (mem n captured) && negb (startswith n "__")) ns.

Definition generated__new__ (ty : dtype) (g : gen_new value) (args : list value)
    (kwargs : list (string * value)) : result value :=
  bound <- bind_arguments g args kwargs ;;
  attrs <- assign ty g bound (assigned g) [] ;;
  Ok (VData ty attrs).

Section Call.
(** The [__init__] a class body may define, applied to the instance and
    the arguments [__call__] leaves for it. *)
Variable init_hook : dtype -> value -> list value -> list (string * value)
                     -> result value.

(** [DataClassMeta.__call__] *)
Definition __call__ (cls : dtype) (args : list value)
    (kwargs : list (string * value)) : result value :=
  match new cls with
  | Some g =>
      instance <- generated__new__ cls g args kwargs ;;
      let args := skipn (List.length (positional g)) args in
      let kwargs := filter (fun kv => negb (has (fst kv) (annots cls))) kwargs in
      if user_init cls then init_hook cls instance args kwargs
      else Ok instance
  | None =>
      (* [object.__new__], which has no [__code__] *)
      match args, kwargs with
      | [], [] => Raise AttributeError
      | _, _ => if user_init cls then Raise AttributeError else Raise TypeError
      end
  end.

(** [replace(dataclass, **changes)]: a keyword named [dataclass] collides
    with the function's own parameter, and the call does not bind. *)
Definition replace (dataclass : value) (changes : list (string * value))
    : result value :=
  if has "dataclass" changes then Raise TypeError else
  match dataclass with
  | VData ty _ =>
      fs <- fields dataclass true ;;
      __call__ ty [] (update fs changes)
  | _ => Raise AssertionError
  end.
End Call.

(** ** Attribute assignment and deletion on an instance *)

(** [x.n = v] and [del x.n], for the classes the statements below are
    about: a frozen class refuses both, a class without [__slots__] takes
    any name.  (Under [__slots__] a name outside the slots is refused as
    well, which is not modelled.) *)
Definition setattr (self : value) (n : string) (v : value) : result value :=
  match self with
  | VData ty attrs =>
      if frozen_attr ty then Raise AttributeError
      else Ok (VData ty (set n v attrs))
  | _ => Raise AttributeError
  end.

Definition delattr (self : value) (n : string) : result value :=
  match self with
  | VData ty attrs =>
      if frozen_attr ty then Raise AttributeError
      else if has n attrs then Ok (VData ty (del n attrs))
      else Raise AttributeError
  | _ => Raise AttributeError
  end.

(** ** Class statements *)

(** [vars] of the class a [class] statement creates with the default
    metaclass [type], from a body that declares no [__slots__] and with no
    base that already provides them: the interpreter adds the [__dict__]
    and [__weakref__] descriptors. *)
Definition plain_class (id : nat) (name : string) (body : namespace) : class :=
  mkClass id name
    (body ++ [("__dict__", EVal (VObj "getset_descriptor __dict__"));
              ("__weakref__", EVal (VObj "getset_descriptor __weakref__"))]).

(** The same statement under a base that already has a [__dict__]:
    [vars] is the body alone. *)
Definition derived_class (id : nat) (name : string) (body : namespace) : class :=
  mkClass id name body.

(** A [class] statement with a data class among its bases runs the
    inherited metaclass on the body. *)
Definition subclass (id : nat) (name : string) (bases : list namespace)
    (body : namespace) : result class :=
  DataClassMeta.__new__ id name bases body [].

(** ** Object identity: the store behind mutable defaults

    The assignments of the generated [__new__] compare the argument with
    the class default by identity ([n is self.__defaults__[n]]) and call
    [n.copy()], a shallow copy that allocates a new object.  Here objects
    live in a store, and fields, list elements and dict items hold
    references into it.  The constructor is the one [_generate_new]
    describes: the fields it assigns are [assigned g], the references it
    copies are those of [copied g]. *)

Definition loc : Type := nat.

Inductive obj : Type :=
| OInt (z : Z)                         (* immutable, no [copy] method *)
| OList (elems : list loc)             (* a list of references *)
| ODict (items : list (loc * loc))     (* a dict of references *)
| OInst (attrs : list (string * loc)). (* an instance: its attributes *)

Definition store : Type := list obj.

Definition deref (h : store) (l : loc) : option obj := nth_error h l.

(** [l.copy()] as the builtin containers define it: a new object that
    holds the same references. *)
Definition copy (h : store) (l : loc) : store * loc :=
  match deref h l with
  | Some o => (h ++ [o], List.length h)
  | None => (h, l)
  end.

(** In-place mutation of the object at [l], e.g. [x.append(e)]. *)
Fixpoint mutate (h : store) (l : loc) (o : obj) : store :=
  match h, l with
  | [], _ => []
  | _ :: h', O => o :: h'
  | x :: h', S l' => x :: mutate h' l' o
  end.

Definition append (h : store) (l : loc) (e : loc) : store :=
  match deref h l with
  | Some (OList es) => mutate h l (OList (es ++ [e]))
  | _ => h
  end.

(** The reference assigned to field [n]:
    [n.copy() if n is self.__defaults__[n] else n] when the default had a
    [copy] attribute as the class was created, plain [n] otherwise.
    [defaults] holds the objects of [self.__defaults__]. *)
Definition reference (h : store) (g : gen_new value)
    (defaults : list (string * loc)) (n : string) (arg : loc)
    : result (store * loc) :=
  if mem n (copied g) then
    match get n defaults with
    | Some d => if Nat.eqb arg d then Ok (copy h arg) else Ok (h, arg)
    | None => Raise KeyError
    end
  else Ok (h, arg).

(** The assignments of the body over the store.  [supplied] are the
    arguments of the call by parameter name; a parameter left out takes
    the class default, a field with neither is a required argument that is
    missing.  As in [assign], [self.n = r] is refused by a raising
    [__setattr__]. *)
Fixpoint new_refs (h : store) (ty : dtype) (g : gen_new value)
    (defaults supplied : list (string * loc))
    (ns : list string) (attrs : list (string * loc))
    : result (store * list (string * loc)) :=
  match ns with
  | [] => Ok (h, attrs)
  | n :: ns' =>
      match (match get n supplied with
             | Some a => Some a
             | None => get n defaults
             end) with
      | None => Raise TypeError
      | Some arg =>
          r <- reference h g defaults n arg ;;
          if negb (new_frozen g) && frozen_attr ty then Raise AttributeError
          else new_refs (fst r) ty g defaults supplied ns' (set n (snd r) attrs)
      end
  end.

(** A call of the class: a keyword that names no parameter is refused
    unless the text has [**kwargs], a keyword [cls] always; the new
    instance is an object of its own, entered in the store with the
    attributes the body assigned. *)
Definition construct (h : store) (ty : dtype) (g : gen_new value)
    (defaults supplied : list (string * loc)) : result (store * loc) :=
  if forallb (fun k => negb (String.eqb k "cls")
                       && (mem k (named g) || star_kwargs g))
             (keys supplied) then
    r <- new_refs h ty g defaults supplied (assigned g) [] ;;
    Ok (fst r ++ [OInst (snd r)], List.length (fst r))
  else Raise TypeError.

(** [getattr] on an instance in the store. *)
Definition getattr_loc (h : store) (x : loc) (f : string) : result loc :=
  match deref h x with
  | Some (OInst attrs) =>
      match get f attrs with
      | Some l => Ok l
      | None => Raise AttributeError
      end
  | _ => Raise AttributeError
  end.

(** [fields(x, internals=True)] and [replace] over the store. *)
Definition fields_refs (h : store) (g : gen_new value) (x : loc)
    : result (list (string * loc)) :=
  match deref h x with
  | Some (OInst _) =>
      mapM (fun n => l <- getattr_loc h x n ;; Ok (n, l)) (assigned g)
  | _ => Raise AssertionError
  end.

Definition replace_refs (h : store) (ty : dtype) (g : gen_new value)
    (defaults : list (string * loc)) (x : loc)
    (changes : list (string * loc)) : result (store * loc) :=
  if has "dataclass" changes then Raise TypeError else
  fs <- fields_refs h g x ;;
  construct h ty g defaults (update fs changes).

(** What a reference denotes, through the lists it reaches, down to
    [fuel] levels. *)
Inductive shape : Type :=
| SInt (z : Z)
| SList (elems : list shape)
| SOther
| SDeeper.

Fixpoint observe (fuel : nat) (h : store) (l : loc) : shape :=
  match fuel with
  | O => SDeeper
  | S fuel' =>
      match deref h l with
      | Some (OInt z) => SInt z
      | Some (OList es) => SList (map (observe fuel' h) es)
      | _ => SOther
      end
  end.

(** ** The spec's reading of equality, for comparison with [__eq__] *)

(** Python [==], instances comparing with the generated [__eq__]. *)
Definition py_eq : value -> value -> bool :=
  py_eq_with (fun t a u b =>
                match __eq__ (VData t a) (VData u b) with
                | Ok r => r
                | Raise _ => false
                end).

(** Following the spec's words: identical concrete type, and the
    field-value tuples (descriptor order, internal fields included)
    element-wise equal. *)
Definition spec_eq (x y : value) : bool :=
  match x, y with
  | VData t _, VData u _ =>
      type_is t u &&
      match fields x true, fields y true with
      | Ok fs, Ok gs => forall2b py_eq (map snd fs) (map snd gs)
      | _, _ => false
      end
  | _, _ => false
  end.

(** Following the spec's words: default iteration leaves out the fields
    that [fields(x, internals=False)] leaves out. *)
Definition spec_iter_length (x : value) : result nat :=
  fs <- fields x false ;; Ok (List.length fs).

(** ** Examples from the test suite *)

Definition int : annotation := AType "int".

Definition NT (x y z : Z) : value :=
  VNamed "NT" [("x", VInt x); ("y", VInt y); ("z", VInt z)].

(** A record type with the fields [g] and [h]. *)
Definition Epsilon : dtype :=
  mkType 1 "Epsilon" [("g", AType "Tuple[NT]"); ("h", AStr "List[Epsilon]")]
         _DEFAULT_OPTIONS None false false.

Definition epsilon : value :=
  VData Epsilon [("g", NT 1 2 3);
                 ("h", VList [VData Epsilon [("g", VInt 4); ("h", VInt 5)]])].

(** The nested record type of the test suite, with its private field. *)
Definition Epsilon_i : dtype :=
  mkType 2 "Epsilon"
         [("g", AType "Tuple[NT]"); ("h", AStr "List[Epsilon]"); ("_i", int)]
         _DEFAULT_OPTIONS None false false.

Definition epsilon_i : list (string * value) :=
  [("g", NT 1 2 3);
   ("h", VList [VData Epsilon_i [("g", VInt 4); ("h", VInt 5); ("_i", VInt 6)]]);
   ("_i", VInt 0)].

(** [Beta] of the test suite: six fields, [e] marked internal. *)
Definition Beta : dtype :=
  mkType 3 "Beta"
         [("a", int); ("b", int); ("c", int); ("d", int);
          ("e", AInternal (AType "Dict[int, str]")); ("f", int)]
         _DEFAULT_OPTIONS None false false.

Definition beta : value :=
  VData Beta [("a", VInt 1); ("b", VInt 2); ("c", VInt 2); ("d", VInt 4);
              ("e", VDict []); ("f", VInt 3)].

(** The shape of what [as_tuple] returns: lists and tuples around the
    values the conversion does not enter (numbers, strings, and objects of
    any other type, which are opaque here whatever they hold). *)
Fixpoint flat (v : value) : bool :=
  match v with
  | VInt _ | VStr _ | VObj _ => true
  | VList es | VTuple es => forallb flat es
  | _ => false
  end.

(** Induction on values, through the lists they nest. *)
Section ValueInd.
Variable P : value -> Prop.
Hypothesis HInt : forall z, P (VInt z).
Hypothesis HStr : forall s, P (VStr s).
Hypothesis HObj : forall t, P (VObj t).
Hypothesis HList : forall es, Forall P es -> P (VList es).
Hypothesis HTuple : forall es, Forall P es -> P (VTuple es).
Hypothesis HNamed :
  forall tn fs, Forall (fun kv => P (snd kv)) fs -> P (VNamed tn fs).
Hypothesis HDict :
  forall kvs, Forall (fun kv => P (fst kv) /\ P (snd kv)) kvs -> P (VDict kvs).
Hypothesis HData :
  forall ty attrs, Forall (fun kv => P (snd kv)) attrs -> P (VData ty attrs).

Fixpoint value_nested_ind (v : value) : P v :=
  match v with
  | VInt z => HInt z
  | VStr s => HStr s
  | VObj t => HObj t
  | VList es =>
      HList es ((fix go (l : list value) : Forall P l :=
                   match l with
                   | [] => Forall_nil _
                   | x :: l' => Forall_cons x (value_nested_ind x) (go l')
                   end) es)
  | VTuple es =>
      HTuple es ((fix go (l : list value) : Forall P l :=
                    match l with
                    | [] => Forall_nil _
                    | x :: l' => Forall_cons x (value_nested_ind x) (go l')
                    end) es)
  | VNamed tn fs =>
      HNamed tn fs
        ((fix go (l : list (string * value)) : Forall (fun kv => P (snd kv)) l :=
            match l with
            | [] => Forall_nil _
            | kv :: l' =>
                Forall_cons kv (value_nested_ind (snd kv)) (go l')
            end) fs)
  | VDict kvs =>
      HDict kvs
        ((fix go (l : list (value * value))
            : Forall (fun kv => P (fst kv) /\ P (snd kv)) l :=
            match l with
            | [] => Forall_nil _
            | kv :: l' =>
                Forall_cons kv
                  (conj (value_nested_ind (fst kv)) (value_nested_ind (snd kv)))
                  (go l')
            end) kvs)
  | VData ty attrs =>
      HData ty attrs
        ((fix go (l : list (string * value)) : Forall (fun kv => P (snd kv)) l :=
            match l with
            | [] => Forall_nil _
            | kv :: l' =>
                Forall_cons kv (value_nested_ind (snd kv)) (go l')
            end) attrs)
  end.
End ValueInd.

(** A record type with one dict-valued field, and two instances whose
    dicts have different keys and the same values. *)
Definition Table : dtype :=
  mkType 4 "Table" [("m", AType "Dict[int, int]")]
         _DEFAULT_OPTIONS None false false.

Definition table_1 : value := VData Table [("m", VDict [(VInt 1, VInt 2)])].
Definition table_5 : value := VData Table [("m", VDict [(VInt 5, VInt 2)])].

(** The body of a class that declares [__post_init__]. *)
Definition Deprecated_body : namespace :=
  [("__module__", EVal (VStr "test_dataclass"));
   ("__qualname__", EVal (VStr "Deprecated"));
   ("__post_init__", EVal (VObj "function __post_init__"))].

(** ** The collection loop, one dict at a time *)

(** The keys of [l] that are new with respect to [seen], each once, in
    the order of [l]. *)
Fixpoint uniq_from (seen l : list string) : list string :=
  match l with
  | [] => []
  | k :: l' =>
      if mem k seen then uniq_from seen l' else k :: uniq_from (k :: seen) l'
  end.

(** What the loop of [DataClassMeta.__new__] leaves in [all_annotations],
    [all_defaults] and [options] after the data class bases [bs]. *)
Definition merge_annotations (bs : list namespace) : list (string * annotation) :=
  fold_left (fun acc b => update acc (ns_annotations b)) bs [].

Definition merge_defaults (bs : list namespace) (ns : namespace) : namespace :=
  fold_left (fun acc b => update acc (ns_defaults b ns)) bs [].

Definition merge_options (bs : list namespace) : options :=
  fold_left (fun acc b => update acc (ns_options b)) bs _DEFAULT_OPTIONS.

(** What [vars(Alpha)] holds for the metaclass after
    [@dataclass(slots=True) class Alpha: a: int; b: int = 2; c: int], and
    the body of [class Beta(Alpha)]. *)
Definition Alpha_vars : namespace :=
  [("__annotations__", EAnnotations [("a", int); ("b", int); ("c", int)]);
   ("__defaults__", EDefaults [("b", EVal (VInt 2))]);
   ("__dataclass__", EOptions (set "slots" true _DEFAULT_OPTIONS))].

Definition Beta_body : namespace :=
  [("__annotations__",
    EAnnotations [("d", int); ("e", AInternal (AType "Dict[int, str]"));
                  ("f", int)]);
   ("d", EVal (VInt 4));
   ("e", EVal (VDict []))].

(** The items of [bound] for the names [ns], in the order of [ns]. *)
Definition pick (bound : list (string * value)) (ns : list string)
    : list (string * value) :=
  flat_map (fun n => match get n bound with
                     | Some v => [(n, v)]
                     | None => []
                     end) ns.

(** [Beta] with the constructor generated for it. *)
Definition Beta_defaults : namespace :=
  [("b", EVal (VInt 2)); ("d", EVal (VInt 4)); ("e", EVal (VDict []))].

Definition Beta_generated : dtype :=
  mkType 5 "Beta" (annots Beta) _DEFAULT_OPTIONS
         (Some (_generate_new (annots Beta) Beta_defaults false false))
         false false.

Definition beta_attrs : list (string * value) :=
  [("a", VInt 1); ("b", VInt 2); ("c", VInt 2); ("d", VInt 4);
   ("e", VDict []); ("f", VInt 3)].

(** The values the body of the generated [__new__] reads for the names
    [ns], in the order of [ns]. *)
Definition locals (g : gen_new value) (bound : list (string * value))
    (ns : list string) : list (string * value) :=
  flat_map (fun n => match local g bound n with
                     | Ok v => [(n, v)]
                     | Raise _ => []
                     end) ns.

(** The names [DataClassMeta.__new__] deletes or binds after it has stored
    the descriptor. *)
Definition touched : list string :=
  ["__dict__"; "__weakref__"; "__slots__"; "__new__"; "__repr__"; "__eq__";
   "__iter__"; "__setattr__"; "__delattr__"].

(** The namespace after lines 130-133. *)
Definition stored (c : collected) (ns : namespace) : namespace :=
  set "__dataclass__" (EOptions (all_options c))
    (set "__annotations__" (EAnnotations (all_annotations c))
       (set "__defaults__" (EDefaults (all_defaults c))
          (update ns (all_defaults c)))).

(** [CustomInit] of the test suite: two fields and an [__init__] that takes
    one more argument. *)
Definition CustomInit_defaults : namespace :=
  [("__init__", EVal (VObj "function __init__"))].

Definition CustomInit : dtype :=
  mkType 6 "CustomInit" [("a", int); ("b", int)] _DEFAULT_OPTIONS
         (Some (_generate_new [("a", int); ("b", int)] CustomInit_defaults
                  false false))
         false true.

(** [MutableDefault] of the test suite: one field, whose default is a
    list. *)
Definition MutableDefault_defaults : namespace :=
  [("mutable", EVal (VList []))].

Definition MutableDefault : dtype :=
  mkType 7 "MutableDefault" [("mutable", AType "List[int]")] _DEFAULT_OPTIONS
         (Some (_generate_new [("mutable", AType "List[int]")]
                  MutableDefault_defaults false false))
         false false.

(** An [__init__(self, c)], as far as its call goes: it binds with one
    positional argument or with the keyword [c], and not otherwise.  The
    body, which in the test suite sets one more attribute, is left out. *)
Definition init_taking_c (cls : dtype) (self : value) (args : list value)
    (kwargs : list (string * value)) : result value :=
  match args, kwargs with
  | [_], [] => Ok self
  | [], [(k, _)] => if String.eqb k "c" then Ok self else Raise TypeError
  | _, _ => Raise TypeError
  end.

(** The same class with the default [[[]]], a list holding a list. *)
Definition Nested_defaults : namespace :=
  [("mutable", EVal (VList [VList []]))].

Definition Nested : dtype :=
  mkType 8 "Nested" [("mutable", AType "List[List[int]]")] _DEFAULT_OPTIONS
         (Some (_generate_new [("mutable", AType "List[List[int]]")]
                  Nested_defaults false false))
         false false.

(** Values of the builtin types that have no [copy] attribute. *)
Definition copyless (v : value) : bool :=
  match v with
  | VInt _ | VStr _ | VTuple _ | VNamed _ _ => true
  | _ => false
  end.

(** [repr] of an int, in decimal; the examples that render a
    representation hold ints only, and a value of another type is left
    unrendered. *)
Definition repr_int (v : value) : string :=
  match v with
  | VInt z => NilZero.string_of_int (Z.to_int z)
  | _ => "..."
  end.

(** A class decorated with [hide_internals=False], with a field whose
    name begins with an underscore, and [Shown(1)]. *)
Definition Shown : dtype :=
  mkType 9 "Shown" [("a", int); ("_p", int)]
         (set "hide_internals" false _DEFAULT_OPTIONS) None false false.

Definition shown : value := VData Shown [("a", VInt 1); ("_p", VInt 0)].

(** Following the spec's words: the representation shows the fields that
    [fields] returns with the include-internal flag false. *)
Definition spec_repr (repr : value -> string) (x : value) : result string :=
  match x with
  | VData ty _ =>
      fs <- fields x false ;;
      Ok (tname ty ++ "("
          ++ join ", " (map (fun fv => fst fv ++ "=" ++ repr (snd fv)) fs)
          ++ ")")%string
  | _ => Raise AttributeError
  end.

(** ** Basic facts *)

Lemma bind_Ok {A B : Type} (m : result A) (f : A -> result B) (b : B) :
  bind m f = Ok b -> exists a, m = Ok a /\ f a = Ok b.
Proof.
  destruct m as [a|e]; simpl; intros H.
  - exists a. split; [reflexivity | exact H].
  - discriminate H.
Qed.

Lemma Ok_inj {A : Type} (a b : A) : Ok a = Ok b -> a = b.
Proof. intros H. injection H as E. exact E. Qed.

Lemma mapM_Ok_Forall2 {A B : Type} (f : A -> result B) (l : list A) (r : list B) :
  mapM f l = Ok r -> Forall2 (fun a b => f a = Ok b) l r.
Proof.
  revert r. induction l as [|a l IH]; simpl; intros r H.
  - injection H as <-. constructor.
  - apply bind_Ok in H. destruct H as (b & Hb & H).
    apply bind_Ok in H. destruct H as (bs & Hbs & H).
    injection H as <-. constructor; auto.
Qed.

Lemma fields_keys (ty : dtype) (attrs : list (string * value)) (i : bool)
    (fs : list (string * value)) :
  fields (VData ty attrs) i = Ok fs ->
  keys fs = keys (_filter_annotations (annots ty) i).
Proof.
  simpl. intros H. apply mapM_Ok_Forall2 in H.
  induction H as [|fa kv l r Hf _ IH]; simpl.
  - reflexivity.
  - apply bind_Ok in Hf. destruct Hf as (v & _ & Hv).
    injection Hv as <-. simpl. f_equal. exact IH.
Qed.

Lemma get_None_not_In {V : Type} (k : string) (d : list (string * V)) :
  ~ In k (keys d) -> get k d = None.
Proof.
  induction d as [|[k' v] d IH]; simpl; intros H.
  - reflexivity.
  - destruct (String.eqb_spec k k') as [->|Hne].
    + exfalso. apply H. now left.
    + apply IH. intros Hin. apply H. now right.
Qed.

Lemma get_Some_In {V : Type} (k : string) (d : list (string * V)) (v : V) :
  get k d = Some v -> In k (keys d).
Proof.
  induction d as [|[k' v'] d IH]; simpl; intros H.
  - discriminate H.
  - destruct (String.eqb_spec k k') as [->|Hne].
    + now left.
    + right. now apply IH.
Qed.

Lemma In_get_Some {V : Type} (k : string) (d : list (string * V)) :
  In k (keys d) -> exists v, get k d = Some v.
Proof.
  induction d as [|[k' v'] d IH]; simpl; intros H.
  - contradiction.
  - destruct (String.eqb_spec k k') as [->|Hne].
    + now exists v'.
    + destruct H as [H|H]; [congruence | now apply IH].
Qed.

Lemma has_In {V : Type} (k : string) (d : list (string * V)) :
  has k d = true <-> In k (keys d).
Proof.
  unfold has. split.
  - destruct (get k d) eqn:E; [intros _; eauto using get_Some_In | discriminate].
  - intros H. apply In_get_Some in H. destruct H as (v & ->). reflexivity.
Qed.

Lemma mem_In (k : string) (l : list string) : mem k l = true <-> In k l.
Proof.
  unfold mem. rewrite existsb_exists. split.
  - intros (x & Hx & E). apply String.eqb_eq in E. now subst.
  - intros H. exists k. split; [exact H | apply String.eqb_refl].
Qed.

(** ** Conversion of a nested structure *)

(** C8: for the record with fields [g = NT(1, 2, 3)] and
    [h = [Epsilon(4, 5)]], [as_tuple] returns [((1, 2, 3), [(4, 5)])]:
    the nested record and the named tuple become tuples and the list stays
    a list; [as_dict] returns the corresponding nested dict.  Both are
    total functions, so both calls return. *)
Theorem as_tuple_as_dict_nested :
  as_tuple epsilon
  = Ok (VTuple [VTuple [VInt 1; VInt 2; VInt 3];
                VList [VTuple [VInt 4; VInt 5]]])
  /\ as_dict epsilon
     = Ok (VDict [(VStr "g", VDict [(VStr "x", VInt 1); (VStr "y", VInt 2);
                                     (VStr "z", VInt 3)]);
                  (VStr "h", VList [VDict [(VStr "g", VInt 4);
                                           (VStr "h", VInt 5)]])]).
Proof. split; reflexivity. Qed.

(** ** Fields hidden by [_filter_annotations] *)

Lemma filter_annotations_In (annotations : list (string * annotation))
    (f : string) :
  In f (keys (_filter_annotations annotations false)) ->
  startswith f "_" = false /\
  exists a, In (f, a) annotations /\ Internal.is_internal a = false.
Proof.
  unfold _filter_annotations, keys. rewrite in_map_iff.
  intros ([f' a] & <- & Hin). apply filter_In in Hin.
  destruct Hin as (Hin & Hkeep). simpl in *.
  apply andb_prop in Hkeep. destruct Hkeep as (Hu & Hi).
  apply negb_true_iff in Hu, Hi. split; [exact Hu | eauto].
Qed.

(** C10, as the code has it: [fields(x, internals=False)] has no field
    whose name begins with an underscore, whatever its annotation.  The
    representation follows it only under [hide_internals]: with the option
    on it is rendered from exactly those fields, with the option off from
    [fields(x, internals=True)], where every declared field is, the
    underscore ones too. *)
Theorem fields_hide_underscore (repr : value -> string) (ty : dtype)
    (attrs fs : list (string * value)) (f : string) :
  fields (VData ty attrs) false = Ok fs ->
  startswith f "_" = true ->
  get f fs = None
  /\ (option_of (opts ty) "hide_internals" = true ->
      __repr__ repr (VData ty attrs)
      = Ok (tname ty ++ "("
            ++ join ", " (map (fun fv => fst fv ++ "=" ++ repr (snd fv)) fs)
            ++ ")")%string)
  /\ (option_of (opts ty) "hide_internals" = false ->
      forall gs, fields (VData ty attrs) true = Ok gs ->
        __repr__ repr (VData ty attrs)
        = Ok (tname ty ++ "("
              ++ join ", " (map (fun fv => fst fv ++ "=" ++ repr (snd fv)) gs)
              ++ ")")%string
        /\ (In f (keys (annots ty)) -> In f (keys gs))).
Proof.
  intros Hfs Hu. split; [|split].
  - apply get_None_not_In. rewrite (fields_keys _ _ _ _ Hfs).
    intros Hin. apply filter_annotations_In in Hin.
    destruct Hin as (Hn & _). congruence.
  - intros Hh. unfold __repr__. rewrite Hh. simpl negb.
    rewrite Hfs. reflexivity.
  - intros Hh gs Hgs. split.
    + unfold __repr__. rewrite Hh. simpl negb. rewrite Hgs. reflexivity.
    + rewrite (fields_keys _ _ _ _ Hgs). intros Hin. exact Hin.
Qed.

Lemma fields_hide_underscore_witness :
  (get "_i" [("g", NT 1 2 3);
             ("h", VList [VData Epsilon_i
                            [("g", VInt 4); ("h", VInt 5); ("_i", VInt 6)]])]
   = None
   /\ (option_of (opts Epsilon_i) "hide_internals" = true ->
       __repr__ (fun _ => "?") (VData Epsilon_i epsilon_i)
       = Ok "Epsilon(g=?, h=?)")
   /\ (option_of (opts Epsilon_i) "hide_internals" = false ->
       forall gs, fields (VData Epsilon_i epsilon_i) true = Ok gs ->
         __repr__ (fun _ => "?") (VData Epsilon_i epsilon_i)
         = Ok ("Epsilon("
               ++ join ", " (map (fun fv => fst fv ++ "=" ++ "?") gs)
               ++ ")")%string
         /\ (In "_i" ["g"; "h"; "_i"] -> In "_i" (keys gs))))
  /\ (get "_p" [("a", VInt 1)] = None
      /\ (option_of (opts Shown) "hide_internals" = true ->
          __repr__ repr_int shown = Ok "Shown(a=1)")
      /\ (option_of (opts Shown) "hide_internals" = false ->
          forall gs, fields shown true = Ok gs ->
            __repr__ repr_int shown
            = Ok ("Shown("
                  ++ join ", " (map (fun fv => fst fv ++ "=" ++ repr_int (snd fv))
                                    gs)
                  ++ ")")%string
            /\ (In "_p" ["a"; "_p"] -> In "_p" (keys gs)))).
Proof.
  split.
  - exact (fields_hide_underscore (fun _ => "?") Epsilon_i epsilon_i
             [("g", NT 1 2 3);
              ("h", VList [VData Epsilon_i
                             [("g", VInt 4); ("h", VInt 5); ("_i", VInt 6)]])]
             "_i" eq_refl eq_refl).
  - exact (fields_hide_underscore repr_int Shown
             [("a", VInt 1); ("_p", VInt 0)] [("a", VInt 1)] "_p"
             eq_refl eq_refl).
Defined.

(** C10 as stated fails for the representation: [Shown] is decorated with
    [hide_internals=False], [fields(Shown(1))] leaves [_p] out and the
    representation shows it. *)
Lemma repr_shows_underscore_field :
  fields shown false = Ok [("a", VInt 1)]
  /\ __repr__ repr_int shown = Ok "Shown(a=1, _p=0)"
  /\ spec_repr repr_int shown = Ok "Shown(a=1)".
Proof. vm_compute. repeat split. Qed.

(** ** The parameter list of the generated constructor *)

Lemma default_arguments_keys (defaults : namespace) (l : list string) :
  keys (flat_map (fun a => match get a defaults with
                           | Some e => [(a, entry_value e)]
                           | None => []
                           end) l)
  = filter (fun a => has a defaults) l.
Proof.
  induction l as [|a l IH]; simpl.
  - reflexivity.
  - unfold has at 1. destruct (get a defaults); simpl.
    + f_equal. exact IH.
    + exact IH.
Qed.

Lemma named_generate_new (annotations : list (string * annotation))
    (defaults : namespace) (gen_kwargs frozen : bool) :
  named (_generate_new annotations defaults gen_kwargs frozen)
  = filter (fun a => negb (has a defaults)) (keys annotations)
    ++ filter (fun a => has a defaults) (keys annotations).
Proof.
  unfold named, _generate_new. simpl.
  rewrite default_arguments_keys. reflexivity.
Qed.

(** C3: the parameters of the generated constructor are the fields without
    a default, in declaration order, followed by the fields with a default,
    in declaration order ([named]); the text of the parameter list has
    ["*args"] between the two groups when the class defines [__init__] and
    ["**kwargs"] last when it does or the [kwargs] option is on. *)
Theorem generated_parameter_order (annotations : list (string * annotation))
    (defaults : namespace) (gen_kwargs frozen : bool) :
  let g := _generate_new annotations defaults gen_kwargs frozen in
  let required := filter (fun a => negb (has a defaults)) (keys annotations) in
  let defaulted := filter (fun a => has a defaults) (keys annotations) in
  named g = required ++ defaulted
  /\ parameters g
     = required
       ++ (if has "__init__" defaults then ["*args"] else [])
       ++ map (fun a => a ++ "=" ++ a)%string defaulted
       ++ (if gen_kwargs || has "__init__" defaults then ["**kwargs"] else []).
Proof.
  intros g required defaulted. split.
  - apply named_generate_new.
  - subst required defaulted. unfold parameters, g, _generate_new.
    cbn [arguments star_args default_arguments star_kwargs].
    rewrite <- (default_arguments_keys defaults (keys annotations)).
    unfold keys. rewrite map_map. reflexivity.
Qed.

(** ** Internal fields *)

Lemma look_get (iter_proc : list (value * value) -> result value)
    (n : string) (attrs : list (string * value)) :
  (fix look (l : list (string * value)) : result (value * value) :=
     match l with
     | [] => Raise AttributeError
     | (k, v) :: l' =>
         if String.eqb n k
         then v' <- _recurse_structure iter_proc v ;; Ok (VStr n, v')
         else look l'
     end) attrs
  = match get n attrs with
    | Some v => v' <- _recurse_structure iter_proc v ;; Ok (VStr n, v')
    | None => Raise AttributeError
    end.
Proof.
  induction attrs as [|[k v] attrs IH]; simpl.
  - reflexivity.
  - destruct (String.eqb n k); [reflexivity | exact IH].
Qed.

(** Conversion of an instance: every annotated field, internal or not, is
    looked up and converted, in annotation order. *)
Lemma recurse_instance (iter_proc : list (value * value) -> result value)
    (ty : dtype) (attrs : list (string * value)) (r : value) :
  _recurse_structure iter_proc (VData ty attrs) = Ok r ->
  exists kvs,
    iter_proc kvs = Ok r /\
    Forall2 (fun fa kv =>
               exists raw, get (fst fa) attrs = Some raw /\
                           fst kv = VStr (fst fa) /\
                           _recurse_structure iter_proc raw = Ok (snd kv))
            (annots ty) kvs.
Proof.
  simpl. intros H.
  apply bind_Ok in H. destruct H as (chk & _ & H).
  apply bind_Ok in H. destruct H as (kvs & Hk & H).
  exists kvs. split; [exact H|]. clear H.
  apply mapM_Ok_Forall2 in Hk.
  induction Hk as [|fa kv l r' Hf _ IH]; [constructor|].
  constructor; [|exact IH].
  rewrite look_get in Hf.
  destruct (get (fst fa) attrs) as [raw|]; [|discriminate Hf].
  apply bind_Ok in Hf. destruct Hf as (v' & Hv & Hf).
  injection Hf as <-. exists raw. simpl. auto.
Qed.

Lemma as_tuple_instance (ty : dtype) (attrs : list (string * value)) (t : value) :
  as_tuple (VData ty attrs) = Ok t ->
  exists vs,
    t = VTuple vs /\
    Forall2 (fun fa v =>
               exists raw, get (fst fa) attrs = Some raw /\
                           _recurse_structure tuple_proc raw = Ok v)
            (annots ty) vs.
Proof.
  unfold as_tuple. cbn [is_dataclass_instance]. intros H.
  apply recurse_instance in H. destruct H as (kvs & Hp & HF).
  unfold tuple_proc in Hp. injection Hp as <-.
  exists (map snd kvs). split; [reflexivity|].
  induction HF as [|fa kv l r (raw & Hg & _ & Hr) _ IH]; simpl; [constructor|].
  constructor; [exists raw; auto | exact IH].
Qed.

Lemma Forall2_In_l {A B : Type} (R : A -> B -> Prop) (l : list A) (r : list B)
    (a : A) :
  Forall2 R l r -> In a l -> exists b, In b r /\ R a b.
Proof.
  induction 1 as [|x y l r Hxy _ IH]; simpl; intros Hin.
  - contradiction.
  - destruct Hin as [->|Hin].
    + exists y. auto.
    + destruct (IH Hin) as (b & Hb & HR). exists b. auto.
Qed.

Lemma NoDup_keys_functional {V : Type} (d : list (string * V)) (k : string)
    (v w : V) :
  NoDup (keys d) -> In (k, v) d -> In (k, w) d -> v = w.
Proof.
  induction d as [|[k' v'] d IH]; simpl; intros Hnd Hv Hw.
  - contradiction.
  - inversion Hnd as [|? ? Hnotin Hnd']; subst.
    assert (Hk : forall u, In (k, u) d -> In k (keys d)).
    { intros u Hu. unfold keys. apply in_map_iff. exists (k, u). auto. }
    destruct Hv as [Hv|Hv], Hw as [Hw|Hw].
    + congruence.
    + injection Hv as -> ->. exfalso. eauto.
    + injection Hw as -> ->. exfalso. eauto.
    + eauto.
Qed.

Lemma __iter___as_tuple (x : value) (vs : list value) :
  __iter__ x = Ok vs -> as_tuple x = Ok (VTuple vs).
Proof.
  unfold __iter__. intros H. apply bind_Ok in H.
  destruct H as (t & Ht & H). rewrite Ht.
  destruct t; try discriminate H. injection H as ->. reflexivity.
Qed.

(** C7, as the code has it: a field annotated with the internal-field
    marker is left out of [fields(x, internals=False)] and, with
    [hide_internals] on, out of the representation; it is converted by
    [as_tuple] like every other field, so it takes part in tuple
    conversion, in equality and also in iteration, which yields the
    elements of [as_tuple]. *)
Theorem internal_field_visibility (repr : value -> string) (ty : dtype)
    (attrs : list (string * value)) (f : string) (a : annotation) :
  NoDup (keys (annots ty)) ->
  In (f, a) (annots ty) ->
  Internal.is_internal a = true ->
  let x := VData ty attrs in
  (forall fs, fields x false = Ok fs ->
     get f fs = None /\
     (option_of (opts ty) "hide_internals" = true ->
      __repr__ repr x
      = Ok (tname ty ++ "("
            ++ join ", " (map (fun fv => fst fv ++ "=" ++ repr (snd fv)) fs)
            ++ ")")%string))
  /\ (forall t, as_tuple x = Ok t ->
        exists vs raw v,
          t = VTuple vs /\ List.length vs = List.length (annots ty) /\
          get f attrs = Some raw /\
          _recurse_structure tuple_proc raw = Ok v /\ In v vs)
  /\ (forall vs, __iter__ x = Ok vs -> as_tuple x = Ok (VTuple vs))
  /\ (forall u battrs tx tu,
        type_is ty u = true ->
        as_tuple x = Ok tx -> as_tuple (VData u battrs) = Ok tu ->
        __eq__ x (VData u battrs) = Ok (tuple_eq tx tu)).
Proof.
  intros Hnd Hin Hint x. repeat split.
  - apply get_None_not_In. rewrite (fields_keys _ _ _ _ H).
    intros Hk. apply filter_annotations_In in Hk.
    destruct Hk as (_ & a' & Hin' & Hni).
    rewrite (NoDup_keys_functional _ _ _ _ Hnd Hin Hin') in Hint. congruence.
  - intros Hh. unfold x, __repr__. rewrite Hh. simpl negb.
    fold x. rewrite H. reflexivity.
  - intros t Ht. apply as_tuple_instance in Ht.
    destruct Ht as (vs & -> & HF).
    destruct (Forall2_In_l _ _ _ _ HF Hin) as (v & Hv & raw & Hg & Hr).
    exists vs, raw, v. repeat split; auto.
    symmetry. eapply Forall2_length. exact HF.
  - apply __iter___as_tuple.
  - intros u battrs tx tu Ht Hx Hu. unfold __eq__, x. cbn [same_type].
    rewrite Ht. fold x. rewrite Hx, Hu. reflexivity.
Qed.

Lemma internal_field_visibility_witness :
  as_tuple beta
  = Ok (VTuple [VInt 1; VInt 2; VInt 2; VInt 4; VTuple []; VInt 3])
  /\ exists vs raw v,
       VTuple [VInt 1; VInt 2; VInt 2; VInt 4; VTuple []; VInt 3] = VTuple vs /\
       List.length vs = 6%nat /\
       get "e" [("a", VInt 1); ("b", VInt 2); ("c", VInt 2); ("d", VInt 4);
                ("e", VDict []); ("f", VInt 3)] = Some raw /\
       _recurse_structure tuple_proc raw = Ok v /\ In v vs.
Proof.
  split; [reflexivity|].
  refine (proj1 (proj2 (internal_field_visibility (fun _ => "?") Beta
            [("a", VInt 1); ("b", VInt 2); ("c", VInt 2); ("d", VInt 4);
             ("e", VDict []); ("f", VInt 3)]
            "e" (AInternal (AType "Dict[int, str]")) _ _ eq_refl)) _ eq_refl).
  - repeat constructor; simpl; intuition discriminate.
  - simpl. tauto.
Defined.

(** C7 as stated fails on iteration: [Beta(1, 2, 3)] has the internal
    field [e], the iterator yields its (converted) value [()] along with
    the other five, while the fields shown by default are five. *)
Lemma iteration_yields_internal_field :
  In ("e", AInternal (AType "Dict[int, str]")) (annots Beta)
  /\ __iter__ beta = Ok [VInt 1; VInt 2; VInt 2; VInt 4; VTuple []; VInt 3]
  /\ spec_iter_length beta = Ok 5%nat
  /\ ~ (forall x vs, __iter__ x = Ok vs ->
                     spec_iter_length x = Ok (List.length vs)).
Proof.
  repeat split.
  - simpl. tauto.
  - intros H. specialize (H beta _ eq_refl). discriminate H.
Qed.

(** ** Equality *)

Section RecurseEquations.
Variable iter_proc : list (value * value) -> result value.

Lemma elems_mapM (es : list value) :
  (fix elems (l : list value) : result (list value) :=
     match l with
     | [] => Ok []
     | e :: l' =>
         e' <- _recurse_structure iter_proc e ;; r <- elems l' ;; Ok (e' :: r)
     end) es
  = mapM (_recurse_structure iter_proc) es.
Proof.
  induction es as [|e es IH]; simpl; [reflexivity|].
  rewrite IH. reflexivity.
Qed.

Lemma named_items_mapM (fs : list (string * value)) :
  (fix items (l : list (string * value)) : result (list (value * value)) :=
     match l with
     | [] => Ok []
     | (k, v) :: l' =>
         v' <- _recurse_structure iter_proc v ;; r <- items l' ;;
         Ok ((VStr k, v') :: r)
     end) fs
  = mapM (fun kv => v' <- _recurse_structure iter_proc (snd kv) ;;
                    Ok (VStr (fst kv), v')) fs.
Proof.
  induction fs as [|[k v] fs IH]; simpl; [reflexivity|].
  rewrite IH. destruct (_recurse_structure iter_proc v); reflexivity.
Qed.

Lemma dict_items_mapM (d : list (value * value)) :
  (fix items (l : list (value * value)) : result (list (value * value)) :=
     match l with
     | [] => Ok []
     | (k, v) :: l' =>
         k' <- _recurse_structure iter_proc k ;;
         v' <- _recurse_structure iter_proc v ;;
         r <- items l' ;; Ok ((k', v') :: r)
     end) d
  = mapM (fun kv => k' <- _recurse_structure iter_proc (fst kv) ;;
                    v' <- _recurse_structure iter_proc (snd kv) ;;
                    Ok (k', v')) d.
Proof.
  induction d as [|[k v] d IH]; simpl; [reflexivity|].
  rewrite IH. destruct (_recurse_structure iter_proc k); [|reflexivity].
  simpl. destruct (_recurse_structure iter_proc v); reflexivity.
Qed.

Lemma recurse_list (es : list value) :
  _recurse_structure iter_proc (VList es)
  = (r <- mapM (_recurse_structure iter_proc) es ;; Ok (VList r)).
Proof. simpl. rewrite elems_mapM. reflexivity. Qed.

Lemma recurse_tuple (es : list value) :
  _recurse_structure iter_proc (VTuple es)
  = (r <- mapM (_recurse_structure iter_proc) es ;; Ok (VTuple r)).
Proof. simpl. rewrite elems_mapM. reflexivity. Qed.

Lemma recurse_named (tn : string) (fs : list (string * value)) :
  _recurse_structure iter_proc (VNamed tn fs)
  = (kvs <- mapM (fun kv => v' <- _recurse_structure iter_proc (snd kv) ;;
                            Ok (VStr (fst kv), v')) fs ;;
     iter_proc kvs).
Proof. simpl. rewrite named_items_mapM. reflexivity. Qed.

Lemma recurse_dict (d : list (value * value)) :
  _recurse_structure iter_proc (VDict d)
  = (kvs <- mapM (fun kv => k' <- _recurse_structure iter_proc (fst kv) ;;
                            v' <- _recurse_structure iter_proc (snd kv) ;;
                            Ok (k', v')) d ;;
     iter_proc kvs).
Proof. simpl. rewrite dict_items_mapM. reflexivity. Qed.
End RecurseEquations.

Lemma forallb_Forall {A : Type} (f : A -> bool) (l : list A) :
  Forall (fun a => f a = true) l -> forallb f l = true.
Proof.
  intros H. apply forallb_forall. now apply Forall_forall.
Qed.

Lemma get_Some_In_pair {V : Type} (k : string) (d : list (string * V)) (v : V) :
  get k d = Some v -> exists k', In (k', v) d.
Proof.
  induction d as [|[k' v'] d IH]; simpl; intros H.
  - discriminate H.
  - destruct (String.eqb k k').
    + injection H as ->. exists k'. now left.
    + destruct (IH H) as (k'' & Hin). exists k''. now right.
Qed.

(** What [as_tuple] returns holds scalars, lists and tuples only. *)
Lemma recurse_tuple_flat (v r : value) :
  _recurse_structure tuple_proc v = Ok r -> flat r = true.
Proof.
  revert r. induction v using value_nested_ind; intros r Hr.
  - injection Hr as <-. reflexivity.
  - injection Hr as <-. reflexivity.
  - injection Hr as <-. reflexivity.
  - rewrite recurse_list in Hr. apply bind_Ok in Hr.
    destruct Hr as (rs & Hrs & Hr). injection Hr as <-. simpl.
    apply mapM_Ok_Forall2 in Hrs. apply forallb_Forall.
    induction Hrs as [|a b l l' Hab _ IH]; [constructor|].
    inversion H as [|? ? Ha Hl]; subst. constructor; eauto.
  - rewrite recurse_tuple in Hr. apply bind_Ok in Hr.
    destruct Hr as (rs & Hrs & Hr). injection Hr as <-. simpl.
    apply mapM_Ok_Forall2 in Hrs. apply forallb_Forall.
    induction Hrs as [|a b l l' Hab _ IH]; [constructor|].
    inversion H as [|? ? Ha Hl]; subst. constructor; eauto.
  - rewrite recurse_named in Hr. apply bind_Ok in Hr.
    destruct Hr as (kvs & Hk & Hr). injection Hr as <-. simpl.
    apply mapM_Ok_Forall2 in Hk. apply forallb_Forall.
    induction Hk as [|a b l l' Hab _ IH]; simpl; [constructor|].
    inversion H as [|? ? Ha Hl]; subst.
    apply bind_Ok in Hab. destruct Hab as (v' & Hv & Hab).
    injection Hab as <-. constructor; eauto.
  - rewrite recurse_dict in Hr. apply bind_Ok in Hr.
    destruct Hr as (kvs' & Hk & Hr). injection Hr as <-. simpl.
    apply mapM_Ok_Forall2 in Hk. apply forallb_Forall.
    induction Hk as [|a b l l' Hab _ IH]; simpl; [constructor|].
    inversion H as [|? ? Ha Hl]; subst.
    apply bind_Ok in Hab. destruct Hab as (k' & _ & Hab).
    apply bind_Ok in Hab. destruct Hab as (v' & Hv & Hab).
    injection Hab as <-. destruct Ha as (_ & Ha). constructor; eauto.
  - apply recurse_instance in Hr. destruct Hr as (kvs & Hp & HF).
    injection Hp as <-. simpl. apply forallb_Forall.
    induction HF as [|fa kv l l' (raw & Hg & _ & Hraw) _ IH]; simpl;
      [constructor|].
    constructor; [|exact IH].
    apply get_Some_In_pair in Hg. destruct Hg as (k' & Hin).
    rewrite Forall_forall in H. exact (H _ Hin _ Hraw).
Qed.

Section PyEqEquations.
Variable inst_eq : dtype -> list (string * value) ->
                   dtype -> list (string * value) -> bool.

Lemma py_eq_list (xs ys : list value) :
  py_eq_with inst_eq (VList xs) (VList ys)
  = forall2b (py_eq_with inst_eq) xs ys.
Proof.
  simpl. revert ys. induction xs as [|x xs IH]; intros [|y ys]; simpl;
    try reflexivity; f_equal; apply IH.
Qed.

Lemma py_eq_tuple (xs ys : list value) :
  py_eq_with inst_eq (VTuple xs) (VTuple ys)
  = forall2b (py_eq_with inst_eq) xs ys.
Proof.
  simpl. revert ys. induction xs as [|x xs IH]; intros [|y ys]; simpl;
    try reflexivity; f_equal; apply IH.
Qed.
End PyEqEquations.

Lemma forall2b_eq (f : value -> value -> bool) (xs : list value) :
  Forall (fun x => flat x = true ->
                   forall y, flat y = true -> (f x y = true <-> x = y)) xs ->
  forallb flat xs = true ->
  forall ys, forallb flat ys = true -> (forall2b f xs ys = true <-> xs = ys).
Proof.
  induction 1 as [|x xs Hx _ IH]; simpl; intros Hf [|y ys] Hg; simpl.
  - tauto.
  - split; discriminate.
  - split; discriminate.
  - apply andb_prop in Hf. destruct Hf as (Hfx & Hfxs).
    simpl in Hg. apply andb_prop in Hg. destruct Hg as (Hgy & Hgys).
    rewrite andb_true_iff, (Hx Hfx y Hgy), (IH Hfxs ys Hgys).
    split; [intros (-> & ->); reflexivity | intros E; injection E; auto].
Qed.

(** On results of [as_tuple], [==] is identity of the nested tuples. *)
Lemma tuple_eq_spec (a : value) :
  flat a = true ->
  forall b, flat b = true -> (tuple_eq a b = true <-> a = b).
Proof.
  unfold tuple_eq.
  induction a using value_nested_ind; intros Hf b Hb; try discriminate Hf;
    destruct b; try discriminate Hb; try (simpl; split; discriminate).
  - simpl. rewrite Z.eqb_eq. split; congruence.
  - simpl. rewrite String.eqb_eq. split; congruence.
  - simpl. rewrite String.eqb_eq. split; congruence.
  - rewrite py_eq_list. simpl in Hf, Hb.
    rewrite (forall2b_eq _ es H Hf _ Hb). split; congruence.
  - rewrite py_eq_tuple. simpl in Hf, Hb.
    rewrite (forall2b_eq _ es H Hf _ Hb). split; congruence.
Qed.

Lemma as_tuple_flat (x t : value) : as_tuple x = Ok t -> flat t = true.
Proof.
  unfold as_tuple. destruct (is_dataclass_instance x).
  - apply recurse_tuple_flat.
  - discriminate.
Qed.

(** C1, as the code has it: an instance never equals a value that is not
    an instance, nor an instance of another class, and neither comparison
    raises; two instances of the same class are equal exactly when
    [as_tuple] gives the same nested tuple for both.  [as_tuple] converts
    the field values first (a nested record or named tuple becomes the
    tuple of its values, a dict the tuple of its values, in insertion
    order and without the keys), so the answer is that of comparing the
    converted tuples and in neither direction that of comparing the field
    values. *)
Theorem generated_eq (ty : dtype) (attrs : list (string * value)) (y : value) :
  let x := VData ty attrs in
  (is_dataclass_instance y = false -> __eq__ x y = Ok false)
  /\ (forall u b, y = VData u b -> type_is ty u = false ->
        __eq__ x y = Ok false)
  /\ (forall u b tx tu,
        y = VData u b -> type_is ty u = true ->
        as_tuple x = Ok tx -> as_tuple y = Ok tu ->
        (__eq__ x y = Ok true <-> tx = tu)
        /\ (__eq__ x y = Ok false <-> tx <> tu)).
Proof.
  intros x. split; [|split].
  - destruct y; simpl; intros Hy; try reflexivity. discriminate Hy.
  - intros u b -> Ht. unfold x, __eq__. cbn [same_type]. rewrite Ht.
    reflexivity.
  - intros u b tx tu -> Ht Hx Hu.
    pose proof (as_tuple_flat _ _ Hx) as Fx.
    pose proof (as_tuple_flat _ _ Hu) as Fu.
    assert (E : __eq__ x (VData u b) = Ok (tuple_eq tx tu)).
    { unfold x, __eq__. cbn [same_type]. rewrite Ht. fold x.
      rewrite Hx, Hu. reflexivity. }
    rewrite E. pose proof (tuple_eq_spec tx Fx tu Fu) as S.
    destruct (tuple_eq tx tu); split; split; intros H;
      try reflexivity; try discriminate H.
    + apply S. reflexivity.
    + exfalso. apply H. apply S. reflexivity.
    + apply S in H. discriminate H.
    + intros Heq. apply S in Heq. discriminate Heq.
Qed.

Lemma generated_eq_witness :
  __eq__ beta (VList [VInt 0]) = Ok false
  /\ (__eq__ beta beta = Ok true <->
      VTuple [VInt 1; VInt 2; VInt 2; VInt 4; VTuple []; VInt 3]
      = VTuple [VInt 1; VInt 2; VInt 2; VInt 4; VTuple []; VInt 3]).
Proof.
  split.
  - exact (proj1 (generated_eq Beta
             [("a", VInt 1); ("b", VInt 2); ("c", VInt 2); ("d", VInt 4);
              ("e", VDict []); ("f", VInt 3)] (VList [VInt 0])) eq_refl).
  - exact (proj1 (proj2 (proj2 (generated_eq Beta
             [("a", VInt 1); ("b", VInt 2); ("c", VInt 2); ("d", VInt 4);
              ("e", VDict []); ("f", VInt 3)] beta))
             Beta
             [("a", VInt 1); ("b", VInt 2); ("c", VInt 2); ("d", VInt 4);
              ("e", VDict []); ("f", VInt 3)]
             _ _ eq_refl eq_refl eq_refl eq_refl)).
Defined.

(** C1 as stated fails: [Table(m={1: 2})] and [Table(m={5: 2})] have the
    same class and different field values (the dicts differ), yet [==]
    holds, because [as_tuple] keeps a dict's values only. *)
Lemma eq_ignores_dict_keys :
  __eq__ table_1 table_5 = Ok true
  /\ py_eq (VDict [(VInt 1, VInt 2)]) (VDict [(VInt 5, VInt 2)]) = false
  /\ spec_eq table_1 table_5 = false.
Proof. repeat split. Qed.

(** Nor do equal field values give equal instances: [{1: 2, 3: 4}] and
    [{3: 4, 1: 2}] are equal dicts, and the tuples of their values are
    [(2, 4)] and [(4, 2)]. *)
Lemma eq_depends_on_dict_order :
  let x := VData Table [("m", VDict [(VInt 1, VInt 2); (VInt 3, VInt 4)])] in
  let y := VData Table [("m", VDict [(VInt 3, VInt 4); (VInt 1, VInt 2)])] in
  py_eq (VDict [(VInt 1, VInt 2); (VInt 3, VInt 4)])
        (VDict [(VInt 3, VInt 4); (VInt 1, VInt 2)]) = true
  /\ spec_eq x y = true
  /\ __eq__ x y = Ok false.
Proof. vm_compute. repeat split. Qed.

(** ** Dict operations *)

Lemma get_set {V : Type} (k k' : string) (v : V) (d : list (string * V)) :
  get k (set k' v d) = if String.eqb k k' then Some v else get k d.
Proof.
  induction d as [|[k0 v0] d IH]; simpl.
  - reflexivity.
  - destruct (String.eqb_spec k' k0) as [->|Hne]; simpl.
    + destruct (String.eqb k k0); reflexivity.
    + rewrite IH. destruct (String.eqb_spec k k') as [->|Hne'].
      * apply String.eqb_neq in Hne. rewrite Hne. reflexivity.
      * reflexivity.
Qed.

Lemma get_set_other {V : Type} (k k' : string) (v : V) (d : list (string * V)) :
  k <> k' -> get k (set k' v d) = get k d.
Proof.
  intros Hne. rewrite get_set. apply String.eqb_neq in Hne. rewrite Hne.
  reflexivity.
Qed.

Lemma has_set {V : Type} (k k' : string) (v : V) (d : list (string * V)) :
  has k (set k' v d) = String.eqb k k' || has k d.
Proof.
  unfold has. rewrite get_set. destruct (String.eqb k k'); reflexivity.
Qed.

Lemma get_del_other {V : Type} (k k' : string) (d : list (string * V)) :
  k <> k' -> get k (del k' d) = get k d.
Proof.
  intros Hne. induction d as [|[k0 v0] d IH]; simpl.
  - reflexivity.
  - destruct (String.eqb_spec k' k0) as [->|Hne0]; simpl.
    + apply String.eqb_neq in Hne. rewrite Hne. reflexivity.
    + rewrite IH. reflexivity.
Qed.

Lemma has_del_other {V : Type} (k k' : string) (d : list (string * V)) :
  k <> k' -> has k (del k' d) = has k d.
Proof.
  intros Hne. unfold has. rewrite get_del_other by exact Hne. reflexivity.
Qed.

Lemma has_update_l {V : Type} (k : string) (d e : list (string * V)) :
  has k d = true -> has k (update d e) = true.
Proof.
  unfold update. revert d. induction e as [|[k' v'] e IH]; simpl; intros d H.
  - exact H.
  - apply IH. rewrite has_set, H. apply orb_true_r.
Qed.

(** With unique keys in [e], [d.update(e)] reads [e] first, then [d]. *)
Lemma get_update {V : Type} (k : string) (d e : list (string * V)) :
  NoDup (keys e) ->
  get k (update d e) = match get k e with
                       | Some v => Some v
                       | None => get k d
                       end.
Proof.
  unfold update. revert d. induction e as [|[k' v'] e IH]; simpl; intros d Hnd.
  - reflexivity.
  - inversion Hnd as [|? ? Hnotin Hnd']; subst.
    rewrite (IH _ Hnd'). rewrite get_set.
    destruct (String.eqb_spec k k') as [->|Hne].
    + rewrite (get_None_not_In _ _ Hnotin). reflexivity.
    + reflexivity.
Qed.

(** ** The reserved hook name *)

(** With [__dict__] and [__weakref__] in the namespace, as [vars] of a
    top-level class has them, a namespace declaring [__post_init__] is
    rejected with [TypeError]. *)
Lemma post_init_rejected (id : nat) (name : string) (bases : list namespace)
    (ns : namespace) (kwargs : options) :
  has "__post_init__" ns = true ->
  has "__dict__" ns = true ->
  has "__weakref__" ns = true ->
  DataClassMeta.__new__ id name bases ns kwargs = Raise TypeError.
Proof.
  intros Hp Hd Hw. unfold DataClassMeta.__new__.
  set (c := collect bases ns kwargs).
  set (ns1 := set "__dataclass__" _ (set "__annotations__" _
                (set "__defaults__" _ (update ns (all_defaults c))))).
  assert (H1 : forall k, has k ns = true -> has k ns1 = true).
  { intros k Hk. unfold ns1. rewrite !has_set.
    rewrite (has_update_l _ _ _ Hk). rewrite !orb_true_r. reflexivity. }
  unfold del_item at 1. rewrite (H1 _ Hd). cbn [bind].
  unfold del_item at 1.
  rewrite has_del_other by discriminate. rewrite (H1 _ Hw). cbn [bind].
  rewrite !has_del_other by discriminate. rewrite (H1 _ Hp). reflexivity.
Qed.

(** The class of [test_post_init_warning]: [TypeError]. *)
Example post_init_top_level :
  dataclass 11 (plain_class 10 "Deprecated" Deprecated_body) [] []
  = Raise TypeError.
Proof. reflexivity. Qed.

(** C9 fails when the decorated class derives from a plain class (or
    declares [__slots__]): [vars] of it has no [__dict__] entry, the
    unguarded [del namespace["__dict__"]] raises [KeyError] before the
    check for [__post_init__] is reached. *)
Theorem post_init_under_plain_base :
  dataclass 11 (derived_class 10 "Deprecated" Deprecated_body) [] []
  = Raise KeyError.
Proof. reflexivity. Qed.

(** ** Frozen classes *)

(** Assignment and deletion on an instance whose class has the raising
    [__setattr__] fail with [AttributeError]. *)
Lemma frozen_instance_rejects (ty : dtype) (attrs : list (string * value))
    (n : string) (v : value) :
  frozen_attr ty = true ->
  setattr (VData ty attrs) n v = Raise AttributeError
  /\ delattr (VData ty attrs) n = Raise AttributeError.
Proof.
  intros H. unfold setattr, delattr. rewrite H. split; reflexivity.
Qed.

(** A class created with the [frozen] option on has the raising
    [__setattr__]. *)
Lemma frozen_option_installs_setattr (id : nat) (name : string)
    (bases : list namespace) (ns : namespace) (kwargs : options) (cls : class) :
  DataClassMeta.__new__ id name bases ns kwargs = Ok cls ->
  option_of (all_options (collect bases ns kwargs)) "frozen" = true ->
  frozen_attr (type_of cls) = true.
Proof.
  unfold DataClassMeta.__new__. intros H Hf.
  apply bind_Ok in H. destruct H as (ns1 & _ & H).
  apply bind_Ok in H. destruct H as (ns2 & _ & H).
  destruct (has "__post_init__" ns2); [discriminate H|].
  apply bind_Ok in H. destruct H as (ns3 & _ & H).
  rewrite Hf in H. injection H as <-.
  unfold type_of. cbn [vars frozen_attr].
  rewrite get_set. cbn [String.eqb Ascii.eqb Bool.eqb].
  rewrite get_set. reflexivity.
Qed.

(** The class of [test_frozen]: the decorator returns a class,
    construction succeeds and fills both fields, assignment and deletion
    raise. *)
Example frozen_top_level (hook : dtype -> value -> list value ->
                                 list (string * value) -> result value) :
  (cls <- dataclass 31 (plain_class 30 "Frozen"
                          [("__annotations__",
                            EAnnotations [("a", int); ("b", int)])])
                    [] [("frozen", true)] ;;
   Ok (x <- __call__ hook (type_of cls) [VInt 1; VInt 2] [] ;;
       Ok (fields x true, setattr x "a" (VInt 3), delattr x "b")))
  = Ok (Ok (Ok [("a", VInt 1); ("b", VInt 2)],
            Raise AttributeError, Raise AttributeError)).
Proof. vm_compute. reflexivity. Qed.

(** C5 fails for a subclass of a data class that is decorated with
    [frozen=True]: the [class] statement has already run the metaclass
    with the inherited options and put a [__new__] that assigns with
    [self.n = ...] in the namespace; the decorator's [setdefault] keeps it
    and installs the raising [__setattr__].  The three class creations
    succeed, the class has the [frozen] option on, and constructing
    [F(1, 2)] raises [AttributeError]. *)
Theorem frozen_subclass_construction
    (hook : dtype -> value -> list value -> list (string * value)
            -> result value) :
  (base <- dataclass 21 (plain_class 20 "Base"
                           [("__annotations__", EAnnotations [("a", int)])])
                     [] [] ;;
   sub <- subclass 22 "F" [vars base]
            [("__annotations__", EAnnotations [("b", int)])] ;;
   cls <- dataclass 23 sub [vars base] [("frozen", true)] ;;
   Ok (option_of (opts (type_of cls)) "frozen",
       __call__ hook (type_of cls) [VInt 1; VInt 2] []))
  = Ok (true, Raise AttributeError).
Proof. vm_compute. reflexivity. Qed.

(** ** Inheritance: what the collection loop leaves *)

Lemma keys_set {V : Type} (k : string) (v : V) (d : list (string * V)) :
  keys (set k v d) = if mem k (keys d) then keys d else keys d ++ [k].
Proof.
  induction d as [|[k0 v0] d IH]; simpl.
  - reflexivity.
  - destruct (String.eqb k k0) eqn:E; simpl.
    + apply String.eqb_eq in E. subst. reflexivity.
    + rewrite IH. unfold mem. destruct (existsb (String.eqb k) (keys d));
        reflexivity.
Qed.

Lemma uniq_from_ext (s t l : list string) :
  (forall x, mem x s = mem x t) -> uniq_from s l = uniq_from t l.
Proof.
  revert s t. induction l as [|k l IH]; simpl; intros s t H.
  - reflexivity.
  - rewrite <- (H k). destruct (mem k s); [apply IH; exact H|].
    f_equal. apply IH. intros x. simpl. rewrite (H x). reflexivity.
Qed.

Lemma mem_app (x : string) (s t : list string) :
  mem x (s ++ t) = mem x s || mem x t.
Proof. unfold mem. apply existsb_app. Qed.

Lemma keys_update {V : Type} (d e : list (string * V)) :
  keys (update d e) = keys d ++ uniq_from (keys d) (keys e).
Proof.
  unfold update. revert d. induction e as [|[k v] e IH]; simpl; intros d.
  - symmetry. apply app_nil_r.
  - rewrite IH, keys_set. destruct (mem k (keys d)) eqn:E.
    + reflexivity.
    + rewrite <- app_assoc. simpl. do 2 f_equal.
      apply uniq_from_ext. intros x. rewrite mem_app. simpl.
      rewrite orb_false_r. apply orb_comm.
Qed.

Lemma uniq_from_NoDup (s l : list string) :
  NoDup l -> uniq_from s l = filter (fun f => negb (mem f s)) l.
Proof.
  revert s. induction l as [|k l IH]; simpl; intros s Hnd.
  - reflexivity.
  - inversion Hnd as [|? ? Hnotin Hnd']; subst.
    destruct (mem k s); simpl; [apply IH; exact Hnd'|].
    f_equal. rewrite (IH _ Hnd'). apply filter_ext_in.
    intros x Hx. simpl. destruct (String.eqb_spec x k) as [->|Hne].
    + contradiction.
    + reflexivity.
Qed.

Lemma has_cons {V : Type} (k k' : string) (v : V) (e : list (string * V)) :
  has k ((k', v) :: e) = String.eqb k k' || has k e.
Proof. unfold has. simpl. destruct (String.eqb k k'); reflexivity. Qed.

Lemma has_update {V : Type} (k : string) (d e : list (string * V)) :
  has k (update d e) = has k d || has k e.
Proof.
  unfold update. revert d. induction e as [|[k' v'] e IH]; simpl; intros d.
  - symmetry. apply orb_false_r.
  - rewrite IH, has_set, has_cons.
    destruct (String.eqb k k'), (has k d), (has k e); reflexivity.
Qed.

Lemma In_keys_update {V : Type} (k : string) (d e : list (string * V)) :
  In k (keys (update d e)) <-> In k (keys d) \/ In k (keys e).
Proof.
  rewrite <- !has_In, has_update. apply orb_true_iff.
Qed.

Section CollectLoop.
Variable ns : namespace.

Let step (c : collected) (b : namespace) : collected :=
  mkCollected (update (all_annotations c) (ns_annotations b))
              (update (all_defaults c) (ns_defaults b ns))
              (all_slots c ++ ns_slots b)
              (update (all_options c) (ns_options b)).

Lemma loop_annotations (l : list namespace) (c : collected) :
  all_annotations (fold_left step l c)
  = fold_left (fun acc b => update acc (ns_annotations b)) l (all_annotations c).
Proof.
  revert c. induction l as [|b l IH]; simpl; intros c; [reflexivity|].
  rewrite IH. reflexivity.
Qed.

Lemma loop_defaults (l : list namespace) (c : collected) :
  all_defaults (fold_left step l c)
  = fold_left (fun acc b => update acc (ns_defaults b ns)) l (all_defaults c).
Proof.
  revert c. induction l as [|b l IH]; simpl; intros c; [reflexivity|].
  rewrite IH. reflexivity.
Qed.

Lemma loop_options (l : list namespace) (c : collected) :
  all_options (fold_left step l c)
  = fold_left (fun acc b => update acc (ns_options b)) l (all_options c).
Proof.
  revert c. induction l as [|b l IH]; simpl; intros c; [reflexivity|].
  rewrite IH. reflexivity.
Qed.

Lemma collect_annotations (bases : list namespace) (kwargs : options) :
  all_annotations (collect bases ns kwargs)
  = update (merge_annotations (filter (has "__dataclass__") bases))
           (ns_annotations ns).
Proof.
  unfold collect. cbn [all_annotations]. fold step.
  rewrite loop_annotations, fold_left_app. reflexivity.
Qed.

Lemma collect_defaults (bases : list namespace) (kwargs : options) :
  all_defaults (collect bases ns kwargs)
  = update (merge_defaults (filter (has "__dataclass__") bases) ns)
           (ns_defaults ns ns).
Proof.
  unfold collect. cbn [all_defaults]. fold step.
  rewrite loop_defaults, fold_left_app. reflexivity.
Qed.

Lemma collect_options (bases : list namespace) (kwargs : options) :
  all_options (collect bases ns kwargs)
  = update (update (merge_options (filter (has "__dataclass__") bases))
                   (ns_options ns))
           kwargs.
Proof.
  unfold collect. cbn [all_options]. fold step.
  rewrite loop_options, fold_left_app. reflexivity.
Qed.
End CollectLoop.

Lemma In_keys_merge (f : string) (bs : list namespace)
    (acc : list (string * annotation)) :
  In f (keys (fold_left (fun acc b => update acc (ns_annotations b)) bs acc))
  <-> In f (keys acc)
      \/ exists b, In b bs /\ In f (keys (ns_annotations b)).
Proof.
  revert acc. induction bs as [|b bs IH]; simpl; intros acc.
  - split; [auto | intros [H|(b & [] & _)]; exact H].
  - rewrite IH, In_keys_update. split.
    + intros [[H|H]|(b' & Hb' & H)]; eauto.
    + intros [H|(b' & [<-|Hb'] & H)]; eauto.
Qed.

Lemma keys_merge_prefix (bs : list namespace) (acc : list (string * annotation)) :
  exists tail,
    keys (fold_left (fun acc b => update acc (ns_annotations b)) bs acc)
    = keys acc ++ tail
    /\ (bs = [] -> tail = []).
Proof.
  revert acc. induction bs as [|b bs IH]; simpl; intros acc.
  - exists []. split; [symmetry; apply app_nil_r | reflexivity].
  - destruct (IH (update acc (ns_annotations b))) as (tail & E & _).
    rewrite E, keys_update, <- app_assoc. eexists. split; [reflexivity|].
    discriminate.
Qed.

Lemma filter_mem_nil (l : list string) :
  filter (fun f => negb (mem f [])) l = l.
Proof.
  induction l as [|k l IH]; simpl in *; [reflexivity | congruence].
Qed.

(** C2: the descriptor collected for a class with data class bases.  Its
    fields are exactly those of the bases and of the class itself; the
    fields of the bases come first ([inherited], which begins with the
    fields of the first base in their order and is exactly those for a
    single base), the fields only the class declares follow in their
    order; a default or an annotation of the class overrides the one of a
    base, and a flag is taken from the decorator's arguments, else from the
    class, else from the bases. *)
Theorem inheritance_merge (bases : list namespace) (ns : namespace)
    (kwargs : options) :
  NoDup (keys (ns_annotations ns)) ->
  NoDup (keys (ns_defaults ns ns)) ->
  NoDup (keys (ns_options ns)) ->
  NoDup (keys kwargs) ->
  let c := collect bases ns kwargs in
  let parents := filter (has "__dataclass__") bases in
  let inherited := keys (merge_annotations parents) in
  let own := keys (ns_annotations ns) in
  (forall f, In f (keys (all_annotations c)) <->
             (exists b, In b parents /\ In f (keys (ns_annotations b)))
             \/ In f own)
  /\ keys (all_annotations c)
     = inherited ++ filter (fun f => negb (mem f inherited)) own
  /\ (forall b rest,
        parents = b :: rest -> NoDup (keys (ns_annotations b)) ->
        exists tail, inherited = keys (ns_annotations b) ++ tail
                     /\ (rest = [] -> tail = []))
  /\ (forall f,
        get f (all_annotations c)
        = match get f (ns_annotations ns) with
          | Some a => Some a
          | None => get f (merge_annotations parents)
          end)
  /\ (forall f,
        get f (all_defaults c)
        = match get f (ns_defaults ns ns) with
          | Some e => Some e
          | None => get f (merge_defaults parents ns)
          end)
  /\ (forall o,
        get o (all_options c)
        = match get o kwargs with
          | Some b => Some b
          | None => match get o (ns_options ns) with
                    | Some b => Some b
                    | None => get o (merge_options parents)
                    end
          end).
Proof.
  intros Ha Hd Ho Hk c parents inherited own.
  unfold c. rewrite collect_annotations, collect_defaults, collect_options.
  fold parents. repeat split.
  - intros H. apply In_keys_update in H. destruct H as [H|H]; [left|now right].
    apply In_keys_merge in H. destruct H as [[]|H]. exact H.
  - intros [H|H]; apply In_keys_update; [left|now right].
    apply In_keys_merge. now right.
  - rewrite keys_update. fold inherited own. f_equal.
    apply uniq_from_NoDup. exact Ha.
  - intros b rest E Hb. unfold inherited, merge_annotations. rewrite E. simpl.
    destruct (keys_merge_prefix rest (update [] (ns_annotations b)))
      as (tail & Et & Hnil).
    exists tail. split; [|exact Hnil].
    rewrite Et, keys_update. simpl.
    rewrite (uniq_from_NoDup _ _ Hb), filter_mem_nil. reflexivity.
  - intros f. apply get_update. exact Ha.
  - intros f. apply get_update. exact Hd.
  - intros o. rewrite (get_update _ _ _ Hk), (get_update _ _ _ Ho).
    reflexivity.
Qed.

Lemma inheritance_merge_witness :
  keys (all_annotations (collect [Alpha_vars] Beta_body []))
  = ["a"; "b"; "c"] ++ ["d"; "e"; "f"].
Proof.
  refine (proj1 (proj2 (inheritance_merge [Alpha_vars] Beta_body [] _ _ _ _)));
    repeat constructor; simpl; intuition discriminate.
Defined.

(** ** Construction from keyword arguments *)

Lemma plain_names_In (ns : list string) (n : string) :
  plain_names ns = true -> In n ns ->
  mem n captured = false /\ startswith n "__" = false.
Proof.
  unfold plain_names. rewrite forallb_forall. intros H Hin.
  specialize (H n Hin). apply andb_prop in H. destruct H as (Hc & Hu).
  apply negb_true_iff in Hc, Hu. auto.
Qed.

Lemma plain_names_cls (ns : list string) :
  plain_names ns = true -> ~ In "cls" ns.
Proof.
  intros H Hin. apply (plain_names_In _ _ H) in Hin.
  destruct Hin as (Hc & _). discriminate Hc.
Qed.

Lemma bind_keywords_all (g : gen_new value) (kwargs bound : list (string * value)) :
  (forall k, In k (keys kwargs) -> mem k (named g) = true) ->
  ~ In "cls" (keys kwargs) ->
  NoDup (keys bound ++ keys kwargs) ->
  bind_keywords g kwargs bound = Ok (bound ++ kwargs).
Proof.
  revert bound.
  induction kwargs as [|[k v] kwargs IH]; simpl; intros bound Hn Hc Hnd.
  - rewrite app_nil_r. reflexivity.
  - replace (String.eqb k "cls") with false
      by (symmetry; apply String.eqb_neq; intros ->; apply Hc; now left).
    rewrite (Hn k (or_introl eq_refl)).
    assert (Hk : has k bound = false).
    { destruct (has k bound) eqn:E; [|reflexivity].
      apply has_In in E. apply NoDup_remove_2 in Hnd.
      exfalso. apply Hnd. apply in_or_app. now left. }
    rewrite Hk, IH.
    + rewrite <- app_assoc. reflexivity.
    + intros k' Hk'. apply Hn. now right.
    + intros Hin. apply Hc. now right.
    + unfold keys in *. rewrite map_app, <- app_assoc. exact Hnd.
Qed.

Lemma assign_update (ty : dtype) (g : gen_new value)
    (bound : list (string * value)) (ns : list string)
    (attrs : list (string * value)) :
  (forall n, In n ns -> has n bound = true) ->
  negb (new_frozen g) && frozen_attr ty = false ->
  assign ty g bound ns attrs = Ok (update attrs (pick bound ns)).
Proof.
  intros Hb Hf. revert attrs. induction ns as [|n ns IH]; simpl; intros attrs.
  - reflexivity.
  - pose proof (Hb n (or_introl eq_refl)) as Hn. unfold has in Hn.
    unfold local. destruct (get n bound) as [v|]; [|discriminate Hn].
    simpl. rewrite Hf. rewrite IH by (intros m Hm; apply Hb; now right).
    reflexivity.
Qed.

Lemma pick_keys (bound : list (string * value)) (ns : list string) :
  (forall n, In n ns -> has n bound = true) -> keys (pick bound ns) = ns.
Proof.
  induction ns as [|n ns IH]; simpl; intros Hb; [reflexivity|].
  pose proof (Hb n (or_introl eq_refl)) as Hn. unfold has in Hn.
  destruct (get n bound) as [v|]; [|discriminate Hn].
  simpl. f_equal. apply IH. intros m Hm. apply Hb. now right.
Qed.

Lemma pick_get (bound : list (string * value)) (ns : list string) (f : string) :
  In f ns -> get f (pick bound ns) = get f bound.
Proof.
  induction ns as [|n ns IH]; simpl; intros Hin; [contradiction|].
  destruct (String.eqb_spec f n) as [->|Hne].
  - destruct (get n bound) as [v|] eqn:E; simpl.
    + rewrite String.eqb_refl. reflexivity.
    + apply get_None_not_In. intros Hk. unfold pick, keys in Hk.
      apply in_map_iff in Hk. destruct Hk as ([k w] & Hkw & Hk). simpl in Hkw.
      subst k. apply in_flat_map in Hk. destruct Hk as (m & _ & Hm).
      destruct (get m bound) eqn:Em; [|contradiction].
      destruct Hm as [Hm|[]]. injection Hm as -> ->. congruence.
  - destruct Hin as [->|Hin]; [contradiction|].
    destruct (get n bound) as [v|]; simpl.
    + apply String.eqb_neq in Hne. rewrite Hne. apply IH. exact Hin.
    + apply IH. exact Hin.
Qed.

Lemma uniq_from_covered (s l : list string) :
  (forall k, In k l -> In k s) -> uniq_from s l = [].
Proof.
  induction l as [|k l IH]; simpl; intros H; [reflexivity|].
  rewrite (proj2 (mem_In k s) (H k (or_introl eq_refl))).
  apply IH. intros k' Hk'. apply H. now right.
Qed.

Lemma fields_get (ty : dtype) (attrs fs : list (string * value)) (f : string) :
  fields (VData ty attrs) true = Ok fs ->
  In f (keys (annots ty)) -> get f fs = get f attrs.
Proof.
  simpl. intros H. apply mapM_Ok_Forall2 in H.
  induction H as [|fa kv l r Hf _ IH]; simpl; intros Hin; [contradiction|].
  apply bind_Ok in Hf. destruct Hf as (v & Hv & Hf). injection Hf as <-.
  unfold getattr in Hv. destruct (get (fst fa) attrs) as [w|] eqn:E;
    [|discriminate Hv]. injection Hv as ->.
  destruct (String.eqb_spec f (fst fa)) as [->|Hne].
  - symmetry. exact E.
  - destruct Hin as [Hin|Hin]; [congruence | apply IH; exact Hin].
Qed.

Lemma named_generated (annotations : list (string * annotation))
    (defaults : namespace) (k fr : bool) (n : string) :
  In n (keys annotations) ->
  mem n (named (_generate_new annotations defaults k fr)) = true.
Proof.
  intros Hin. apply mem_In. rewrite named_generate_new.
  apply in_or_app. destruct (has n defaults) eqn:E.
  - right. apply filter_In. auto.
  - left. apply filter_In. rewrite E. auto.
Qed.

Lemma mapM_ext_in {A B : Type} (f g : A -> result B) (l : list A) :
  (forall a, In a l -> f a = g a) -> mapM f l = mapM g l.
Proof.
  induction l as [|a l IH]; simpl; intros H; [reflexivity|].
  rewrite (H a (or_introl eq_refl)), IH; [reflexivity|].
  intros b Hb. apply H. now right.
Qed.

Lemma replace_builds
    (hook : dtype -> value -> list value -> list (string * value) -> result value)
    (ty : dtype) (attrs fs changes : list (string * value))
    (defaults : namespace) (k fr : bool) :
  new ty = Some (_generate_new (annots ty) defaults k fr) ->
  (frozen_attr ty = true -> fr = true) ->
  user_init ty = false ->
  NoDup (keys (annots ty)) ->
  plain_names (keys (annots ty)) = true ->
  fields (VData ty attrs) true = Ok fs ->
  has "dataclass" changes = false ->
  (forall n, In n (keys changes) -> In n (keys (annots ty))) ->
  replace hook (VData ty attrs) changes
  = Ok (VData ty (update [] (pick (update fs changes) (keys (annots ty))))).
Proof.
  intros Hnew Hfr Hui Hnd Hpl Hfs Hdc Hsub.
  set (g := _generate_new (annots ty) defaults k fr) in *.
  set (kw := update fs changes).
  assert (Hkw : keys kw = keys (annots ty)).
  { unfold kw. rewrite keys_update, (fields_keys _ _ _ _ Hfs).
    simpl. rewrite uniq_from_covered by exact Hsub. apply app_nil_r. }
  assert (Hhas : forall n, In n (keys (annots ty)) -> has n kw = true).
  { intros n Hn. apply has_In. rewrite Hkw. exact Hn. }
  assert (Hstale : negb (new_frozen g) && frozen_attr ty = false).
  { unfold g. simpl. destruct (frozen_attr ty); [|apply andb_false_r].
    rewrite (Hfr eq_refl). reflexivity. }
  unfold replace. rewrite Hdc, Hfs. cbn [bind]. fold kw.
  unfold __call__. rewrite Hnew. fold g.
  unfold generated__new__, bind_arguments. cbn [List.length].
  replace (List.length (positional g) <? 0)%nat with false
    by (symmetry; apply Nat.ltb_ge; apply Nat.le_0_l).
  cbn [andb]. rewrite combine_nil. rewrite bind_keywords_all.
  - cbn [bind app].
    replace (forallb (fun a => has a kw) (arguments g)) with true.
    + cbn [bind]. change (assigned g) with (keys (annots ty)).
      rewrite (assign_update ty g kw _ [] Hhas Hstale).
      cbn [bind]. rewrite Hui. reflexivity.
    + symmetry. apply forallb_forall. intros a Ha. apply Hhas.
      unfold g in Ha. simpl in Ha. apply filter_In in Ha. tauto.
  - intros n Hn. apply named_generated. rewrite <- Hkw. exact Hn.
  - rewrite Hkw. apply plain_names_cls. exact Hpl.
  - simpl. rewrite Hkw. exact Hnd.
Qed.

(** ** Mutable defaults *)

Lemma deref_app (h s : store) (l : loc) (o : obj) :
  deref h l = Some o -> deref (h ++ s) l = Some o.
Proof.
  unfold deref. intros H. rewrite nth_error_app1; [exact H|].
  apply nth_error_Some. congruence.
Qed.

Lemma deref_lt (h : store) (l : loc) (o : obj) :
  deref h l = Some o -> (l < List.length h)%nat.
Proof. unfold deref. intros H. apply nth_error_Some. congruence. Qed.

Lemma deref_last (h : store) (o : obj) :
  deref (h ++ [o]) (List.length h) = Some o.
Proof.
  unfold deref. rewrite nth_error_app2 by lia.
  rewrite Nat.sub_diag. reflexivity.
Qed.

Lemma mutate_length (h : store) (l : loc) (o : obj) :
  List.length (mutate h l o) = List.length h.
Proof.
  revert l. induction h as [|x h IH]; intros [|l]; simpl; auto.
Qed.

Lemma deref_mutate_other (h : store) (l l' : loc) (o : obj) :
  l <> l' -> deref (mutate h l o) l' = deref h l'.
Proof.
  unfold deref. revert l l'.
  induction h as [|x h IH]; intros [|l] [|l'] Hne; simpl; auto.
  - contradiction.
Qed.

Lemma deref_mutate_same (h : store) (l : loc) (o : obj) :
  (l < List.length h)%nat -> deref (mutate h l o) l = Some o.
Proof.
  unfold deref. revert l.
  induction h as [|x h IH]; intros [|l] Hlt; simpl in *; try lia; auto.
  apply IH. lia.
Qed.

(** The store only grows during [reference]. *)
Lemma reference_grows (h h' : store) (g : gen_new value)
    (defaults : list (string * loc)) (n : string) (arg r : loc) :
  reference h g defaults n arg = Ok (h', r) -> exists s, h' = h ++ s.
Proof.
  unfold reference, copy. intros H.
  assert (Hid : Ok (h, arg) = Ok (h', r) -> exists s, h' = h ++ s).
  { intros E. apply Ok_inj in E. injection E as <- <-.
    exists []. symmetry. apply app_nil_r. }
  destruct (mem n (copied g)); [|auto].
  destruct (get n defaults) as [d|]; [|discriminate H].
  destruct (Nat.eqb arg d); [|auto].
  destruct (deref h arg); [|auto].
  apply Ok_inj in H. injection H as <- <-. eexists. reflexivity.
Qed.

(** A parameter left at a default that had a [copy] attribute gets a new
    object with the same elements. *)
Lemma reference_default (h : store) (g : gen_new value)
    (defaults : list (string * loc)) (n : string) (d : loc) (o : obj) :
  mem n (copied g) = true ->
  get n defaults = Some d ->
  deref h d = Some o ->
  reference h g defaults n d = Ok (h ++ [o], List.length h).
Proof.
  intros Hc Hd He. unfold reference, copy.
  rewrite Hc, Hd, He, Nat.eqb_refl. reflexivity.
Qed.

Lemma new_refs_grows (ty : dtype) (g : gen_new value)
    (defaults supplied : list (string * loc)) (ns : list string) :
  forall h attrs h' attrs',
    new_refs h ty g defaults supplied ns attrs = Ok (h', attrs') ->
    exists s, h' = h ++ s.
Proof.
  induction ns as [|m ns IH]; simpl; intros h attrs h' attrs' H.
  - apply Ok_inj in H. injection H as <- <-. exists []. symmetry.
    apply app_nil_r.
  - destruct (match get m supplied with
              | Some a => Some a
              | None => get m defaults
              end) as [arg|]; [|discriminate H].
    apply bind_Ok in H. destruct H as ([h1 r] & Er & H).
    destruct (negb (new_frozen g) && frozen_attr ty); [discriminate H|].
    destruct (reference_grows _ _ _ _ _ _ _ Er) as (s1 & ->).
    destruct (IH _ _ _ _ H) as (s2 & ->).
    exists (s1 ++ s2). symmetry. apply app_assoc.
Qed.

Lemma new_refs_other (ty : dtype) (g : gen_new value)
    (defaults supplied : list (string * loc)) (n : string) (ns : list string) :
  ~ In n ns ->
  forall h attrs h' attrs',
    new_refs h ty g defaults supplied ns attrs = Ok (h', attrs') ->
    get n attrs' = get n attrs.
Proof.
  induction ns as [|m ns IH]; simpl; intros Hn h attrs h' attrs' H.
  - apply Ok_inj in H. injection H as <- <-. reflexivity.
  - destruct (match get m supplied with
              | Some a => Some a
              | None => get m defaults
              end) as [arg|]; [|discriminate H].
    apply bind_Ok in H. destruct H as ([h1 r] & Er & H).
    destruct (negb (new_frozen g) && frozen_attr ty); [discriminate H|].
    rewrite (IH (fun Hi => Hn (or_intror Hi)) _ _ _ _ H).
    apply get_set_other. intros ->. apply Hn. now left.
Qed.

Lemma new_refs_field (ty : dtype) (g : gen_new value)
    (defaults supplied : list (string * loc)) (n : string)
    (d : loc) (o : obj) (ns : list string) :
  mem n (copied g) = true ->
  get n supplied = None ->
  get n defaults = Some d ->
  NoDup ns -> In n ns ->
  forall h attrs h' attrs',
    deref h d = Some o ->
    new_refs h ty g defaults supplied ns attrs = Ok (h', attrs') ->
    exists a, get n attrs' = Some a /\ (List.length h <= a)%nat
              /\ deref h' a = Some o.
Proof.
  intros Hc Hs Hd Hnd. induction Hnd as [|m ns Hnotin Hnd IH];
    simpl; intros Hin h attrs h' attrs' He H; [contradiction|].
  destruct (match get m supplied with
            | Some a => Some a
            | None => get m defaults
            end) as [arg|] eqn:Earg; [|discriminate H].
  apply bind_Ok in H. destruct H as ([h1 r] & Er & H).
  destruct (negb (new_frozen g) && frozen_attr ty); [discriminate H|].
  cbn [fst snd] in H.
  destruct (new_refs_grows _ _ _ _ _ _ _ _ _ H) as (s2 & E2).
  destruct Hin as [->|Hin].
  - rewrite Hs, Hd in Earg. injection Earg as <-.
    rewrite (reference_default _ _ _ _ _ _ Hc Hd He) in Er.
    apply Ok_inj in Er. injection Er as <- <-.
    exists (List.length h).
    rewrite (new_refs_other _ _ _ _ _ _ Hnotin _ _ _ _ H), get_set,
      String.eqb_refl.
    split; [reflexivity|]. split; [lia|].
    rewrite E2. apply deref_app. apply deref_last.
  - destruct (reference_grows _ _ _ _ _ _ _ Er) as (s1 & ->).
    destruct (IH Hin _ _ _ _ (deref_app h s1 d _ He) H) as (a & Ha & Hle & Hda).
    exists a. split; [exact Ha|]. split; [|exact Hda].
    rewrite length_app in Hle. lia.
Qed.

Lemma new_refs_total (ty : dtype) (g : gen_new value)
    (defaults supplied : list (string * loc)) (ns : list string) :
  (forall m, In m ns -> has m supplied || has m defaults = true) ->
  (forall m, In m ns -> mem m (copied g) = true -> has m defaults = true) ->
  negb (new_frozen g) && frozen_attr ty = false ->
  forall h attrs, exists h' attrs',
    new_refs h ty g defaults supplied ns attrs = Ok (h', attrs').
Proof.
  intros Hall Hcop Hst.
  induction ns as [|m ns IH]; simpl; intros h attrs; [eauto|].
  assert (Harg : exists arg, match get m supplied with
                             | Some a => Some a
                             | None => get m defaults
                             end = Some arg).
  { pose proof (Hall m (or_introl eq_refl)) as Hm. unfold has in Hm.
    destruct (get m supplied); [eauto|].
    destruct (get m defaults); [eauto | discriminate Hm]. }
  destruct Harg as (arg & ->).
  assert (Href : exists r, reference h g defaults m arg = Ok r).
  { unfold reference. destruct (mem m (copied g)) eqn:Ec; [|eauto].
    pose proof (Hcop m (or_introl eq_refl) Ec) as Hd. unfold has in Hd.
    destruct (get m defaults); [|discriminate Hd].
    destruct (Nat.eqb arg l); eauto. }
  destruct Href as (r & ->). cbn [bind]. rewrite Hst.
  apply IH; intros k0 Hk; [apply Hall | apply Hcop]; now right.
Qed.

Lemma copied_generated (annotations : list (string * annotation))
    (defaults : namespace) (k fr : bool) (n : string) :
  mem n (copied (_generate_new annotations defaults k fr)) = true
  <-> In n (keys annotations)
      /\ exists e, get n defaults = Some e /\ has_copy (entry_value e) = true.
Proof.
  rewrite mem_In. unfold _generate_new. cbn [copied]. rewrite filter_In.
  split; intros (Hin & H); (split; [exact Hin|]).
  - destruct (get n defaults) as [e|]; [eauto | discriminate H].
  - destruct H as (e & -> & He). exact He.
Qed.

(** C4, as the code has it, for a class with plain field names (none is a
    name of the generated text, none begins with two underscores): let the
    default of field [n] have a [copy] attribute and be the object [o] at
    [d] in the store.  Constructing an
    instance without an argument for [n] succeeds and gives the field a
    new object [a], a shallow copy of the default.  After any mutation of
    [a] the default is intact, and a second construction without an
    argument for [n] gives that instance another new object [b] with the
    elements of the default, not the mutated ones; mutating [b] in turn
    changes neither [a] nor the default.  What the default refers to is
    not copied. *)
Theorem mutable_default_isolation (ty : dtype)
    (annotations : list (string * annotation)) (defaults : namespace)
    (k fr : bool) (h : store) (dlocs sa sb : list (string * loc))
    (n : string) (e : entry) (d : loc) (o : obj) :
  let g := _generate_new annotations defaults k fr in
  get n defaults = Some e -> has_copy (entry_value e) = true ->
  In n (keys annotations) -> NoDup (keys annotations) ->
  plain_names (keys annotations) = true ->
  negb fr && frozen_attr ty = false ->
  get n dlocs = Some d -> deref h d = Some o ->
  (forall m, In m (keys annotations) -> has m defaults = true ->
             has m dlocs = true) ->
  (forall s, In s [sa; sb] ->
     get n s = None
     /\ (forall m, In m (keys annotations) -> has m defaults = false ->
                   has m s = true)
     /\ (forall m, In m (keys s) -> In m (keys annotations))) ->
  exists h1 x xa a,
    construct h ty g dlocs sa = Ok (h1, x)
    /\ deref h1 x = Some (OInst xa)
    /\ get n xa = Some a /\ a <> d /\ deref h1 a = Some o
    /\ forall o',
         deref (mutate h1 a o') d = Some o
         /\ exists h2 y xb b,
              construct (mutate h1 a o') ty g dlocs sb = Ok (h2, y)
              /\ deref h2 y = Some (OInst xb)
              /\ get n xb = Some b /\ b <> a /\ b <> d
              /\ deref h2 b = Some o
              /\ deref h2 a = Some o'
              /\ forall o'', deref (mutate h2 b o'') a = Some o'
                             /\ deref (mutate h2 b o'') d = Some o.
Proof.
  intros g Hd Hcopy Hin Hnd Hpl Hstale Hdl Ho Hdef Hsup.
  assert (Hc : mem n (copied g) = true).
  { apply copied_generated. split; [exact Hin | eauto]. }
  assert (Hcop : forall m, In m (assigned g) -> mem m (copied g) = true ->
                           has m dlocs = true).
  { intros m Hm Hmc. apply copied_generated in Hmc.
    destruct Hmc as (Hma & e' & He' & _). apply Hdef; [exact Hma|].
    unfold has. rewrite He'. reflexivity. }
  assert (Hrun : forall s h0, In s [sa; sb] -> deref h0 d = Some o ->
            exists h' attrs a,
              construct h0 ty g dlocs s = Ok (h' ++ [OInst attrs], List.length h')
              /\ (exists t, h' = h0 ++ t)
              /\ get n attrs = Some a /\ (List.length h0 <= a)%nat
              /\ deref h' a = Some o).
  { intros s h0 Hs Hh0. destruct (Hsup s Hs) as (Hs0 & Hreq & Hkeys).
    destruct (new_refs_total ty g dlocs s (assigned g)) with (h := h0)
      (attrs := @nil (string * loc)) as (h' & attrs & E).
    - intros m Hm. destruct (has m defaults) eqn:Em.
      + rewrite (Hdef m Hm Em). apply orb_true_r.
      + rewrite (Hreq m Hm Em). reflexivity.
    - exact Hcop.
    - exact Hstale.
    - destruct (new_refs_field ty g dlocs s n d o (assigned g) Hc Hs0 Hdl
                  Hnd Hin _ _ _ _ Hh0 E) as (a & Ha & Hle & Hda).
      exists h', attrs, a. split; [|split; [|auto]].
      + unfold construct.
        replace (forallb (fun k0 => negb (String.eqb k0 "cls")
                                    && (mem k0 (named g) || star_kwargs g))
                         (keys s))
          with true.
        * rewrite E. reflexivity.
        * symmetry. apply forallb_forall. intros k0 Hk0.
          unfold g. rewrite (named_generated _ _ _ _ _ (Hkeys k0 Hk0)).
          replace (String.eqb k0 "cls") with false; [reflexivity|].
          symmetry. apply String.eqb_neq. intros ->.
          exact (plain_names_cls _ Hpl (Hkeys _ Hk0)).
      + eapply new_refs_grows. exact E. }
  destruct (Hrun sa h (or_introl eq_refl) Ho)
    as (h1 & xa & a & Ea & (t1 & ->) & Hga & Hle & Hda).
  pose proof (deref_lt _ _ _ Ho) as Hdlt.
  pose proof (deref_lt _ _ _ Hda) as Halt.
  assert (Hne : a <> d) by lia.
  set (s1 := (h ++ t1) ++ [OInst xa]).
  assert (Hda1 : deref s1 a = Some o) by (apply deref_app; exact Hda).
  assert (Hd1 : deref s1 d = Some o)
    by (unfold s1; rewrite <- app_assoc; apply deref_app; exact Ho).
  exists s1, (List.length (h ++ t1)), xa, a.
  split; [exact Ea|]. split; [apply deref_last|].
  split; [exact Hga|]. split; [exact Hne|]. split; [exact Hda1|].
  intros o'.
  assert (Hd1' : deref (mutate s1 a o') d = Some o)
    by (rewrite deref_mutate_other by exact Hne; exact Hd1).
  split; [exact Hd1'|].
  destruct (Hrun sb (mutate s1 a o') (or_intror (or_introl eq_refl)) Hd1')
    as (h2 & xb & b & Eb & (t2 & ->) & Hgb & Hleb & Hdb).
  assert (Hlen : List.length (mutate s1 a o') = List.length s1)
    by apply mutate_length.
  assert (Hs1 : (a < List.length s1)%nat) by (apply (deref_lt _ _ _ Hda1)).
  set (s2 := (mutate s1 a o' ++ t2) ++ [OInst xb]).
  assert (Hoa : deref s2 a = Some o').
  { unfold s2. rewrite <- app_assoc. apply deref_app.
    apply deref_mutate_same. exact Hs1. }
  assert (Hdb2 : deref s2 b = Some o) by (apply deref_app; exact Hdb).
  assert (Hd2 : deref s2 d = Some o)
    by (unfold s2; rewrite <- app_assoc; apply deref_app; exact Hd1').
  exists s2, (List.length (mutate s1 a o' ++ t2)), xb, b.
  split; [exact Eb|]. split; [apply deref_last|].
  split; [exact Hgb|]. split; [lia|]. split; [lia|].
  split; [exact Hdb2|]. split; [exact Hoa|].
  intros o''. split.
  - rewrite deref_mutate_other by lia. exact Hoa.
  - rewrite deref_mutate_other by lia. exact Hd2.
Qed.

Lemma mutable_default_isolation_witness :
  exists h1 x xa a,
    construct [OList []] MutableDefault
      (_generate_new [("mutable", AType "List[int]")] MutableDefault_defaults
         false false)
      [("mutable", 0%nat)] [] = Ok (h1, x)
    /\ deref h1 x = Some (OInst xa)
    /\ get "mutable" xa = Some a /\ a <> 0%nat /\ deref h1 a = Some (OList [])
    /\ forall o',
         deref (mutate h1 a o') 0%nat = Some (OList [])
         /\ exists h2 y xb b,
              construct (mutate h1 a o') MutableDefault
                (_generate_new [("mutable", AType "List[int]")]
                   MutableDefault_defaults false false)
                [("mutable", 0%nat)] [] = Ok (h2, y)
              /\ deref h2 y = Some (OInst xb)
              /\ get "mutable" xb = Some b /\ b <> a /\ b <> 0%nat
              /\ deref h2 b = Some (OList [])
              /\ deref h2 a = Some o'
              /\ forall o'', deref (mutate h2 b o'') a = Some o'
                             /\ deref (mutate h2 b o'') 0%nat = Some (OList []).
Proof.
  refine (mutable_default_isolation MutableDefault
            [("mutable", AType "List[int]")] MutableDefault_defaults false false
            [OList []] [("mutable", 0%nat)] [] [] "mutable" (EVal (VList []))
            0%nat (OList []) eq_refl eq_refl _ _ eq_refl eq_refl eq_refl eq_refl
            _ _).
  - simpl. tauto.
  - repeat constructor. simpl. tauto.
  - intros m [<-|[]] _. reflexivity.
  - intros s [<-|[<-|[]]]; (split; [reflexivity|]); split.
    + intros m [<-|[]] Hm. discriminate Hm.
    + intros m [].
    + intros m [<-|[]] Hm. discriminate Hm.
    + intros m [].
Defined.

(** C4 as stated fails for a default that holds another mutable object:
    with the default [[[]]] (the inner list at 0, the default at 1, the
    int 2 at 2) two instances are constructed without argument and
    [x.mutable[0].append(2)] is run on the first: the second instance's
    field, [[[]]] before, is [[[2]]] after.  The copy is shallow. *)
Lemma nested_default_shared :
  let h0 := [OList []; OList [0%nat]; OInt 2] in
  let g := _generate_new [("mutable", AType "List[List[int]]")]
             Nested_defaults false false in
  let defaults := [("mutable", 1%nat)] in
  (r <- construct h0 Nested g defaults [] ;;
   let (h1, x) := r in
   r <- construct h1 Nested g defaults [] ;;
   let (h2, y) := r in
   a <- getattr_loc h2 x "mutable" ;;
   b <- getattr_loc h2 y "mutable" ;;
   match deref h2 a with
   | Some (OList (inner :: _)) =>
       Ok (negb (Nat.eqb a b),
           observe 3 h2 b, observe 3 (append h2 inner 2%nat) b)
   | _ => Raise AttributeError
   end)
  = Ok (true, SList [SList []], SList [SList [SInt 2]]).
Proof. vm_compute. reflexivity. Qed.

(** [test_mutable_defaults]: the store holds the default [[]] at 0 and the
    ints 2, 3 and 4 at 1, 2 and 3.  [a = MutableDefault()],
    [a.mutable.append(2)], [b = MutableDefault()], [b.mutable.append(3)],
    [c = MutableDefault(4)]: [a.mutable == [2]], [b.mutable == [3]],
    [c.mutable == 4] and the default is still empty. *)
Example mutable_defaults_test :
  let h0 := [OList []; OInt 2; OInt 3; OInt 4] in
  let g := _generate_new [("mutable", AType "List[int]")]
             MutableDefault_defaults false false in
  let defaults := [("mutable", 0%nat)] in
  (r <- construct h0 MutableDefault g defaults [] ;;
   let (h1, x) := r in
   a <- getattr_loc h1 x "mutable" ;;
   let h1 := append h1 a 1%nat in
   r <- construct h1 MutableDefault g defaults [] ;;
   let (h2, y) := r in
   b <- getattr_loc h2 y "mutable" ;;
   let h2 := append h2 b 2%nat in
   r <- construct h2 MutableDefault g defaults [("mutable", 3%nat)] ;;
   let (h3, z) := r in
   c <- getattr_loc h3 z "mutable" ;;
   Ok (observe 2 h3 a, observe 2 h3 b, observe 2 h3 c, observe 2 h3 0%nat))
  = Ok (SList [SInt 2], SList [SInt 3], SInt 4, SList []).
Proof. vm_compute. reflexivity. Qed.

(** ** [replace] *)

Lemma construct_frame (h h' : store) (ty : dtype) (g : gen_new value)
    (defaults supplied : list (string * loc)) (x : loc) :
  construct h ty g defaults supplied = Ok (h', x) ->
  (List.length h <= x)%nat
  /\ forall l o, deref h l = Some o -> deref h' l = Some o.
Proof.
  unfold construct. destruct (forallb _ _); [|discriminate].
  intros H. apply bind_Ok in H. destruct H as ([h1 attrs] & E & H).
  apply Ok_inj in H. cbn [fst snd] in H. injection H as <- <-.
  destruct (new_refs_grows _ _ _ _ _ _ _ _ _ E) as (t & ->).
  split; [rewrite length_app; lia|].
  intros l o Hl. rewrite <- app_assoc. apply deref_app. exact Hl.
Qed.

Lemma replace_refs_frame (h h' : store) (ty : dtype) (g : gen_new value)
    (defaults : list (string * loc)) (x x' : loc)
    (changes : list (string * loc)) :
  replace_refs h ty g defaults x changes = Ok (h', x') ->
  x' <> x /\ forall l o, deref h l = Some o -> deref h' l = Some o.
Proof.
  unfold replace_refs. destruct (has "dataclass" changes); [discriminate|].
  intros H. apply bind_Ok in H. destruct H as (fs & Hfs & H).
  apply construct_frame in H. destruct H as (Hle & Hframe).
  split; [|exact Hframe].
  unfold fields_refs in Hfs. destruct (deref h x) as [o|] eqn:Ex;
    [|discriminate Hfs].
  apply deref_lt in Ex. lia.
Qed.

(** C6, as the code has it: for an instance [x] that holds all its
    fields, of a class that carries the [__new__] generated for its
    annotations (generated as frozen if the class rejects assignment),
    defines no [__init__] of its own and has plain field names (none is a
    name of the generated text, none begins with two underscores), and for
    overrides that name fields, none of them [dataclass]: [replace(x, **changes)] returns an instance of the
    same class, with exactly the declared fields, each holding the
    override when there is one and the value it has in [x] (internal
    fields included) otherwise.  Over the store, [replace] returns a new
    object and leaves every object there was, [x] and what its fields
    refer to, as it is. *)
Theorem replace_spec
    (hook : dtype -> value -> list value -> list (string * value) -> result value)
    (ty : dtype) (attrs fs changes : list (string * value))
    (defaults : namespace) (k fr : bool) :
  new ty = Some (_generate_new (annots ty) defaults k fr) ->
  (frozen_attr ty = true -> fr = true) ->
  user_init ty = false ->
  NoDup (keys (annots ty)) ->
  plain_names (keys (annots ty)) = true ->
  fields (VData ty attrs) true = Ok fs ->
  NoDup (keys changes) ->
  has "dataclass" changes = false ->
  (forall n, In n (keys changes) -> In n (keys (annots ty))) ->
  (exists attrs',
     replace hook (VData ty attrs) changes = Ok (VData ty attrs')
     /\ keys attrs' = keys (annots ty)
     /\ (forall f, In f (keys (annots ty)) ->
           get f attrs' = match get f changes with
                          | Some v => Some v
                          | None => get f attrs
                          end))
  /\ (forall h dlocs x rchanges h' x',
        replace_refs h ty (_generate_new (annots ty) defaults k fr)
                     dlocs x rchanges = Ok (h', x') ->
        x' <> x /\ forall l o, deref h l = Some o -> deref h' l = Some o).
Proof.
  intros Hnew Hfr Hui Hnd Hpl Hfs Hndc Hdc Hsub. split.
  - set (kw := update fs changes).
    assert (Hkw : keys kw = keys (annots ty)).
    { unfold kw. rewrite keys_update, (fields_keys _ _ _ _ Hfs).
      simpl. rewrite uniq_from_covered by exact Hsub. apply app_nil_r. }
    assert (Hhas : forall n, In n (keys (annots ty)) -> has n kw = true).
    { intros n Hn. apply has_In. rewrite Hkw. exact Hn. }
    exists (update [] (pick kw (keys (annots ty)))). split; [|split].
    + apply (replace_builds hook ty attrs fs changes defaults k fr);
        assumption.
    + rewrite keys_update, (pick_keys _ _ Hhas). simpl.
      rewrite (uniq_from_NoDup _ _ Hnd). apply filter_mem_nil.
    + intros f Hf. rewrite get_update.
      * rewrite (pick_get kw _ f Hf). unfold kw.
        rewrite (get_update _ _ _ Hndc), (fields_get _ _ _ _ Hfs Hf).
        destruct (get f changes) as [v|]; [reflexivity|].
        destruct (get f attrs); reflexivity.
      * rewrite (pick_keys _ _ Hhas). exact Hnd.
  - intros h dlocs x rchanges h' x' H.
    eapply replace_refs_frame. exact H.
Qed.

Lemma replace_spec_witness :
  (exists attrs',
     replace (fun _ x _ _ => Ok x) (VData Beta_generated beta_attrs)
             [("f", VInt 4)]
     = Ok (VData Beta_generated attrs')
     /\ keys attrs' = keys (annots Beta_generated)
     /\ (forall f, In f (keys (annots Beta_generated)) ->
           get f attrs' = match get f [("f", VInt 4)] with
                          | Some v => Some v
                          | None => get f beta_attrs
                          end))
  /\ (forall h dlocs x rchanges h' x',
        replace_refs h Beta_generated
          (_generate_new (annots Beta_generated) Beta_defaults false false)
          dlocs x rchanges = Ok (h', x') ->
        x' <> x /\ forall l o, deref h l = Some o -> deref h' l = Some o).
Proof.
  refine (replace_spec (fun _ x _ _ => Ok x) Beta_generated beta_attrs
            beta_attrs [("f", VInt 4)] Beta_defaults false false
            eq_refl _ eq_refl _ eq_refl eq_refl _ eq_refl _).
  - discriminate.
  - repeat constructor; simpl; intuition discriminate.
  - repeat constructor; simpl; intuition discriminate.
  - simpl. intuition.
Defined.

(** C6 as stated fails for a class with an [__init__] that needs an
    argument: [CustomInit(1, 2, 3)] is an instance, and [replace] on it,
    which reads the fields and no other attribute, calls the class with
    the fields only, so that the call of [__init__(self, c)] raises
    [TypeError]. *)
Lemma replace_custom_init_fails :
  __call__ init_taking_c CustomInit [VInt 1; VInt 2; VInt 3] []
  = Ok (VData CustomInit [("a", VInt 1); ("b", VInt 2)])
  /\ replace init_taking_c (VData CustomInit [("a", VInt 1); ("b", VInt 2)]) []
     = Raise TypeError.
Proof. split; vm_compute; reflexivity. Qed.

(** [test_replace]: [replace(b, f=4) == Beta(1, 2, 4)], and [b] is what
    [Beta(1, 2, 3)] builds. *)
Example replace_test (hook : dtype -> value -> list value ->
                             list (string * value) -> result value) :
  replace hook (VData Beta_generated beta_attrs) [("f", VInt 4)]
  = __call__ hook Beta_generated [VInt 1; VInt 2; VInt 4] []
  /\ __call__ hook Beta_generated [VInt 1; VInt 2; VInt 3] []
     = Ok (VData Beta_generated beta_attrs).
Proof. split; vm_compute; reflexivity. Qed.

(** ** The classes of the test suite, through the metaclass *)

(** [@dataclass(slots=True) class Alpha] and [class Beta(Alpha)]: the
    class statement of [Beta] runs the metaclass, which stores the merged
    annotations and options and generates the constructor whose signature
    [test_init] expects. *)
Example beta_through_metaclass :
  (alpha <- dataclass 41
              (plain_class 40 "Alpha"
                 [("__annotations__",
                   EAnnotations [("a", int); ("b", int); ("c", int)]);
                  ("b", EVal (VInt 2))])
              [] [("slots", true)] ;;
   beta <- subclass 42 "Beta" [vars alpha] Beta_body ;;
   Ok (keys (annots (type_of beta)),
       option_of (opts (type_of beta)) "slots",
       option_map parameters (new (type_of beta))))
  = Ok (["a"; "b"; "c"; "d"; "e"; "f"], true,
        Some ["a"; "c"; "f"; "b=b"; "d=d"; "e=e"]).
Proof. vm_compute. reflexivity. Qed.

(** * Further properties of the module *)

(** ** The shape of [as_tuple] *)

(** X1: when [as_tuple] returns, its argument is an instance and the
    result is a tuple with one element for every annotated field, made of
    lists and tuples around the values the conversion does not enter
    (numbers, strings and objects of any other type, returned as they are
    whatever they hold): every instance, named tuple and dict reached
    through fields, list and tuple elements, named tuple fields and dict
    items has been converted. *)
Theorem as_tuple_shape (x t : value) :
  as_tuple x = Ok t ->
  exists ty attrs vs,
    x = VData ty attrs /\ t = VTuple vs
    /\ List.length vs = List.length (annots ty)
    /\ flat t = true.
Proof.
  intros H. pose proof (as_tuple_flat _ _ H) as Hflat.
  destruct x; try discriminate H.
  destruct (as_tuple_instance _ _ _ H) as (vs & -> & HF).
  exists ty, attrs, vs. repeat split; auto.
  symmetry. eapply Forall2_length. exact HF.
Qed.

Lemma as_tuple_shape_witness :
  exists ty attrs vs,
    epsilon = VData ty attrs
    /\ VTuple [VTuple [VInt 1; VInt 2; VInt 3]; VList [VTuple [VInt 4; VInt 5]]]
       = VTuple vs
    /\ List.length vs = List.length (annots ty)
    /\ flat (VTuple [VTuple [VInt 1; VInt 2; VInt 3];
                     VList [VTuple [VInt 4; VInt 5]]]) = true.
Proof. exact (as_tuple_shape epsilon _ eq_refl). Defined.

Lemma mapM_fixed {A : Type} (f : A -> result A) (l : list A) :
  Forall (fun a => f a = Ok a) l -> mapM f l = Ok l.
Proof.
  induction 1 as [|a l Ha _ IH]; simpl; [reflexivity|].
  rewrite Ha. simpl. rewrite IH. reflexivity.
Qed.

Lemma recurse_flat_fixed (v : value) :
  flat v = true -> _recurse_structure tuple_proc v = Ok v.
Proof.
  induction v using value_nested_ind; intros Hf; try discriminate Hf;
    try reflexivity.
  - rewrite recurse_list, mapM_fixed; [reflexivity|].
    simpl in Hf. rewrite forallb_forall in Hf. rewrite Forall_forall in *.
    intros e He. apply H; auto.
  - rewrite recurse_tuple, mapM_fixed; [reflexivity|].
    simpl in Hf. rewrite forallb_forall in Hf. rewrite Forall_forall in *.
    intros e He. apply H; auto.
Qed.

(** X2: the tuple conversion is idempotent: converting what it returned
    once more returns the same value. *)
Theorem recurse_tuple_idempotent (v r : value) :
  _recurse_structure tuple_proc v = Ok r ->
  _recurse_structure tuple_proc r = Ok r.
Proof.
  intros H. apply recurse_flat_fixed. eapply recurse_tuple_flat. exact H.
Qed.

Lemma recurse_tuple_idempotent_witness :
  _recurse_structure tuple_proc
    (VTuple [VTuple [VInt 1; VInt 2; VInt 3]; VList [VTuple [VInt 4; VInt 5]]])
  = Ok (VTuple [VTuple [VInt 1; VInt 2; VInt 3]; VList [VTuple [VInt 4; VInt 5]]]).
Proof. exact (recurse_tuple_idempotent epsilon _ eq_refl). Defined.

(** ** The generated equality is an equivalence *)

Lemma same_type_sym (a b : value) : same_type a b = same_type b a.
Proof.
  destruct a, b; simpl; try reflexivity.
  - apply String.eqb_sym.
  - unfold type_is. apply Nat.eqb_sym.
Qed.

Lemma same_type_trans (a b c : value) :
  same_type a b = true -> same_type b c = true -> same_type a c = true.
Proof.
  destruct a, b; simpl; try discriminate; destruct c; simpl;
    try discriminate; try reflexivity.
  - rewrite !String.eqb_eq. congruence.
  - unfold type_is. rewrite !Nat.eqb_eq. congruence.
Qed.

Lemma __eq___true (x y : value) :
  __eq__ x y = Ok true <->
  same_type x y = true /\ exists t, as_tuple x = Ok t /\ as_tuple y = Ok t.
Proof.
  unfold __eq__. split.
  - destruct (same_type x y); [|discriminate]. intros H.
    apply bind_Ok in H. destruct H as (a & Ha & H).
    apply bind_Ok in H. destruct H as (b & Hb & H).
    injection H as E. split; [reflexivity|].
    apply (tuple_eq_spec a (as_tuple_flat _ _ Ha) b (as_tuple_flat _ _ Hb)) in E.
    subst b. eauto.
  - intros (Hs & t & Hx & Hy). rewrite Hs, Hx, Hy. simpl. f_equal.
    pose proof (as_tuple_flat _ _ Hx) as Hf.
    apply (tuple_eq_spec t Hf t Hf). reflexivity.
Qed.

Lemma tuple_eq_sym (a b : value) :
  flat a = true -> flat b = true -> tuple_eq a b = tuple_eq b a.
Proof.
  intros Ha Hb. destruct (tuple_eq a b) eqn:E1, (tuple_eq b a) eqn:E2;
    try reflexivity.
  - apply (tuple_eq_spec a Ha b Hb) in E1. subst b.
    rewrite (proj2 (tuple_eq_spec a Ha a Ha) eq_refl) in E2. discriminate E2.
  - apply (tuple_eq_spec b Hb a Ha) in E2. subst b.
    rewrite (proj2 (tuple_eq_spec a Ha a Ha) eq_refl) in E1. discriminate E1.
Qed.

(** X3: on values for which it returns, the generated [__eq__] is an
    equivalence: an instance that [as_tuple] converts equals itself, the
    answer does not depend on the side an operand is on, and equality is
    transitive. *)
Theorem eq_equivalence (x y z : value) :
  (forall t, as_tuple x = Ok t -> __eq__ x x = Ok true)
  /\ (forall b, __eq__ x y = Ok b -> __eq__ y x = Ok b)
  /\ (__eq__ x y = Ok true -> __eq__ y z = Ok true -> __eq__ x z = Ok true).
Proof.
  split; [|split].
  - intros t Ht. apply __eq___true. split; [|eauto].
    destruct x; try discriminate Ht. simpl. apply Nat.eqb_refl.
  - intros b. unfold __eq__. rewrite (same_type_sym y x).
    destruct (same_type x y); [|auto]. intros H.
    apply bind_Ok in H. destruct H as (a & Ha & H).
    apply bind_Ok in H. destruct H as (c & Hc & H).
    rewrite Hc, Ha. simpl. rewrite <- H. f_equal.
    apply tuple_eq_sym; eapply as_tuple_flat; eassumption.
  - intros Hxy Hyz. apply __eq___true in Hxy, Hyz.
    destruct Hxy as (Sxy & t & Hx & Hy), Hyz as (Syz & u & Hy' & Hz).
    apply __eq___true. split; [eapply same_type_trans; eassumption|].
    exists t. split; [exact Hx | congruence].
Qed.

Lemma eq_equivalence_witness :
  __eq__ beta beta = Ok true
  /\ __eq__ (VList [VInt 0]) beta = Ok false.
Proof.
  split.
  - exact (proj1 (eq_equivalence beta beta beta) _ eq_refl).
  - exact (proj1 (proj2 (eq_equivalence beta (VList [VInt 0]) beta)) false
             eq_refl).
Defined.

(** ** What [fields] returns *)

Lemma fields_mapM_pick (attrs : list (string * value))
    (l : list (string * annotation)) :
  mapM (fun fa => v <- getattr attrs (fst fa) ;; Ok (fst fa, v)) l
  = if forallb (fun f => has f attrs) (keys l)
    then Ok (pick attrs (keys l))
    else Raise AttributeError.
Proof.
  induction l as [|[f a] l IH]; [reflexivity|].
  cbn [mapM fst]. rewrite IH. unfold keys. cbn [map fst forallb].
  fold (keys l). unfold pick. cbn [flat_map]. fold (pick attrs (keys l)).
  assert (Hhas : has f attrs = match get f attrs with
                               | Some _ => true
                               | None => false
                               end) by reflexivity.
  rewrite Hhas. unfold getattr.
  destruct (get f attrs) as [v|]; [|reflexivity].
  cbn [bind andb].
  destruct (forallb (fun f => has f attrs) (keys l)); reflexivity.
Qed.

(** X4: [fields] asserts that its argument is an instance; on an instance
    that holds an attribute for every selected annotation it returns these
    attributes, and no other, in annotation order. *)
Theorem fields_result (x : value) (internals : bool) :
  match x with
  | VData ty attrs =>
      let shown := keys (_filter_annotations (annots ty) internals) in
      forallb (fun f => has f attrs) shown = true ->
      fields x internals = Ok (pick attrs shown)
  | _ => fields x internals = Raise AssertionError
  end.
Proof.
  destruct x; try reflexivity.
  unfold fields. rewrite fields_mapM_pick.
  intros ->. reflexivity.
Qed.

Lemma fields_result_witness :
  fields (VData Epsilon_i epsilon_i) false
  = Ok (pick epsilon_i (keys (_filter_annotations (annots Epsilon_i) false))).
Proof.
  exact (fields_result (VData Epsilon_i epsilon_i) false eq_refl).
Defined.

(** X5: a field whose name does not begin with an underscore and whose
    annotation is not internal is kept by [fields(x, internals=False)],
    with the value the instance holds for it. *)
Theorem visible_field_shown (ty : dtype) (attrs fs : list (string * value))
    (f : string) (a : annotation) :
  In (f, a) (annots ty) ->
  startswith f "_" = false ->
  Internal.is_internal a = false ->
  fields (VData ty attrs) false = Ok fs ->
  exists v, get f fs = Some v /\ get f attrs = Some v.
Proof.
  intros Hin Hu Hi Hfs. unfold fields in Hfs. rewrite fields_mapM_pick in Hfs.
  destruct (forallb _ _) eqn:Hall; [|discriminate Hfs].
  apply Ok_inj in Hfs. subst fs.
  assert (Hshown : In f (keys (_filter_annotations (annots ty) false))).
  { unfold keys, _filter_annotations. apply in_map_iff. exists (f, a).
    split; [reflexivity|]. apply filter_In. split; [exact Hin|].
    cbn [fst snd]. rewrite Hu, Hi. reflexivity. }
  rewrite (pick_get attrs _ f Hshown).
  rewrite forallb_forall in Hall. specialize (Hall f Hshown).
  unfold has in Hall. destruct (get f attrs) as [v|]; [eauto | discriminate].
Qed.

Lemma visible_field_shown_witness :
  exists v,
    get "g" [("g", NT 1 2 3);
             ("h", VList [VData Epsilon_i
                            [("g", VInt 4); ("h", VInt 5); ("_i", VInt 6)]])]
    = Some v
    /\ get "g" epsilon_i = Some v.
Proof.
  refine (visible_field_shown Epsilon_i epsilon_i _ "g" (AType "Tuple[NT]")
            _ eq_refl eq_refl eq_refl).
  simpl. tauto.
Defined.

(** ** The internal-field marker on string annotations *)

Lemma prefixb_spec (p s : string) :
  prefixb p s = true <-> exists q, s = (p ++ q)%string.
Proof.
  revert s. induction p as [|a p IH]; intros s; simpl.
  - split; [intros _; exists s; reflexivity | reflexivity].
  - destruct s as [|b s].
    + split; [discriminate | intros (q & E); discriminate E].
    + rewrite andb_true_iff, Ascii.eqb_eq, IH. split.
      * intros (-> & q & ->). exists q. reflexivity.
      * intros (q & E). injection E as -> ->. eauto.
Qed.

Lemma substringb_unfold (p s : string) :
  substringb p s
  = prefixb p s || match s with
                   | EmptyString => false
                   | String _ s' => substringb p s'
                   end.
Proof. destruct s; reflexivity. Qed.

Lemma substringb_spec (p s : string) :
  substringb p s = true <-> exists a q, s = (a ++ p ++ q)%string.
Proof.
  split.
  - induction s as [|c s IH]; rewrite substringb_unfold, orb_true_iff.
    + intros [H|H]; [|discriminate H].
      apply prefixb_spec in H. destruct H as (q & E). exists EmptyString, q.
      exact E.
    + intros [H|H].
      * apply prefixb_spec in H. destruct H as (q & E).
        exists EmptyString, q. exact E.
      * destruct (IH H) as (a & q & ->). exists (String c a), q. reflexivity.
  - intros (a & q & ->). induction a as [|c a IH].
    + rewrite substringb_unfold. simpl.
      rewrite (proj2 (prefixb_spec p (p ++ q)%string)) by eauto. reflexivity.
    + rewrite substringb_unfold. simpl. rewrite IH. apply orb_true_r.
Qed.

(** X6: a string annotation (a forward reference) marks its field internal
    exactly when the text contains [Internal] somewhere, whatever stands
    around it. *)
Theorem is_internal_string (s : string) :
  Internal.is_internal (AStr s) = true
  <-> exists p q, s = (p ++ "Internal" ++ q)%string.
Proof. unfold Internal.is_internal. apply substringb_spec. Qed.

(** ** What the generated constructor builds *)

Lemma assign_locals (ty : dtype) (g : gen_new value)
    (bound : list (string * value)) (ns : list string)
    (attrs attrs' : list (string * value)) :
  assign ty g bound ns attrs = Ok attrs' ->
  attrs' = update attrs (locals g bound ns) /\ keys (locals g bound ns) = ns.
Proof.
  revert attrs. induction ns as [|n ns IH]; simpl; intros attrs H.
  - apply Ok_inj in H. subst attrs'. split; reflexivity.
  - destruct (local g bound n) as [v|e]; [|discriminate H]. simpl in H.
    destruct (negb (new_frozen g) && frozen_attr ty); [discriminate H|].
    destruct (IH _ H) as (-> & Hk). split; [reflexivity|].
    simpl. f_equal. exact Hk.
Qed.

Lemma pick_not_in (k : string) (v : value) (d : list (string * value))
    (l : list string) :
  ~ In k l -> pick ((k, v) :: d) l = pick d l.
Proof.
  induction l as [|n l IH]; simpl; intros Hn; [reflexivity|].
  destruct (String.eqb_spec n k) as [->|Hne].
  - exfalso. apply Hn. now left.
  - rewrite IH by tauto. reflexivity.
Qed.

Lemma pick_self (d : list (string * value)) :
  NoDup (keys d) -> pick d (keys d) = d.
Proof.
  induction d as [|[k v] d IH]; simpl; intros Hnd; [reflexivity|].
  inversion Hnd as [|? ? Hnotin Hnd']; subst.
  rewrite String.eqb_refl. simpl. f_equal.
  fold (pick ((k, v) :: d) (keys d)).
  rewrite pick_not_in by exact Hnotin. apply IH. exact Hnd'.
Qed.

Lemma keys_update_nil (items : list (string * value)) :
  NoDup (keys items) -> keys (update [] items) = keys items.
Proof.
  intros H. rewrite keys_update. simpl.
  rewrite (uniq_from_NoDup _ _ H). apply filter_mem_nil.
Qed.

(** X7: an instance returned by the constructor of a class without an
    [__init__] of its own and with plain field names (none is a name of
    the generated text, none begins with two underscores) has exactly the
    declared fields as attributes, in declaration order;
    [fields(x, internals=True)] returns them all, and the representation
    is defined where [repr] of the field values is. *)
Theorem constructed_has_all_fields
    (hook : dtype -> value -> list value -> list (string * value) -> result value)
    (repr : value -> string) (ty : dtype) (g : gen_new value)
    (args : list value) (kwargs : list (string * value)) (x : value) :
  new ty = Some g ->
  assigned g = keys (annots ty) ->
  NoDup (keys (annots ty)) ->
  plain_names (keys (annots ty)) = true ->
  user_init ty = false ->
  __call__ hook ty args kwargs = Ok x ->
  exists attrs,
    x = VData ty attrs
    /\ keys attrs = keys (annots ty)
    /\ fields x true = Ok attrs
    /\ exists s, __repr__ repr x = Ok s.
Proof.
  intros Hnew Has Hnd _ Hui H. unfold __call__ in H. rewrite Hnew, Hui in H.
  apply bind_Ok in H. destruct H as (inst & Hi & H). apply Ok_inj in H.
  subst inst. unfold generated__new__ in Hi.
  apply bind_Ok in Hi. destruct Hi as (bound & _ & Hi).
  apply bind_Ok in Hi. destruct Hi as (attrs & Ha & Hi).
  apply Ok_inj in Hi. subst x. rewrite Has in Ha.
  apply assign_locals in Ha. destruct Ha as (Hattrs & Hk).
  assert (Hkeys : keys attrs = keys (annots ty)).
  { rewrite Hattrs, keys_update_nil; rewrite Hk; [reflexivity | exact Hnd]. }
  assert (Hall : forall i,
             forallb (fun f => has f attrs)
                     (keys (_filter_annotations (annots ty) i)) = true).
  { intros i. apply forallb_forall. intros f Hf. apply has_In. rewrite Hkeys.
    destruct i; [exact Hf|]. apply filter_annotations_In in Hf.
    destruct Hf as (_ & a & Hin & _). unfold keys. apply in_map_iff.
    exists (f, a). auto. }
  exists attrs. split; [reflexivity|]. split; [exact Hkeys|]. split.
  - unfold fields. rewrite fields_mapM_pick, Hall.
    unfold _filter_annotations. rewrite <- Hkeys, pick_self; [reflexivity|].
    rewrite Hkeys. exact Hnd.
  - unfold __repr__, fields. rewrite fields_mapM_pick, Hall.
    cbn [bind]. eauto.
Qed.

Lemma constructed_has_all_fields_witness :
  exists attrs,
    VData Beta_generated beta_attrs = VData Beta_generated attrs
    /\ keys attrs = keys (annots Beta_generated)
    /\ fields (VData Beta_generated beta_attrs) true = Ok attrs
    /\ exists s, __repr__ (fun _ => "?") (VData Beta_generated beta_attrs) = Ok s.
Proof.
  refine (constructed_has_all_fields (fun _ x _ _ => Ok x) (fun _ => "?")
            Beta_generated _ [VInt 1; VInt 2; VInt 3] [] _
            eq_refl eq_refl _ eq_refl eq_refl eq_refl).
  repeat constructor; simpl; intuition discriminate.
Defined.

(** ** Calls the constructor rejects *)

Lemma bind_keywords_bound (g : gen_new value) (kwargs bound bound' : list (string * value))
    (k : string) :
  bind_keywords g kwargs bound = Ok bound' ->
  has k bound' = true -> has k bound = true \/ has k kwargs = true.
Proof.
  revert bound. induction kwargs as [|[k' v'] kwargs IH]; simpl; intros bound H Hk.
  - apply Ok_inj in H. subst. now left.
  - rewrite has_cons.
    destruct (String.eqb k' "cls"); [discriminate H|].
    destruct (mem k' (named g)).
    + destruct (has k' bound); [discriminate H|].
      destruct (IH _ H Hk) as [Hb|Hb].
      * rewrite has_In in Hb. unfold keys in Hb. rewrite map_app in Hb.
        apply in_app_or in Hb. destruct Hb as [Hb|[<-|[]]].
        -- left. apply has_In. exact Hb.
        -- right. rewrite String.eqb_refl. reflexivity.
      * right. rewrite Hb. apply orb_true_r.
    + destruct (star_kwargs g); [|discriminate H].
      destruct (IH _ H Hk) as [Hb|Hb]; [now left|].
      right. rewrite Hb. apply orb_true_r.
Qed.

Lemma bind_keywords_unknown (g : gen_new value) (kwargs bound : list (string * value))
    (k : string) :
  In k (keys kwargs) -> mem k (named g) = false -> star_kwargs g = false ->
  bind_keywords g kwargs bound = Raise TypeError.
Proof.
  intros Hin Hm Hs. revert bound.
  induction kwargs as [|[k' v'] kwargs IH]; simpl in *; intros bound.
  - contradiction.
  - destruct (String.eqb k' "cls"); [reflexivity|].
    destruct (mem k' (named g)) eqn:E.
    + destruct (has k' bound); [reflexivity|].
      destruct Hin as [->|Hin]; [congruence | apply IH; exact Hin].
    + rewrite Hs. reflexivity.
Qed.

Lemma bind_arguments_error (g : gen_new value) (args : list value)
    (kwargs : list (string * value)) (e : exn) :
  bind_arguments g args kwargs = Raise e -> e = TypeError.
Proof.
  unfold bind_arguments.
  destruct ((List.length (positional g) <? List.length args)%nat
            && negb (star_args g)); [congruence|].
  assert (Hk : forall kw b e', bind_keywords g kw b = Raise e' -> e' = TypeError).
  { induction kw as [|[k v] kw IH]; simpl; intros b e' H; [discriminate H|].
    destruct (String.eqb k "cls"); [congruence|].
    destruct (mem k (named g)).
    - destruct (has k b); [congruence | eauto].
    - destruct (star_kwargs g); [eauto | congruence]. }
  destruct (bind_keywords g kwargs (combine (positional g) args)) eqn:E; simpl.
  - destruct (forallb _ _); congruence.
  - intros H. injection H as <-. eauto.
Qed.

(** X8: the generated constructor rejects with [TypeError], before any
    field is assigned: a call that leaves a field without default
    unsupplied; a keyword that names no field, unless the class accepts
    [**kwargs]; more positional arguments than parameters, unless the
    class accepts [*args]. *)
Theorem rejected_arguments (ty : dtype) (g : gen_new value)
    (args : list value) (kwargs : list (string * value)) :
  (forall a, In a (arguments g) ->
             has a (combine (positional g) args) = false ->
             has a kwargs = false ->
             generated__new__ ty g args kwargs = Raise TypeError)
  /\ (forall k, In k (keys kwargs) ->
                mem k (named g) = false -> star_kwargs g = false ->
                generated__new__ ty g args kwargs = Raise TypeError)
  /\ (star_args g = false ->
      (List.length (positional g) < List.length args)%nat ->
      generated__new__ ty g args kwargs = Raise TypeError).
Proof.
  assert (Hraise : forall e, bind_arguments g args kwargs = Raise e ->
                             generated__new__ ty g args kwargs = Raise TypeError).
  { intros e He. unfold generated__new__. rewrite He.
    rewrite (bind_arguments_error _ _ _ _ He). reflexivity. }
  split; [|split].
  - intros a Ha Hpos Hkw.
    destruct (bind_arguments g args kwargs) as [bound|e] eqn:E; [|eauto].
    exfalso. unfold bind_arguments in E.
    destruct ((List.length (positional g) <? List.length args)%nat
              && negb (star_args g)); [discriminate E|].
    apply bind_Ok in E. destruct E as (b & Hb & E).
    destruct (forallb (fun a => has a b) (arguments g)) eqn:Hall;
      [|discriminate E].
    rewrite forallb_forall in Hall. specialize (Hall a Ha).
    destruct (bind_keywords_bound _ _ _ _ _ Hb Hall); congruence.
  - intros k Hk Hm Hs. apply (Hraise TypeError). unfold bind_arguments.
    destruct ((List.length (positional g) <? List.length args)%nat
              && negb (star_args g)); [reflexivity|].
    rewrite (bind_keywords_unknown _ _ _ k Hk Hm Hs). reflexivity.
  - intros Hs Hlt. apply (Hraise TypeError). unfold bind_arguments.
    rewrite Hs. apply Nat.ltb_lt in Hlt. rewrite Hlt. reflexivity.
Qed.

Lemma rejected_arguments_witness :
  generated__new__ Beta_generated
    (_generate_new (annots Beta) Beta_defaults false false)
    [VInt 1; VInt 2] [] = Raise TypeError
  /\ generated__new__ Beta_generated
       (_generate_new (annots Beta) Beta_defaults false false)
       [VInt 1; VInt 2; VInt 3] [("z", VInt 0)] = Raise TypeError.
Proof.
  split.
  - refine (proj1 (rejected_arguments Beta_generated
                     (_generate_new (annots Beta) Beta_defaults false false)
                     [VInt 1; VInt 2] [])
              "f" _ eq_refl eq_refl).
    simpl. tauto.
  - refine (proj1 (proj2 (rejected_arguments Beta_generated
                            (_generate_new (annots Beta) Beta_defaults false false)
                            [VInt 1; VInt 2; VInt 3] [("z", VInt 0)]))
              "z" _ eq_refl eq_refl).
    simpl. tauto.
Defined.

(** ** Positional construction *)

Lemma has_combine_app (a : string) (l1 l2 : list string) (args : list value) :
  In a l1 -> (List.length l1 <= List.length args)%nat ->
  has a (combine (l1 ++ l2) args) = true.
Proof.
  revert args. induction l1 as [|x l1 IH]; simpl; intros args Hin Hle.
  - contradiction.
  - destruct args as [|v args]; simpl in Hle; [lia|].
    rewrite has_cons. destruct Hin as [->|Hin].
    + rewrite String.eqb_refl. reflexivity.
    + rewrite IH by (auto; lia). apply orb_true_r.
Qed.

Lemma assign_succeeds (ty : dtype) (g : gen_new value)
    (bound : list (string * value)) (ns : list string)
    (attrs : list (string * value)) :
  (forall n, In n ns -> exists v, local g bound n = Ok v) ->
  negb (new_frozen g) && frozen_attr ty = false ->
  exists attrs', assign ty g bound ns attrs = Ok attrs'.
Proof.
  intros Hl Hf. revert attrs. induction ns as [|n ns IH]; simpl; intros attrs.
  - eauto.
  - destruct (Hl n (or_introl eq_refl)) as (v & ->). simpl. rewrite Hf.
    apply IH. intros m Hm. apply Hl. now right.
Qed.

Lemma locals_get (g : gen_new value) (bound : list (string * value))
    (ns : list string) (f : string) (v : value) :
  In f ns -> local g bound f = Ok v -> get f (locals g bound ns) = Some v.
Proof.
  intros Hin Hv. induction ns as [|n ns IH]; simpl; [contradiction|].
  destruct (String.eqb_spec f n) as [<-|Hne].
  - rewrite Hv. simpl. rewrite String.eqb_refl. reflexivity.
  - destruct Hin as [->|Hin]; [contradiction|].
    destruct (local g bound n); simpl.
    + apply String.eqb_neq in Hne. rewrite Hne. apply IH. exact Hin.
    + apply IH. exact Hin.
Qed.

(** X9: called with positional arguments only, at least as many as there
    are fields without default and no more than there are fields, the
    generated constructor of a class without [__init__] and with plain
    field names (none is a name of the generated text, none begins with
    two underscores) succeeds; the arguments go to the parameters in their
    order (fields without default first), every field left over takes its
    default. *)
Theorem positional_construction (ty : dtype) (defaults : namespace)
    (k fr : bool) (args : list value) :
  let g := _generate_new (annots ty) defaults k fr in
  has "__init__" defaults = false ->
  negb fr && frozen_attr ty = false ->
  NoDup (keys (annots ty)) ->
  plain_names (keys (annots ty)) = true ->
  (List.length (arguments g) <= List.length args)%nat ->
  (List.length args <= List.length (named g))%nat ->
  exists attrs,
    generated__new__ ty g args [] = Ok (VData ty attrs)
    /\ keys attrs = keys (annots ty)
    /\ forall f, In f (keys (annots ty)) ->
         get f attrs = match get f (combine (named g) args) with
                       | Some v => Some v
                       | None => get f (default_arguments g)
                       end.
Proof.
  intros g Hinit Hstale Hnd _ Hlo Hhi.
  assert (Hpos : positional g = named g).
  { unfold positional, named, g. simpl. rewrite Hinit. reflexivity. }
  set (bound := combine (named g) args).
  assert (Hbind : bind_arguments g args [] = Ok bound).
  { unfold bind_arguments. rewrite Hpos.
    replace (List.length (named g) <? List.length args)%nat with false
      by (symmetry; apply Nat.ltb_ge; exact Hhi).
    cbn [andb bind_keywords bind]. fold bound.
    replace (forallb (fun a => has a bound) (arguments g)) with true;
      [reflexivity|].
    symmetry. apply forallb_forall. intros a Ha.
    unfold bound, named. apply has_combine_app; assumption. }
  assert (Hlocal : forall n, In n (keys (annots ty)) ->
             exists v, local g bound n = Ok v
                       /\ Some v = match get n bound with
                                   | Some v => Some v
                                   | None => get n (default_arguments g)
                                   end).
  { intros n Hn. unfold local. destruct (get n bound) as [v|] eqn:E; [eauto|].
    assert (Hm : In n (named g)).
    { apply mem_In. apply named_generated. exact Hn. }
    unfold named in Hm. apply in_app_or in Hm. destruct Hm as [Hm|Hm].
    - exfalso. pose proof (has_combine_app n _ (keys (default_arguments g))
                             args Hm Hlo) as Hh.
      unfold has in Hh. fold (named g) in Hh. fold bound in Hh.
      rewrite E in Hh. discriminate Hh.
    - apply In_get_Some in Hm. destruct Hm as (v & ->). eauto. }
  destruct (assign_succeeds ty g bound (keys (annots ty)) []) as (attrs & Ha).
  { intros n Hn. destruct (Hlocal n Hn) as (v & Hv & _). eauto. }
  { exact Hstale. }
  exists attrs. split; [|split].
  - unfold generated__new__. rewrite Hbind. cbn [bind].
    change (assigned g) with (keys (annots ty)). rewrite Ha. reflexivity.
  - apply assign_locals in Ha. destruct Ha as (-> & Hk).
    rewrite keys_update_nil; rewrite Hk; [reflexivity | exact Hnd].
  - intros f Hf. apply assign_locals in Ha. destruct Ha as (-> & Hk).
    rewrite get_update by (rewrite Hk; exact Hnd).
    destruct (Hlocal f Hf) as (v & Hv & Hval).
    rewrite (locals_get _ _ _ _ _ Hf Hv). fold bound. exact Hval.
Qed.

Lemma positional_construction_witness :
  exists attrs,
    generated__new__ Beta_generated
      (_generate_new (annots Beta_generated) Beta_defaults false false)
      [VInt 1; VInt 2; VInt 3] []
    = Ok (VData Beta_generated attrs)
    /\ keys attrs = keys (annots Beta_generated)
    /\ forall f, In f (keys (annots Beta_generated)) ->
         get f attrs
         = match get f (combine
                          (named (_generate_new (annots Beta_generated)
                                    Beta_defaults false false))
                          [VInt 1; VInt 2; VInt 3]) with
           | Some v => Some v
           | None => get f (default_arguments
                              (_generate_new (annots Beta_generated)
                                 Beta_defaults false false))
           end.
Proof.
  refine (positional_construction Beta_generated Beta_defaults false false
            [VInt 1; VInt 2; VInt 3] eq_refl eq_refl _ eq_refl _ _).
  - repeat constructor; simpl; intuition discriminate.
  - simpl. lia.
  - simpl. lia.
Defined.

(** ** What the metaclass stores in the class *)

Lemma get_setdefault_other {V : Type} (k k' : string) (v : V)
    (d : list (string * V)) :
  k <> k' -> get k (setdefault k' v d) = get k d.
Proof.
  intros Hne. unfold setdefault. destruct (has k' d); [reflexivity|].
  rewrite get_set. apply String.eqb_neq in Hne. rewrite Hne. reflexivity.
Qed.

Lemma get_del_item_other {V : Type} (k k' : string) (d d' : list (string * V)) :
  del_item k' d = Ok d' -> k <> k' -> get k d' = get k d.
Proof.
  unfold del_item. destruct (has k' d); [|discriminate].
  intros H Hne. apply Ok_inj in H. subst d'. apply get_del_other. exact Hne.
Qed.

Lemma get_del_items_other {V : Type} (k : string) (ks : list string)
    (d d' : list (string * V)) :
  del_items ks d = Ok d' -> ~ In k ks -> get k d' = get k d.
Proof.
  revert d. induction ks as [|k0 ks IH]; simpl; intros d H Hn.
  - apply Ok_inj in H. subst. reflexivity.
  - apply bind_Ok in H. destruct H as (d0 & H0 & H).
    rewrite (IH _ H) by tauto.
    eapply get_del_item_other; [exact H0 | intros ->; apply Hn; now left].
Qed.

Lemma get_pop_other (r : string) (ns : namespace) :
  r <> "__defaults__" -> get r (pop__new__ ns) = get r ns.
Proof.
  intros Hne. unfold pop__new__.
  destruct (get "__defaults__" ns) as [[]|]; try reflexivity.
  apply get_set_other. exact Hne.
Qed.

Lemma get_pop_defaults (ns d : namespace) :
  get "__defaults__" ns = Some (EDefaults d) ->
  get "__defaults__" (pop__new__ ns) = Some (EDefaults (del "__new__" d)).
Proof.
  intros H. unfold pop__new__. rewrite H, get_set. reflexivity.
Qed.

(** A name the metaclass does not touch and that is no field has, before
    the methods are installed, the entry it has once the descriptor is
    stored; the class is that namespace with the methods installed. *)
Lemma new_stages (id : nat) (name : string) (bases : list namespace)
    (ns : namespace) (kwargs : options) (cls : class) :
  DataClassMeta.__new__ id name bases ns kwargs = Ok cls ->
  let c := collect bases ns kwargs in
  exists ns3,
    (forall r, ~ In r (keys (all_annotations c)) ->
               ~ In r ["__dict__"; "__weakref__"; "__slots__"] ->
               get r ns3 = get r (stored c ns))
    /\ vars cls
       = (let ns := if option_of (all_options c) "init"
                    then setdefault "__new__"
                           (ENew (_generate_new (all_annotations c)
                                    (all_defaults c)
                                    (option_of (all_options c) "kwargs")
                                    (option_of (all_options c) "frozen")))
                           (pop__new__ ns3)
                    else ns3 in
          let ns := if option_of (all_options c) "repr"
                    then setdefault "__repr__" fn__repr__ ns else ns in
          let ns := if option_of (all_options c) "eq"
                    then setdefault "__eq__" fn__eq__ ns else ns in
          let ns := if option_of (all_options c) "iter"
                    then setdefault "__iter__" fn__iter__ ns else ns in
          if option_of (all_options c) "frozen"
          then set "__delattr__" fn__setattr__
                 (set "__setattr__" fn__setattr__ ns)
          else ns).
Proof.
  intros H. cbv zeta. unfold DataClassMeta.__new__ in H.
  set (c := collect bases ns kwargs) in *.
  fold (stored c ns) in H. set (ns0 := stored c ns) in *.
  apply bind_Ok in H. destruct H as (ns1 & H1 & H).
  apply bind_Ok in H. destruct H as (ns2 & H2 & H).
  destruct (has "__post_init__" ns2); [discriminate H|].
  apply bind_Ok in H. destruct H as (ns3 & H3 & H).
  apply Ok_inj in H. subst cls. cbn [vars].
  exists ns3. split; [|reflexivity].
  intros r Hann Ht.
  assert (Hne : forall k, In k ["__dict__"; "__weakref__"; "__slots__"] -> r <> k)
    by (intros k Hk ->; auto).
  simpl in Hne.
  assert (E2 : get r ns2 = get r ns0).
  { rewrite (get_del_item_other _ _ _ _ H2) by (apply Hne; tauto).
    apply (get_del_item_other _ _ _ _ H1). apply Hne; tauto. }
  rewrite <- E2. clear E2.
  destruct (option_of (all_options c) "slots").
  - apply bind_Ok in H3. destruct H3 as (ns' & Hd & H3).
    apply Ok_inj in H3. subst ns3. rewrite get_set_other by (apply Hne; tauto).
    apply (get_del_items_other _ _ _ _ Hd).
    intros Hin. apply filter_In in Hin. tauto.
  - destruct (has "__slots__" ns2).
    + apply bind_Ok in H3. destruct H3 as (ns' & Hd & H3).
      rewrite (get_del_item_other _ _ _ _ H3) by (apply Hne; tauto).
      apply (get_del_items_other _ _ _ _ Hd).
      intros Hin. apply filter_In in Hin. tauto.
    + apply Ok_inj in H3. subst. reflexivity.
Qed.

(** A name the metaclass does not touch and that is no field keeps, in the
    class, the entry it has once the descriptor is stored. *)
Lemma new_keeps (id : nat) (name : string) (bases : list namespace)
    (ns : namespace) (kwargs : options) (cls : class) (r : string) :
  DataClassMeta.__new__ id name bases ns kwargs = Ok cls ->
  ~ In r (keys (all_annotations (collect bases ns kwargs))) ->
  ~ In r touched ->
  r <> "__defaults__" ->
  get r (vars cls) = get r (stored (collect bases ns kwargs) ns).
Proof.
  intros H Hann Ht Hd.
  destruct (new_stages _ _ _ _ _ _ H) as (ns3 & Hget & ->).
  assert (Hne : forall k, In k touched -> r <> k) by (intros k Hk ->; auto).
  unfold touched in Hne. simpl in Hne.
  rewrite <- (Hget r Hann)
    by (intros Hin; apply Ht; unfold touched; simpl in *; tauto).
  cbv zeta.
  repeat match goal with
         | |- context [if ?b then _ else _] => destruct b
         end;
    repeat first [rewrite get_set_other by (apply Hne; tauto)
                 | rewrite get_setdefault_other by (apply Hne; tauto)
                 | rewrite get_pop_other by exact Hd];
    reflexivity.
Qed.

(** The dict stored under [__defaults__] is the collected one, without
    [__new__] once a constructor was generated. *)
Lemma new_keeps_defaults (id : nat) (name : string) (bases : list namespace)
    (ns : namespace) (kwargs : options) (cls : class) :
  DataClassMeta.__new__ id name bases ns kwargs = Ok cls ->
  let c := collect bases ns kwargs in
  ~ In "__defaults__" (keys (all_annotations c)) ->
  get "__defaults__" (vars cls)
  = Some (EDefaults (if option_of (all_options c) "init"
                     then del "__new__" (all_defaults c)
                     else all_defaults c)).
Proof.
  intros H c Hann.
  destruct (new_stages _ _ _ _ _ _ H) as (ns3 & Hget & ->). fold c in Hget.
  assert (E : get "__defaults__" ns3 = Some (EDefaults (all_defaults c))).
  { rewrite (Hget _ Hann) by (simpl; intuition discriminate).
    unfold stored. rewrite !get_set. reflexivity. }
  fold c. cbv zeta.
  destruct (option_of (all_options c) "init");
    repeat match goal with
           | |- context [if ?b then _ else _] => destruct b
           end;
    repeat first [rewrite get_set_other by discriminate
                 | rewrite get_setdefault_other by discriminate];
    first [apply get_pop_defaults; exact E | exact E].
Qed.

Lemma set_fresh {V : Type} (k : string) (v : V) (d : list (string * V)) :
  ~ In k (keys d) -> set k v d = d ++ [(k, v)].
Proof.
  induction d as [|[k0 v0] d IH]; simpl; intros Hn; [reflexivity|].
  destruct (String.eqb_spec k k0) as [->|Hne].
  - exfalso. apply Hn. now left.
  - rewrite IH by tauto. reflexivity.
Qed.

Lemma update_fresh {V : Type} (d e : list (string * V)) :
  NoDup (keys d ++ keys e) -> update d e = d ++ e.
Proof.
  unfold update. revert d. induction e as [|[k v] e IH]; simpl; intros d Hnd.
  - symmetry. apply app_nil_r.
  - rewrite set_fresh.
    + rewrite IH; [rewrite <- app_assoc; reflexivity|].
      unfold keys in *. rewrite map_app, <- app_assoc. exact Hnd.
    + apply NoDup_remove_2 in Hnd. intros Hin. apply Hnd.
      apply in_or_app. now left.
Qed.

Lemma NoDup_keys_update {V : Type} (d e : list (string * V)) :
  NoDup (keys d) -> NoDup (keys (update d e)).
Proof.
  unfold update. revert d. induction e as [|[k v] e IH]; simpl; intros d Hnd.
  - exact Hnd.
  - apply IH. rewrite keys_set. destruct (mem k (keys d)) eqn:E; [exact Hnd|].
    apply NoDup_app; [exact Hnd | repeat constructor; simpl; tauto |].
    intros x Hx [<-|[]]. apply mem_In in Hx. congruence.
Qed.

Lemma collected_annotations_NoDup (bases : list namespace) (ns : namespace)
    (kwargs : options) :
  NoDup (keys (all_annotations (collect bases ns kwargs))).
Proof.
  rewrite collect_annotations. apply NoDup_keys_update.
  unfold merge_annotations.
  assert (H : forall l acc, NoDup (keys acc) ->
            NoDup (keys (fold_left
                           (fun (acc : list (string * annotation)) b =>
                              update acc (ns_annotations b)) l acc))).
  { induction l as [|b l IH]; simpl; intros acc Ha; [exact Ha|].
    apply IH. apply NoDup_keys_update. exact Ha. }
  apply H. constructor.
Qed.

(** X10: the class the metaclass returns carries the collected
    annotations and options under [__annotations__] and [__dataclass__],
    and under [__defaults__] the collected defaults, from which generating
    the constructor has removed [__new__] (no field bearing one of these
    three names).  This is what a later subclass starts from: its fields
    are the fields of the class, updated with those of its own body. *)
Theorem class_stores_descriptor (id : nat) (name : string)
    (bases : list namespace) (ns : namespace) (kwargs : options) (cls : class) :
  DataClassMeta.__new__ id name bases ns kwargs = Ok cls ->
  let c := collect bases ns kwargs in
  (forall r, In r ["__annotations__"; "__defaults__"; "__dataclass__"] ->
             ~ In r (keys (all_annotations c))) ->
  ns_annotations (vars cls) = all_annotations c
  /\ ns_options (vars cls) = all_options c
  /\ get "__defaults__" (vars cls)
     = Some (EDefaults (if option_of (all_options c) "init"
                        then del "__new__" (all_defaults c)
                        else all_defaults c))
  /\ forall body kw,
       all_annotations (collect [vars cls] body kw)
       = update (all_annotations c) (ns_annotations body).
Proof.
  intros H c Hres.
  assert (Hget : forall r, In r ["__annotations__"; "__dataclass__"] ->
                           get r (vars cls) = get r (stored c ns)).
  { intros r Hr. apply (new_keeps _ _ _ _ _ _ r H).
    - apply Hres. simpl in *. tauto.
    - unfold touched. simpl in *. intuition (subst; discriminate).
    - simpl in Hr. intuition (subst; discriminate). }
  assert (Ha : get "__annotations__" (vars cls)
               = Some (EAnnotations (all_annotations c))).
  { rewrite Hget by (simpl; tauto). unfold stored.
    rewrite !get_set. reflexivity. }
  assert (Ho : get "__dataclass__" (vars cls) = Some (EOptions (all_options c))).
  { rewrite Hget by (simpl; tauto). unfold stored.
    rewrite !get_set. reflexivity. }
  assert (Hann : ns_annotations (vars cls) = all_annotations c).
  { unfold ns_annotations. rewrite Ha. reflexivity. }
  split; [exact Hann|]. split; [unfold ns_options; rewrite Ho; reflexivity|].
  split.
  - apply (new_keeps_defaults _ _ _ _ _ _ H). apply Hres. simpl. tauto.
  - intros body kw. rewrite collect_annotations. simpl.
    assert (Hhas : has "__dataclass__" (vars cls) = true)
      by (unfold has; rewrite Ho; reflexivity).
    rewrite Hhas. unfold merge_annotations. simpl. rewrite Hann.
    f_equal. apply (update_fresh []). simpl.
    exact (collected_annotations_NoDup bases ns kwargs).
Qed.

Lemma class_stores_descriptor_witness :
  match dataclass 41
          (plain_class 40 "Alpha"
             [("__annotations__",
               EAnnotations [("a", int); ("b", int); ("c", int)]);
              ("b", EVal (VInt 2))])
          [] [("slots", true)] with
  | Ok cls => ns_annotations (vars cls) = [("a", int); ("b", int); ("c", int)]
  | Raise _ => False
  end.
Proof.
  destruct (dataclass 41 _ [] [("slots", true)]) as [cls|e] eqn:E.
  - refine (proj1 (class_stores_descriptor _ _ _ _ _ cls E _)).
    intros r Hr Hin. vm_compute in Hin. simpl in Hr.
    intuition congruence.
  - vm_compute in E. discriminate E.
Defined.

(** X11: a class created with the [frozen] option on binds both
    [__setattr__] and [__delattr__] to the raising function, whatever the
    body or a base had bound them to, so assignment to and deletion of any
    attribute of any of its instances raise [AttributeError]. *)
Theorem frozen_installs_both (id : nat) (name : string)
    (bases : list namespace) (ns : namespace) (kwargs : options) (cls : class) :
  DataClassMeta.__new__ id name bases ns kwargs = Ok cls ->
  option_of (all_options (collect bases ns kwargs)) "frozen" = true ->
  get "__setattr__" (vars cls) = Some fn__setattr__
  /\ get "__delattr__" (vars cls) = Some fn__setattr__
  /\ forall attrs n v,
       setattr (VData (type_of cls) attrs) n v = Raise AttributeError
       /\ delattr (VData (type_of cls) attrs) n = Raise AttributeError.
Proof.
  intros H Hf.
  pose proof (frozen_option_installs_setattr _ _ _ _ _ _ H Hf) as Hfa.
  unfold DataClassMeta.__new__ in H.
  apply bind_Ok in H. destruct H as (ns1 & _ & H).
  apply bind_Ok in H. destruct H as (ns2 & _ & H).
  destruct (has "__post_init__" ns2); [discriminate H|].
  apply bind_Ok in H. destruct H as (ns3 & _ & H).
  rewrite Hf in H. apply Ok_inj in H. subst cls. cbn [vars].
  split; [|split].
  - rewrite !get_set. reflexivity.
  - rewrite get_set. reflexivity.
  - intros attrs n v. apply frozen_instance_rejects. exact Hfa.
Qed.

Lemma frozen_installs_both_witness :
  match dataclass 31 (plain_class 30 "Frozen"
                        [("__annotations__",
                          EAnnotations [("a", int); ("b", int)]);
                         ("__setattr__", EVal (VObj "function __setattr__"))])
                  [] [("frozen", true)] with
  | Ok cls => get "__setattr__" (vars cls) = Some fn__setattr__
  | Raise _ => False
  end.
Proof.
  destruct (dataclass 31 _ [] [("frozen", true)]) as [cls|e] eqn:E.
  - exact (proj1 (frozen_installs_both _ _ _ _ _ cls E eq_refl)).
  - vm_compute in E. discriminate E.
Defined.

(** X12: the metaclass deletes [__dict__] from the namespace without
    looking for it first: when neither the namespace nor the collected
    defaults hold it (a body handed to the metaclass directly, or [vars]
    of a class whose base already provides its [__dict__]), class creation
    raises [KeyError], whatever else the namespace declares. *)
Theorem new_without_dict (id : nat) (name : string) (bases : list namespace)
    (ns : namespace) (kwargs : options) :
  has "__dict__" ns = false ->
  has "__dict__" (all_defaults (collect bases ns kwargs)) = false ->
  DataClassMeta.__new__ id name bases ns kwargs = Raise KeyError.
Proof.
  intros Hn Hd. unfold DataClassMeta.__new__.
  set (c := collect bases ns kwargs) in *.
  unfold del_item at 1. rewrite !has_set, has_update, Hn, Hd.
  reflexivity.
Qed.

Lemma new_without_dict_witness :
  DataClassMeta.__new__ 50 "Direct" []
    [("__annotations__", EAnnotations [("a", int)])] []
  = Raise KeyError.
Proof.
  exact (new_without_dict 50 "Direct" []
           [("__annotations__", EAnnotations [("a", int)])] []
           eq_refl eq_refl).
Defined.

(** ** [replace]: round trip and rejected overrides *)

(** The conversion of an instance reads the attributes of its annotated
    fields and nothing else. *)
Lemma recurse_instance_ext (iter_proc : list (value * value) -> result value)
    (ty : dtype) (a1 a2 : list (string * value)) :
  (forall f, In f (keys (annots ty)) -> get f a1 = get f a2) ->
  _recurse_structure iter_proc (VData ty a1)
  = _recurse_structure iter_proc (VData ty a2).
Proof.
  intros H. simpl.
  assert (Hin : forall fa, In fa (annots ty) -> In (fst fa) (keys (annots ty))).
  { intros fa Hfa. unfold keys. apply in_map. exact Hfa. }
  rewrite (mapM_ext_in (fun fa => getattr a1 (fst fa))
                       (fun fa => getattr a2 (fst fa))).
  2:{ intros fa Hfa. unfold getattr. rewrite (H _ (Hin _ Hfa)). reflexivity. }
  destruct (mapM (fun fa => getattr a2 (fst fa)) (annots ty)); [|reflexivity].
  cbn [bind]. f_equal. apply mapM_ext_in. intros fa Hfa.
  rewrite !look_get, (H _ (Hin _ Hfa)). reflexivity.
Qed.

(** X13: [replace(x)] without overrides is a copy: for an instance [x]
    that [as_tuple] converts, of a class with the generated constructor,
    no [__init__] of its own and plain field names (none is a name of the
    generated text, none begins with two underscores), it returns an
    instance [x'] with
    [as_tuple(x') == as_tuple(x)], so [x == x']. *)
Theorem replace_without_changes
    (hook : dtype -> value -> list value -> list (string * value) -> result value)
    (ty : dtype) (attrs fs : list (string * value))
    (defaults : namespace) (k fr : bool) (t : value) :
  new ty = Some (_generate_new (annots ty) defaults k fr) ->
  (frozen_attr ty = true -> fr = true) ->
  user_init ty = false ->
  NoDup (keys (annots ty)) ->
  plain_names (keys (annots ty)) = true ->
  fields (VData ty attrs) true = Ok fs ->
  as_tuple (VData ty attrs) = Ok t ->
  exists x',
    replace hook (VData ty attrs) [] = Ok x'
    /\ as_tuple x' = Ok t
    /\ __eq__ (VData ty attrs) x' = Ok true.
Proof.
  intros Hnew Hfr Hui Hnd Hpl Hfs Ht.
  rewrite (replace_builds hook ty attrs fs [] defaults k fr
             Hnew Hfr Hui Hnd Hpl Hfs eq_refl) by (intros n []).
  set (attrs' := update [] (pick (update fs []) (keys (annots ty)))).
  assert (Hhas : forall n, In n (keys (annots ty)) -> has n fs = true).
  { intros n Hn. apply has_In. rewrite (fields_keys _ _ _ _ Hfs). exact Hn. }
  assert (Hget : forall f, In f (keys (annots ty)) -> get f attrs' = get f attrs).
  { intros f Hf. unfold attrs'. rewrite get_update.
    - change (update fs []) with fs. rewrite (pick_get fs _ f Hf).
      rewrite (fields_get _ _ _ _ Hfs Hf).
      destruct (get f attrs); reflexivity.
    - change (update fs []) with fs. rewrite (pick_keys _ _ Hhas). exact Hnd. }
  assert (Ht' : as_tuple (VData ty attrs') = Ok t).
  { rewrite <- Ht. unfold as_tuple. cbn [is_dataclass_instance].
    apply recurse_instance_ext. exact Hget. }
  exists (VData ty attrs'). split; [reflexivity|]. split; [exact Ht'|].
  unfold __eq__. cbn [same_type]. unfold type_is. rewrite Nat.eqb_refl.
  rewrite Ht, Ht'. cbn [bind]. f_equal.
  pose proof (as_tuple_flat _ _ Ht) as Hf.
  apply (tuple_eq_spec t Hf t Hf). reflexivity.
Qed.

Lemma replace_without_changes_witness :
  exists x',
    replace (fun _ x _ _ => Ok x) (VData Beta_generated beta_attrs) [] = Ok x'
    /\ as_tuple x'
       = Ok (VTuple [VInt 1; VInt 2; VInt 2; VInt 4; VTuple []; VInt 3])
    /\ __eq__ (VData Beta_generated beta_attrs) x' = Ok true.
Proof.
  refine (replace_without_changes (fun _ x _ _ => Ok x) Beta_generated
            beta_attrs beta_attrs Beta_defaults false false _
            eq_refl _ eq_refl _ eq_refl eq_refl eq_refl).
  - discriminate.
  - repeat constructor; simpl; intuition discriminate.
Defined.

(** X14: an override that names no field makes [replace] raise
    [TypeError], for a class whose constructor takes no [**kwargs]
    (neither the [kwargs] option nor an [__init__] of its own). *)
Theorem replace_unknown_field
    (hook : dtype -> value -> list value -> list (string * value) -> result value)
    (ty : dtype) (attrs fs changes : list (string * value))
    (defaults : namespace) (fr : bool) (k : string) :
  new ty = Some (_generate_new (annots ty) defaults false fr) ->
  has "__init__" defaults = false ->
  fields (VData ty attrs) true = Ok fs ->
  In k (keys changes) ->
  ~ In k (keys (annots ty)) ->
  replace hook (VData ty attrs) changes = Raise TypeError.
Proof.
  intros Hnew Hinit Hfs Hk Hnot.
  set (g := _generate_new (annots ty) defaults false fr) in *.
  unfold replace. destruct (has "dataclass" changes); [reflexivity|].
  rewrite Hfs. cbn [bind].
  unfold __call__. rewrite Hnew.
  unfold generated__new__, bind_arguments. cbn [List.length].
  replace (List.length (positional g) <? 0)%nat with false
    by (symmetry; apply Nat.ltb_ge; apply Nat.le_0_l).
  cbn [andb]. rewrite (bind_keywords_unknown g _ _ k); [reflexivity| | |].
  - apply In_keys_update. now right.
  - destruct (mem k (named g)) eqn:E; [|reflexivity].
    exfalso. apply Hnot. apply mem_In in E. unfold g in E.
    rewrite named_generate_new in E. apply in_app_or in E.
    destruct E as [E|E]; apply filter_In in E; tauto.
  - unfold g. simpl. rewrite Hinit. reflexivity.
Qed.

Lemma replace_unknown_field_witness :
  replace (fun _ x _ _ => Ok x) (VData Beta_generated beta_attrs)
          [("g", VInt 0)]
  = Raise TypeError.
Proof.
  refine (replace_unknown_field (fun _ x _ _ => Ok x) Beta_generated
            beta_attrs beta_attrs [("g", VInt 0)] Beta_defaults false "g"
            eq_refl eq_refl eq_refl _ _).
  - simpl. tauto.
  - simpl. intuition discriminate.
Defined.

(** ** What the constructor does not copy *)

Lemma new_refs_kept (ty : dtype) (g : gen_new value)
    (defaults supplied : list (string * loc)) (n : string) (arg : loc)
    (ns : list string) :
  match get n supplied with
  | Some a => Some a
  | None => get n defaults
  end = Some arg ->
  mem n (copied g) = false \/ get n defaults <> Some arg ->
  NoDup ns -> In n ns ->
  forall h attrs h' attrs',
    new_refs h ty g defaults supplied ns attrs = Ok (h', attrs') ->
    get n attrs' = Some arg.
Proof.
  intros Harg Hkeep Hnd. induction Hnd as [|m ns Hnotin Hnd IH];
    simpl; intros Hin h attrs h' attrs' H; [contradiction|].
  destruct (match get m supplied with
            | Some a => Some a
            | None => get m defaults
            end) as [arg'|] eqn:Earg; [|discriminate H].
  apply bind_Ok in H. destruct H as ([h1 r] & Er & H).
  destruct (negb (new_frozen g) && frozen_attr ty); [discriminate H|].
  cbn [fst snd] in H.
  destruct Hin as [->|Hin]; [|exact (IH Hin _ _ _ _ H)].
  rewrite (new_refs_other _ _ _ _ _ _ Hnotin _ _ _ _ H), get_set,
    String.eqb_refl.
  rewrite Harg in Earg. injection Earg as <-.
  f_equal. unfold reference in Er.
  destruct (mem n (copied g)) eqn:Ec.
  - destruct Hkeep as [Hk|Hk]; [discriminate Hk|].
    destruct (get n defaults) as [d|]; [|discriminate Er].
    replace (Nat.eqb arg d) with false in Er
      by (symmetry; apply Nat.eqb_neq; congruence).
    apply Ok_inj in Er. injection Er as _ <-. reflexivity.
  - apply Ok_inj in Er. injection Er as _ <-. reflexivity.
Qed.

(** X15: the constructor copies a default only, and only one that had a
    [copy] attribute: an argument passed explicitly that is not the class
    default itself is stored as it is, so instances given the same list
    share it; and a default that is an int, a string, a tuple or a named
    tuple, which have no [copy], is stored uncopied.  (The field names are
    plain: none is a name of the generated text, none begins with two
    underscores.) *)
Theorem uncopied_references (ty : dtype)
    (annotations : list (string * annotation)) (defaults : namespace)
    (k fr : bool) (dlocs supplied : list (string * loc)) (n : string) :
  let g := _generate_new annotations defaults k fr in
  In n (keys annotations) -> NoDup (keys annotations) ->
  plain_names (keys annotations) = true ->
  forall h h' x,
    construct h ty g dlocs supplied = Ok (h', x) ->
    exists attrs,
      deref h' x = Some (OInst attrs)
      /\ (forall l, get n supplied = Some l -> get n dlocs <> Some l ->
                    get n attrs = Some l)
      /\ (forall d v, get n supplied = None -> get n dlocs = Some d ->
                      get n defaults = Some (EVal v) -> copyless v = true ->
                      get n attrs = Some d).
Proof.
  intros g Hin Hnd _ h h' x H. unfold construct in H.
  destruct (forallb _ _); [|discriminate H].
  apply bind_Ok in H. destruct H as ([h1 attrs] & E & H).
  apply Ok_inj in H. cbn [fst snd] in H. injection H as <- <-.
  exists attrs. split; [apply deref_last|]. split.
  - intros l Hs Hd.
    apply (new_refs_kept ty g dlocs supplied n l (assigned g)) with (5 := E);
      auto. rewrite Hs. reflexivity.
  - intros d v Hs Hd Hv Hnc.
    apply (new_refs_kept ty g dlocs supplied n d (assigned g)) with (5 := E);
      auto.
    + rewrite Hs. exact Hd.
    + left. destruct (mem n (copied g)) eqn:Ec; [|reflexivity].
      apply copied_generated in Ec. destruct Ec as (_ & e & He & Hc).
      rewrite Hv in He. injection He as <-. cbn [entry_value] in Hc.
      destruct v; discriminate.
Qed.

Lemma uncopied_references_witness :
  (exists attrs,
     deref [OList []; OList []; OInst [("mutable", 1%nat)]] 2%nat
     = Some (OInst attrs)
     /\ (forall l, get "mutable" [("mutable", 1%nat)] = Some l ->
                   get "mutable" [("mutable", 0%nat)] <> Some l ->
                   get "mutable" attrs = Some l)
     /\ (forall d v, get "mutable" [("mutable", 1%nat)] = None ->
                     get "mutable" [("mutable", 0%nat)] = Some d ->
                     get "mutable" MutableDefault_defaults = Some (EVal v) ->
                     copyless v = true ->
                     get "mutable" attrs = Some d))
  /\ (let dlocs := [("b", 1%nat); ("d", 3%nat); ("e", 4%nat)] in
      let supplied := [("a", 0%nat); ("c", 2%nat); ("f", 5%nat)] in
      exists attrs,
        deref [OInt 1; OInt 2; OInt 2; OInt 4; ODict []; OInt 3; ODict [];
               OInst [("a", 0%nat); ("b", 1%nat); ("c", 2%nat); ("d", 3%nat);
                      ("e", 6%nat); ("f", 5%nat)]] 7%nat
        = Some (OInst attrs)
        /\ (forall l, get "b" supplied = Some l -> get "b" dlocs <> Some l ->
                      get "b" attrs = Some l)
        /\ (forall d v, get "b" supplied = None -> get "b" dlocs = Some d ->
                        get "b" Beta_defaults = Some (EVal v) ->
                        copyless v = true ->
                        get "b" attrs = Some d)).
Proof.
  split.
  - refine (uncopied_references MutableDefault [("mutable", AType "List[int]")]
              MutableDefault_defaults false false [("mutable", 0%nat)]
              [("mutable", 1%nat)] "mutable" _ _ eq_refl
              [OList []; OList []] _ 2%nat eq_refl).
    + simpl. tauto.
    + repeat constructor. simpl. tauto.
  - refine (uncopied_references Beta_generated (annots Beta_generated)
              Beta_defaults false false
              [("b", 1%nat); ("d", 3%nat); ("e", 4%nat)]
              [("a", 0%nat); ("c", 2%nat); ("f", 5%nat)] "b" _ _ eq_refl
              [OInt 1; OInt 2; OInt 2; OInt 4; ODict []; OInt 3] _ 7%nat
              eq_refl).
    + simpl. tauto.
    + repeat constructor; simpl; intuition discriminate.
Defined.

(** ** The keys of [as_dict] *)

Lemma dict_set_fresh (k : string) (v : value) (d : list (value * value))
    (ks : list string) :
  map fst d = map VStr ks -> ~ In k ks ->
  dict_set (VStr k) v d = d ++ [(VStr k, v)].
Proof.
  revert ks. induction d as [|[k0 v0] d IH]; simpl; intros ks Hk Hn.
  - reflexivity.
  - destruct ks as [|k1 ks]; [discriminate Hk|]. simpl in Hk.
    injection Hk as -> Hk. unfold tuple_eq. simpl.
    destruct (String.eqb_spec k k1) as [->|Hne].
    + exfalso. apply Hn. now left.
    + fold tuple_eq. rewrite (IH ks Hk) by (simpl in Hn; tauto). reflexivity.
Qed.

Lemma dict_factory_fields (kvs : list (value * value)) (ks : list string) :
  map fst kvs = map VStr ks -> NoDup ks ->
  dict_factory kvs = Ok (VDict kvs).
Proof.
  intros Hk Hnd. unfold dict_factory.
  assert (H : forall kvs ks acc ks0,
            map fst acc = map VStr ks0 -> map fst kvs = map VStr ks ->
            NoDup (ks0 ++ ks) ->
            fold_left (fun acc kv =>
                         d <- acc ;;
                         if hashable (fst kv)
                         then Ok (dict_set (fst kv) (snd kv) d)
                         else Raise TypeError) kvs (Ok acc)
            = Ok (acc ++ kvs)).
  { clear. induction kvs as [|[k v] kvs IH]; simpl; intros ks acc ks0 Ha Hk Hnd.
    - rewrite app_nil_r. reflexivity.
    - destruct ks as [|k1 ks]; [discriminate Hk|]. simpl in Hk.
      injection Hk as -> Hk. simpl.
      rewrite (dict_set_fresh k1 v acc ks0 Ha)
        by (apply NoDup_remove_2 in Hnd; intros Hi; apply Hnd;
            apply in_or_app; now left).
      rewrite (IH ks _ (ks0 ++ [k1])).
      + rewrite <- app_assoc. reflexivity.
      + rewrite !map_app, Ha. reflexivity.
      + exact Hk.
      + rewrite <- app_assoc. exact Hnd. }
  rewrite (H kvs ks [] []); [reflexivity | reflexivity | exact Hk | exact Hnd].
Qed.

(** X16: [as_dict] of an instance returns a dict with one item for every
    annotated field, internal ones included, keyed by the field names in
    declaration order; each value is the conversion of the attribute. *)
Theorem as_dict_keys (ty : dtype) (attrs : list (string * value)) (d : value) :
  NoDup (keys (annots ty)) ->
  as_dict (VData ty attrs) = Ok d ->
  exists kvs,
    d = VDict kvs
    /\ map fst kvs = map VStr (keys (annots ty))
    /\ Forall2 (fun fa kv =>
                  exists raw, get (fst fa) attrs = Some raw
                              /\ _recurse_structure dict_factory raw
                                 = Ok (snd kv))
               (annots ty) kvs.
Proof.
  intros Hnd H. unfold as_tuple, as_dict in H. cbn [is_dataclass_instance] in H.
  apply recurse_instance in H. destruct H as (kvs & Hp & HF).
  assert (Hk : map fst kvs = map VStr (keys (annots ty))).
  { clear Hp Hnd. unfold keys.
    induction HF as [|fa kv l r (raw & _ & Hfst & _) _ IH]; simpl;
      [reflexivity|]. rewrite Hfst, IH. reflexivity. }
  rewrite (dict_factory_fields _ _ Hk Hnd) in Hp. apply Ok_inj in Hp.
  exists kvs. split; [auto|]. split; [exact Hk|].
  clear Hk Hp Hnd.
  induction HF as [|fa kv l r (raw & Hg & _ & Hr) _ IH]; constructor; eauto.
Qed.

Lemma as_dict_keys_witness :
  exists kvs,
    VDict [(VStr "g", VDict [(VStr "x", VInt 1); (VStr "y", VInt 2);
                             (VStr "z", VInt 3)]);
           (VStr "h", VList [VDict [(VStr "g", VInt 4); (VStr "h", VInt 5)]])]
    = VDict kvs
    /\ map fst kvs = map VStr (keys (annots Epsilon))
    /\ Forall2 (fun fa kv =>
                  exists raw,
                    get (fst fa)
                        [("g", NT 1 2 3);
                         ("h", VList [VData Epsilon
                                        [("g", VInt 4); ("h", VInt 5)]])]
                    = Some raw
                    /\ _recurse_structure dict_factory raw = Ok (snd kv))
               (annots Epsilon) kvs.
Proof.
  refine (as_dict_keys Epsilon
            [("g", NT 1 2 3);
             ("h", VList [VData Epsilon [("g", VInt 4); ("h", VInt 5)]])]
            (VDict [(VStr "g", VDict [(VStr "x", VInt 1); (VStr "y", VInt 2);
                                      (VStr "z", VInt 3)]);
                    (VStr "h", VList [VDict [(VStr "g", VInt 4);
                                             (VStr "h", VInt 5)]])])
            _ eq_refl).
  repeat constructor; simpl; intuition discriminate.
Defined.

(** ** What the class keeps of its namespace *)

Lemma collected_defaults_NoDup (bases : list namespace) (ns : namespace)
    (kwargs : options) :
  NoDup (keys (all_defaults (collect bases ns kwargs))).
Proof.
  rewrite collect_defaults. apply NoDup_keys_update.
  unfold merge_defaults.
  assert (H : forall l acc, NoDup (keys acc) ->
            NoDup (keys (fold_left
                           (fun (acc : namespace) b =>
                              update acc (ns_defaults b ns)) l acc))).
  { induction l as [|b l IH]; simpl; intros acc Ha; [exact Ha|].
    apply IH. apply NoDup_keys_update. exact Ha. }
  apply H. constructor.
Qed.

(** X17: a class attribute that is no field and none of the names the
    metaclass manages is, in the class created from a body that was not
    processed before, the one the body binds, and otherwise the one
    collected from the data class bases: bases hand their class attributes
    down, the body overrides them. *)
Theorem class_attribute_kept (id : nat) (name : string)
    (bases : list namespace) (ns : namespace) (kwargs : options) (cls : class)
    (r : string) :
  DataClassMeta.__new__ id name bases ns kwargs = Ok cls ->
  get "__defaults__" ns = None ->
  NoDup (keys ns) ->
  ~ In r (keys (all_annotations (collect bases ns kwargs))) ->
  ~ In r touched ->
  ~ In r ["__annotations__"; "__defaults__"; "__dataclass__"] ->
  get r (vars cls)
  = match get r ns with
    | Some e => Some e
    | None => get r (merge_defaults (filter (has "__dataclass__") bases) ns)
    end.
Proof.
  intros H Hd Hnd Hann Ht Hr.
  assert (Hne : forall k, In k ["__annotations__"; "__defaults__"; "__dataclass__"]
                          -> r <> k) by (intros k Hk ->; auto).
  simpl in Hne.
  rewrite (new_keeps _ _ _ _ _ _ r H Hann Ht) by (apply Hne; tauto).
  unfold stored.
  rewrite !get_set_other by (apply Hne; tauto).
  rewrite get_update by apply collected_defaults_NoDup.
  rewrite collect_defaults.
  assert (E : ns_defaults ns ns = ns) by (unfold ns_defaults; rewrite Hd; reflexivity).
  rewrite E, (get_update _ _ _ Hnd).
  destruct (get r ns); [reflexivity|].
  destruct (get r (merge_defaults _ ns)); reflexivity.
Qed.

Lemma class_attribute_kept_witness :
  match dataclass 61
          (plain_class 60 "Pet"
             [("__annotations__", EAnnotations [("name", AType "str")]);
              ("SOME_CONSTANT", EVal (VInt 232))])
          [] [] with
  | Ok cls => get "SOME_CONSTANT" (vars cls) = Some (EVal (VInt 232))
  | Raise _ => False
  end.
Proof.
  destruct (dataclass 61 _ [] []) as [cls|e] eqn:E.
  - refine (class_attribute_kept _ _ _ _ _ cls "SOME_CONSTANT" E eq_refl _ _ _ _).
    + repeat constructor; simpl; intuition discriminate.
    + intros Hin. vm_compute in Hin. intuition discriminate.
    + unfold touched. simpl. intuition discriminate.
    + simpl. intuition discriminate.
  - vm_compute in E. discriminate E.
Defined.

Lemma get_setdefault_keep {V : Type} (k m : string) (v e : V)
    (d : list (string * V)) :
  get m d = Some e -> get m (setdefault k v d) = Some e.
Proof.
  intros H. unfold setdefault. destruct (has k d) eqn:Hk; [exact H|].
  rewrite get_set. destruct (String.eqb_spec m k) as [->|Hne]; [|exact H].
  unfold has in Hk. rewrite H in Hk. discriminate Hk.
Qed.

(** X18: the generated [__new__], [__repr__], [__eq__] and [__iter__] are
    only installed under a name the namespace (with the collected defaults
    merged in) does not bind yet: a method that is already there, written
    in the body or left by an earlier run of the metaclass on the same
    class, is the one the class keeps, whatever the options now say. *)
Theorem existing_method_kept (id : nat) (name : string)
    (bases : list namespace) (ns : namespace) (kwargs : options) (cls : class)
    (m : string) (e : entry) :
  DataClassMeta.__new__ id name bases ns kwargs = Ok cls ->
  In m ["__new__"; "__repr__"; "__eq__"; "__iter__"] ->
  ~ In m (keys (all_annotations (collect bases ns kwargs))) ->
  get m (update ns (all_defaults (collect bases ns kwargs))) = Some e ->
  get m (vars cls) = Some e.
Proof.
  unfold DataClassMeta.__new__.
  set (c := collect bases ns kwargs).
  intros H Hm Hann He.
  assert (Hne : forall k, In k ["__dict__"; "__weakref__"; "__slots__";
                                "__setattr__"; "__delattr__"; "__annotations__";
                                "__defaults__"; "__dataclass__"] -> m <> k).
  { intros k Hk ->. simpl in Hm, Hk. intuition congruence. }
  simpl in Hne.
  apply bind_Ok in H. destruct H as (ns1 & H1 & H).
  apply bind_Ok in H. destruct H as (ns2 & H2 & H).
  destruct (has "__post_init__" ns2); [discriminate H|].
  apply bind_Ok in H. destruct H as (ns3 & H3 & H).
  apply Ok_inj in H. subst cls. cbn [vars].
  assert (E2 : get m ns2 = Some e).
  { rewrite (get_del_item_other _ _ _ _ H2) by (apply Hne; tauto).
    rewrite (get_del_item_other _ _ _ _ H1) by (apply Hne; tauto).
    rewrite !get_set_other by (apply Hne; tauto). exact He. }
  assert (E3 : get m ns3 = Some e).
  { rewrite <- E2. clear E2.
    destruct (option_of (all_options c) "slots").
    - apply bind_Ok in H3. destruct H3 as (ns' & Hd & H3).
      apply Ok_inj in H3. subst ns3.
      rewrite get_set_other by (apply Hne; tauto).
      apply (get_del_items_other _ _ _ _ Hd).
      intros Hin. apply filter_In in Hin. tauto.
    - destruct (has "__slots__" ns2).
      + apply bind_Ok in H3. destruct H3 as (ns' & Hd & H3).
        rewrite (get_del_item_other _ _ _ _ H3) by (apply Hne; tauto).
        apply (get_del_items_other _ _ _ _ Hd).
        intros Hin. apply filter_In in Hin. tauto.
      + apply Ok_inj in H3. subst. reflexivity. }
  repeat match goal with
         | |- context [if ?b then _ else _] => destruct b
         end;
    repeat first [rewrite get_set_other by (apply Hne; tauto)
                 | rewrite get_pop_other by (apply Hne; tauto)
                 | apply get_setdefault_keep];
    exact E3.
Qed.

Lemma existing_method_kept_witness :
  match dataclass 71
          (plain_class 70 "Verbose"
             [("__annotations__", EAnnotations [("a", int)]);
              ("__repr__", EVal (VObj "function __repr__"))])
          [] [] with
  | Ok cls => get "__repr__" (vars cls) = Some (EVal (VObj "function __repr__"))
  | Raise _ => False
  end.
Proof.
  destruct (dataclass 71 _ [] []) as [cls|e] eqn:E.
  - refine (existing_method_kept _ _ _ _ _ cls "__repr__" _ E _ _ eq_refl).
    + simpl. tauto.
    + intros Hin. vm_compute in Hin. intuition discriminate.
  - vm_compute in E. discriminate E.
Defined.

(** ** A class with its own [__init__] *)

(** X19: when the class defines [__init__] and its field names are plain
    (none is a name of the generated text, none begins with two
    underscores), the generated constructor takes positional arguments for the
    fields without default only: called with at least that many positional
    arguments it fills those fields from the first ones, gives every
    defaulted field its default, and [__call__] hands the remaining
    positional arguments to [__init__]. *)
Theorem custom_init_forwarding
    (hook : dtype -> value -> list value -> list (string * value) -> result value)
    (ty : dtype) (defaults : namespace) (k fr : bool) (args : list value) :
  let g := _generate_new (annots ty) defaults k fr in
  new ty = Some g ->
  user_init ty = true ->
  has "__init__" defaults = true ->
  negb fr && frozen_attr ty = false ->
  NoDup (keys (annots ty)) ->
  plain_names (keys (annots ty)) = true ->
  (List.length (arguments g) <= List.length args)%nat ->
  exists attrs,
    __call__ hook ty args []
    = hook ty (VData ty attrs) (skipn (List.length (arguments g)) args) []
    /\ keys attrs = keys (annots ty)
    /\ forall f, In f (keys (annots ty)) ->
         get f attrs = match get f (combine (arguments g) args) with
                       | Some v => Some v
                       | None => get f (default_arguments g)
                       end.
Proof.
  intros g Hnew Hui Hinit Hstale Hnd _ Hlo.
  assert (Hpos : positional g = arguments g).
  { unfold positional, g. simpl. rewrite Hinit. apply app_nil_r. }
  set (bound := combine (arguments g) args).
  assert (Hreq : forall a, In a (arguments g) -> has a bound = true).
  { intros a Ha. unfold bound.
    rewrite <- (app_nil_r (arguments g)) at 1.
    apply has_combine_app; assumption. }
  assert (Hbind : bind_arguments g args [] = Ok bound).
  { unfold bind_arguments. rewrite Hpos.
    replace (star_args g) with true by (unfold g; simpl; congruence).
    rewrite andb_false_r. cbn [bind_keywords bind]. fold bound.
    replace (forallb (fun a => has a bound) (arguments g)) with true;
      [reflexivity|].
    symmetry. apply forallb_forall. exact Hreq. }
  assert (Hlocal : forall n, In n (keys (annots ty)) ->
             exists v, local g bound n = Ok v
                       /\ Some v = match get n bound with
                                   | Some v => Some v
                                   | None => get n (default_arguments g)
                                   end).
  { intros n Hn. unfold local. destruct (get n bound) as [v|] eqn:E; [eauto|].
    assert (Hm : In n (named g)).
    { apply mem_In. apply named_generated. exact Hn. }
    unfold named in Hm. apply in_app_or in Hm. destruct Hm as [Hm|Hm].
    - exfalso. pose proof (Hreq n Hm) as Hh. unfold has in Hh.
      rewrite E in Hh. discriminate Hh.
    - apply In_get_Some in Hm. destruct Hm as (v & ->). eauto. }
  destruct (assign_succeeds ty g bound (keys (annots ty)) []) as (attrs & Ha).
  { intros n Hn. destruct (Hlocal n Hn) as (v & Hv & _). eauto. }
  { exact Hstale. }
  exists attrs. split; [|split].
  - unfold __call__. rewrite Hnew. fold g. unfold generated__new__.
    rewrite Hbind. cbn [bind].
    change (assigned g) with (keys (annots ty)). rewrite Ha.
    cbn [bind filter]. rewrite Hui, Hpos. reflexivity.
  - apply assign_locals in Ha. destruct Ha as (-> & Hk).
    rewrite keys_update_nil; rewrite Hk; [reflexivity | exact Hnd].
  - intros f Hf. apply assign_locals in Ha. destruct Ha as (-> & Hk).
    rewrite get_update by (rewrite Hk; exact Hnd).
    destruct (Hlocal f Hf) as (v & Hv & Hval).
    rewrite (locals_get _ _ _ _ _ Hf Hv). fold bound. exact Hval.
Qed.

Lemma custom_init_forwarding_witness :
  exists attrs,
    __call__ (fun _ x _ _ => Ok x) CustomInit [VInt 1; VInt 2; VInt 3] []
    = Ok (VData CustomInit attrs)
    /\ keys attrs = ["a"; "b"]
    /\ forall f, In f ["a"; "b"] ->
         get f attrs
         = match get f (combine ["a"; "b"] [VInt 1; VInt 2; VInt 3]) with
           | Some v => Some v
           | None => get f (default_arguments
                              (_generate_new [("a", int); ("b", int)]
                                 CustomInit_defaults false false))
           end.
Proof.
  refine (custom_init_forwarding (fun _ x _ _ => Ok x) CustomInit
            CustomInit_defaults false false [VInt 1; VInt 2; VInt 3]
            eq_refl eq_refl eq_refl eq_refl _ eq_refl _).
  - repeat constructor; simpl; intuition discriminate.
  - simpl. lia.
Defined.
